(** * ladon: the Postgres policy store (policy/postgres/postgres.go)

    A shallow embedding of [Store.CreateSchemas], [Store.Create],
    [Store.Get], [Store.Delete], [Store.FindPoliciesForSubject], [getLinked]
    and [createLink], over a model of the four tables the schema declares
    and of the [database/sql] calls the code makes.  The collaborators the
    store imports (the template compiler, the JSON codec, the
    regular-expression operator of the database) are an interface; a
    reference implementation of it is given further down and is used for the
    concrete runs. *)

From Stdlib Require Import List String Ascii Bool Arith Lia Permutation.
Import ListNotations.
Local Open Scope string_scope.
Local Open Scope list_scope.

(** ** Go values *)

(** Go [error] values.  The store compares errors with the sentinels
    [sql.ErrNoRows] and returns [pkg.ErrNotFound]; [errors.New(err)] of
    go-errors wraps an error in a fresh value that carries it. *)
Inductive error : Type :=
| sql_ErrNoRows
| sql_ErrTxDone
| pkg_ErrNotFound
| ErrOther (msg : string)
| errors_New (e : error).

(** A Go result pair [(v, err)]: the value when [err == nil], else the error. *)
Inductive result (A : Type) : Type :=
| Ok (a : A)
| Err (e : error).
Arguments Ok {A} a.
Arguments Err {A} e.

(** What a call does: it returns, or it panics (nil pointer dereference). *)
Inductive outcome (A : Type) : Type :=
| Ret (a : A)
| Panic.
Arguments Ret {A} a.
Arguments Panic {A}.

Definition error_eq_dec (a b : error) : {a = b} + {a <> b}.
Proof. decide equality; apply string_dec. Defined.

(** [carries reported e]: the error value [reported] is [e] or wraps it. *)
Fixpoint carries (reported e : error) : bool :=
  if error_eq_dec reported e then true
  else match reported with
       | errors_New inner => carries inner e
       | _ => false
       end.

(** ** Collaborators *)

(** The packages the store calls and that are not part of it:
    [compiler.CompileRegex] (the text is [reg.String()] of the compiled
    expression; on failure the expression returned is nil),
    [json.Marshal] / [json.Unmarshal] on the conditions, and the operator
    [subject ~* pattern] of the database. *)
Class Collaborators : Type := {
  Condition : Type;
  json_Marshal : list Condition -> error + string;
  json_Unmarshal : string -> error + list Condition;
  compiler_CompileRegex : string -> ascii -> ascii -> error + string;
  regex_match_ci : string -> string -> bool
}.

(** ** Tables *)

(** A row of [ladon_policy].  The columns [created_at] and [previous] are
    never written or read by the store and are left out.  The column [id],
    like [policy] of the link tables, is of type uuid: a row holds the text
    the column gives back, and ids are compared as that text (a text the
    column refuses makes the statement fail, as any failure of the backend
    does). *)
Record PolicyRow : Type := {
  row_id : string;
  row_description : string;
  row_effect : string;
  row_conditions : string
}.

(** A row of one of the three link tables. *)
Record LinkRow : Type := {
  link_compiled : string;
  link_template : string;
  link_policy : string
}.

Inductive LinkTable : Type :=
| ladon_policy_subject
| ladon_policy_permission
| ladon_policy_resource.

Record Database : Type := {
  ladon_policy : list PolicyRow;
  subject_rows : list LinkRow;
  permission_rows : list LinkRow;
  resource_rows : list LinkRow
}.

Definition empty_db : Database :=
  {| ladon_policy := []; subject_rows := []; permission_rows := [];
     resource_rows := [] |}.

Definition links (d : Database) (t : LinkTable) : list LinkRow :=
  match t with
  | ladon_policy_subject => subject_rows d
  | ladon_policy_permission => permission_rows d
  | ladon_policy_resource => resource_rows d
  end.

Definition set_links (d : Database) (t : LinkTable) (rows : list LinkRow)
  : Database :=
  match t with
  | ladon_policy_subject =>
      {| ladon_policy := ladon_policy d; subject_rows := rows;
         permission_rows := permission_rows d;
         resource_rows := resource_rows d |}
  | ladon_policy_permission =>
      {| ladon_policy := ladon_policy d; subject_rows := subject_rows d;
         permission_rows := rows; resource_rows := resource_rows d |}
  | ladon_policy_resource =>
      {| ladon_policy := ladon_policy d; subject_rows := subject_rows d;
         permission_rows := permission_rows d; resource_rows := rows |}
  end.

Definition has_policy (d : Database) (id : string) : bool :=
  existsb (fun r => row_id r =? id) (ladon_policy d).

Definition same_link (a b : LinkRow) : bool :=
  (link_template a =? link_template b) && (link_policy a =? link_policy b).

(** CHECK (effect='allow' OR effect='deny') *)
Definition effect_ok (e : string) : bool := (e =? "allow") || (e =? "deny").

(** The statements the store executes. *)
Inductive Stmt : Type :=
| InsertPolicy (row : PolicyRow)
| InsertLink (t : LinkTable) (row : LinkRow)
| DeletePolicy (id : string).

(** A statement on the tables, with the constraints of the schema: the
    primary key of [ladon_policy], its CHECK on [effect], the primary key
    [(template, policy)] of a link table, its foreign key, and ON DELETE
    CASCADE. *)
Definition exec_stmt (s : Stmt) (d : Database) : result Database :=
  match s with
  | InsertPolicy row =>
      if has_policy d (row_id row)
      then Err (ErrOther "duplicate key value violates unique constraint")
      else if effect_ok (row_effect row)
      then Ok {| ladon_policy := ladon_policy d ++ [row];
                 subject_rows := subject_rows d;
                 permission_rows := permission_rows d;
                 resource_rows := resource_rows d |}
      else Err (ErrOther "new row violates check constraint")
  | InsertLink t row =>
      if existsb (same_link row) (links d t)
      then Err (ErrOther "duplicate key value violates unique constraint")
      else if has_policy d (link_policy row)
      then Ok (set_links d t (links d t ++ [row]))
      else Err (ErrOther "violates foreign key constraint")
  | DeletePolicy id =>
      let keep := filter (fun l => negb (link_policy l =? id)) in
      Ok {| ladon_policy := filter (fun r => negb (row_id r =? id)) (ladon_policy d);
            subject_rows := keep (subject_rows d);
            permission_rows := keep (permission_rows d);
            resource_rows := keep (resource_rows d) |}
  end.

(** The queries that return one text column. *)
Inductive Query : Type :=
| SelectLinked (t : LinkTable) (policy : string)
| SelectSubjectMatch (subject : string)
| SelectGlobals.

(** p LEFT JOIN ps ON p.id = ps.policy: every pair that joins, and a policy
    row that joins with nothing once, with NULL for the right side. *)
Definition left_join (ps : list PolicyRow) (ls : list LinkRow)
  : list (PolicyRow * option LinkRow) :=
  flat_map (fun p =>
              match filter (fun l => row_id p =? link_policy l) ls with
              | [] => [(p, None)]
              | js => map (fun l => (p, Some l)) js
              end) ps.

Definition is_null {A : Type} (o : option A) : bool :=
  match o with None => true | Some _ => false end.

(** ** Policies *)

(** Modelled from the spec: the PolicyRecord a caller hands to [Create], seen
    through the getters of the [Policy] interface (package [policy] is not
    among the sources), over the type of its condition descriptors.  A nil
    conditions slice is [None]. *)
Record PolicyOver (Cond : Type) : Type := {
  GetID : string;
  GetDescription : string;
  GetSubjects : list string;
  GetEffect : string;
  GetResources : list string;
  GetPermissions : list string;
  GetConditions : option (list Cond);
  GetStartDelimiter : ascii;
  GetEndDelimiter : ascii
}.
Arguments GetID {Cond} _.
Arguments GetDescription {Cond} _.
Arguments GetSubjects {Cond} _.
Arguments GetEffect {Cond} _.
Arguments GetResources {Cond} _.
Arguments GetPermissions {Cond} _.
Arguments GetConditions {Cond} _.
Arguments GetStartDelimiter {Cond} _.
Arguments GetEndDelimiter {Cond} _.

(** Modelled from the spec: the PolicyRecord [Get] builds ([DefaultPolicy],
    whose declaration is not among the sources). *)
Record DefaultPolicyOver (Cond : Type) : Type := {
  ID : string;
  Description : string;
  Subjects : list string;
  Effect : string;
  Resources : list string;
  Permissions : list string;
  Conditions : list Cond
}.
Arguments ID {Cond} _.
Arguments Description {Cond} _.
Arguments Subjects {Cond} _.
Arguments Effect {Cond} _.
Arguments Resources {Cond} _.
Arguments Permissions {Cond} _.
Arguments Conditions {Cond} _.

(** ** The schema *)

(** The statements of [CreateSchemas], in the order they are sent. *)
Definition schemas : list string :=
  ["CREATE TABLE IF NOT EXISTS ladon_policy (
		id           uuid NOT NULL PRIMARY KEY,
		description  text DEFAULT '',
		created_at   timestamp DEFAULT NOW(),
		previous	 uuid NULL REFERENCES ladon_policy (id) ON DELETE CASCADE,
		effect       text NOT NULL CHECK (effect='allow' OR effect='deny'),
		conditions 	 json DEFAULT '[]'
	)";
   "CREATE TABLE IF NOT EXISTS ladon_policy_subject (
    	compiled text NOT NULL,
    	template text NOT NULL,
    	policy uuid NOT NULL REFERENCES ladon_policy (id) ON DELETE CASCADE,
    	PRIMARY KEY (template, policy)
	)";
   "CREATE TABLE IF NOT EXISTS ladon_policy_permission (
    	compiled text NOT NULL,
    	template text NOT NULL,
    	policy uuid NOT NULL REFERENCES ladon_policy (id) ON DELETE CASCADE,
    	PRIMARY KEY (template, policy)
	)";
   "CREATE TABLE IF NOT EXISTS ladon_policy_resource (
    	compiled text NOT NULL,
    	template text NOT NULL,
    	policy uuid NOT NULL REFERENCES ladon_policy (id) ON DELETE CASCADE,
    	PRIMARY KEY (template, policy)
	)"].

(** A blank: space, tab or line feed. *)
Definition is_blank (c : ascii) : bool :=
  match nat_of_ascii c with
  | 32 | 9 | 10 => true
  | _ => false
  end.

(** The word [s] starts with: its characters up to the first blank. *)
Fixpoint word (s : string) : string :=
  match s with
  | EmptyString => EmptyString
  | String c rest => if is_blank c then EmptyString else String c (word rest)
  end.

(** The words that follow the occurrences of [key] in [s]. *)
Fixpoint words_after (key s : string) : list string :=
  (if String.prefix key s
   then [word (substring (String.length key) (String.length s) s)]
   else [])
  ++ match s with
     | EmptyString => []
     | String _ rest => words_after key rest
     end.

(** The table a CREATE TABLE IF NOT EXISTS statement names. *)
Definition table_of (query : string) : string :=
  hd "" (words_after "CREATE TABLE IF NOT EXISTS " query).

(** The tables its REFERENCES clauses name. *)
Definition references_of (query : string) : list string :=
  words_after "REFERENCES " query.

(** The name [Create] and [Get] give [createLink] and [getLinked] for a link
    table. *)
Definition table_name (t : LinkTable) : string :=
  match t with
  | ladon_policy_subject => "ladon_policy_subject"
  | ladon_policy_permission => "ladon_policy_permission"
  | ladon_policy_resource => "ladon_policy_resource"
  end.

(** The database as [CreateSchemas] meets it: the tables that exist, what
    the backend will answer to the coming statements ([Some e]: the statement
    fails with [e]; the list exhausted: no failure), the statements received,
    and the messages of [log.Printf]. *)
Record Catalog : Type := {
  relations : list string;
  answers : list (option error);
  received : list string;
  printed : list string
}.

Definition exists_table (c : Catalog) (name : string) : bool :=
  existsb (String.eqb name) (relations c).

(** db.Exec of a CREATE TABLE IF NOT EXISTS statement: nothing to do when
    the table exists; else the tables it references must exist (a table may
    reference itself). *)
Definition ddl_Exec (query : string) (c : Catalog) : result unit * Catalog :=
  let answered (tables : list string) :=
    {| relations := tables; answers := tl (answers c);
       received := received c ++ [query]; printed := printed c |} in
  match hd None (answers c) with
  | Some e => (Err e, answered (relations c))
  | None =>
      if exists_table c (table_of query)
      then (Ok tt, answered (relations c))
      else if forallb (fun r => (r =? table_of query) || exists_table c r)
                      (references_of query)
      then (Ok tt, answered (relations c ++ [table_of query]))
      else (Err (ErrOther "relation does not exist"), answered (relations c))
  end.

(** log.Printf(message) *)
Definition log_Printf (message : string) (c : Catalog) : Catalog :=
  {| relations := relations c; answers := answers c; received := received c;
     printed := printed c ++ [message] |}.

(** The loop [for _, query := range schemas] of [CreateSchemas]. *)
Fixpoint create_each (queries : list string) (c : Catalog)
  : result unit * Catalog :=
  match queries with
  | [] => (Ok tt, c)
  | query :: rest =>
      match ddl_Exec query c with
      | (Err err, c') =>
          (Err err, log_Printf ("Error creating schema " ++ query) c')
      | (Ok _, c') => create_each rest c'
      end
  end.

Definition CreateSchemas (c : Catalog) : result unit * Catalog :=
  create_each schemas c.

(** ** The store *)

Section Store.
Context {C : Collaborators}.

(** The rows a query returns, here in table order.  No query of the store
    has an ORDER BY: the database is free to give the rows in another order,
    and what is stated of the lists read from the tables is meant up to that
    order. *)
Definition eval_query (q : Query) (d : Database) : list string :=
  match q with
  | SelectLinked t policy =>
      (* SELECT template FROM <t> WHERE policy=$1 *)
      map link_template (filter (fun l => link_policy l =? policy) (links d t))
  | SelectSubjectMatch subject =>
      (* SELECT policy FROM ladon_policy_subject
         WHERE $1 ~* ('^' || compiled || '$') *)
      map link_policy
          (filter (fun l => regex_match_ci ("^" ++ link_compiled l ++ "$") subject)
                  (subject_rows d))
  | SelectGlobals =>
      (* SELECT id FROM ladon_policy p LEFT JOIN ladon_policy_subject ps
         ON p.id = ps.policy WHERE ps.policy IS NULL *)
      map (fun j => row_id (fst j))
          (filter (fun j => is_null (snd j))
                  (left_join (ladon_policy d) (subject_rows d)))
  end.

(** The policies of the store: those over the conditions of the codec. *)
Definition Policy : Type := PolicyOver Condition.

Definition DefaultPolicy : Type := DefaultPolicyOver Condition.

(** *** The database handle *)

Inductive Op : Type :=
| OpBegin | OpExec | OpCommit | OpRollback | OpQueryRow | OpQuery.

(** A transaction handle: [tx_done] once Commit or Rollback was called on
    it, and the tables as the transaction sees them. *)
Record Tx : Type := {
  tx_done : bool;
  tx_data : Database
}.

(** The world a call runs in: the committed tables, what the backend will
    answer to the coming calls ([Some e]: the call fails with [e]; the list
    exhausted: no failure), how the iteration over the rows of the coming
    queries will go ([Some (k, e)]: after [k] rows [rows.Next] returns false
    and [rows.Err] is [e]; [None], or the list exhausted: all the rows are
    delivered), and the calls made so far with their outcome. *)
Record World : Type := {
  store : Database;
  faults : list (option error);
  breaks : list (option (nat * error));
  calls : list (Op * option error)
}.

(** The tables [d] behind a backend that answers every call without
    failure and delivers every row. *)
Definition healthy (d : Database) : World :=
  {| store := d; faults := []; breaks := []; calls := [] |}.

Definition M (A : Type) : Type := World -> outcome A * World.

Definition ret {A : Type} (a : A) : M A := fun w => (Ret a, w).

Definition bind {A B : Type} (m : M A) (k : A -> M B) : M B :=
  fun w => match m w with
           | (Ret a, w') => k a w'
           | (Panic, w') => (Panic, w')
           end.

Definition panic {A : Type} : M A := fun w => (Panic, w).

Notation "x <- m ;; k" := (bind m (fun x => k))
  (at level 61, m at next level, right associativity).
Notation "' pat <- m ;; k" := (bind m (fun x => match x with pat => k end))
  (at level 61, pat pattern, m at next level, right associativity).

Definition next_fault : M (option error) :=
  fun w => match faults w with
           | [] => (Ret None, w)
           | f :: fs => (Ret f, {| store := store w; faults := fs;
                                   breaks := breaks w; calls := calls w |})
           end.

Definition next_break : M (option (nat * error)) :=
  fun w => match breaks w with
           | [] => (Ret None, w)
           | b :: bs => (Ret b, {| store := store w; faults := faults w;
                                   breaks := bs; calls := calls w |})
           end.

Definition log (op : Op) (e : option error) : M unit :=
  fun w => (Ret tt, {| store := store w; faults := faults w;
                       breaks := breaks w; calls := calls w ++ [(op, e)] |}).

Definition get_store : M Database := fun w => (Ret (store w), w).

Definition put_store (d : Database) : M unit :=
  fun w => (Ret tt, {| store := d; faults := faults w; breaks := breaks w;
                       calls := calls w |}).

Definition err_of {A : Type} (r : result A) : option error :=
  match r with Ok _ => None | Err e => Some e end.

(** db.Begin() *)
Definition db_Begin : M (result Tx) :=
  f <- next_fault ;;
  _ <- log OpBegin f ;;
  match f with
  | Some e => ret (Err e)
  | None => d <- get_store ;; ret (Ok {| tx_done := false; tx_data := d |})
  end.

(** tx.Exec(stmt): refused on a finished transaction, else run on the
    transaction's tables. *)
Definition tx_Exec (tx : Tx) (s : Stmt) : M (result unit * Tx) :=
  if tx_done tx
  then _ <- log OpExec (Some sql_ErrTxDone) ;; ret (Err sql_ErrTxDone, tx)
  else
    f <- next_fault ;;
    match f with
    | Some e => _ <- log OpExec (Some e) ;; ret (Err e, tx)
    | None =>
        match exec_stmt s (tx_data tx) with
        | Err e => _ <- log OpExec (Some e) ;; ret (Err e, tx)
        | Ok d => _ <- log OpExec None ;;
                  ret (Ok tt, {| tx_done := false; tx_data := d |})
        end
    end.

(** tx.Commit(): the handle is finished whatever the outcome; the
    transaction's tables become the committed ones only on success. *)
Definition tx_Commit (tx : Tx) : M (result unit * Tx) :=
  if tx_done tx
  then _ <- log OpCommit (Some sql_ErrTxDone) ;; ret (Err sql_ErrTxDone, tx)
  else
    f <- next_fault ;;
    _ <- log OpCommit f ;;
    let tx' := {| tx_done := true; tx_data := tx_data tx |} in
    match f with
    | Some e => ret (Err e, tx')
    | None => _ <- put_store (tx_data tx) ;; ret (Ok tt, tx')
    end.

(** tx.Rollback(): the handle is finished whatever the outcome; nothing of
    the transaction is ever committed. *)
Definition tx_Rollback (tx : Tx) : M (result unit * Tx) :=
  if tx_done tx
  then _ <- log OpRollback (Some sql_ErrTxDone) ;; ret (Err sql_ErrTxDone, tx)
  else
    f <- next_fault ;;
    _ <- log OpRollback f ;;
    let tx' := {| tx_done := true; tx_data := tx_data tx |} in
    match f with
    | Some e => ret (Err e, tx')
    | None => ret (Ok tt, tx')
    end.

(** db.Exec(stmt), outside a transaction: committed at once. *)
Definition db_Exec (s : Stmt) : M (result unit) :=
  f <- next_fault ;;
  match f with
  | Some e => _ <- log OpExec (Some e) ;; ret (Err e)
  | None =>
      d <- get_store ;;
      match exec_stmt s d with
      | Err e => _ <- log OpExec (Some e) ;; ret (Err e)
      | Ok d' => _ <- log OpExec None ;; _ <- put_store d' ;; ret (Ok tt)
      end
  end.

(** db.QueryRow("SELECT id, description, effect, conditions FROM
    ladon_policy WHERE id=$1", id).Scan(...): the first row, or
    [sql.ErrNoRows]. *)
Definition db_QueryRow (id : string) : M (result PolicyRow) :=
  f <- next_fault ;;
  d <- get_store ;;
  let r := match f with
           | Some e => Err e
           | None => match find (fun r => row_id r =? id) (ladon_policy d) with
                     | Some row => Ok row
                     | None => Err sql_ErrNoRows
                     end
           end in
  _ <- log OpQueryRow (err_of r) ;; ret r.

(** What a loop [for rows.Next()] gets of the rows of a query: all of them,
    or those before the iteration breaks off. *)
Definition delivered (b : option (nat * error)) (rows : list string)
  : list string :=
  match b with
  | None => rows
  | Some (k, _) => firstn k rows
  end.

(** The [*sql.Rows] of a query, as a loop over it meets them: the rows that
    [rows.Next] and [rows.Scan] give before [rows.Next] returns false
    (scanning a text column into a string does not fail), and [rows.Err]
    after that. *)
Record Rows : Type := {
  rows_scanned : list string;
  rows_Err : option error
}.

(** db.Query(q): the error of the query, or its rows. *)
Definition db_Query (q : Query) : M (result Rows) :=
  f <- next_fault ;;
  _ <- log OpQuery f ;;
  match f with
  | Some e => ret (Err e)
  | None =>
      d <- get_store ;;
      b <- next_break ;;
      ret (Ok {| rows_scanned := delivered b (eval_query q d);
                 rows_Err := option_map snd b |})
  end.

(** *** postgres.go *)

(** [createLink]: the error of [CompileRegex] is assigned and never read;
    when compilation failed [reg] is nil and [reg.String()] dereferences it
    while the arguments of [tx.Exec] are evaluated. *)
Fixpoint createLink (tx : Tx) (table : LinkTable) (p : Policy)
         (templates : list string) : M (result unit * Tx) :=
  match templates with
  | [] => ret (Ok tt, tx)
  | template :: rest =>
      match compiler_CompileRegex template (GetStartDelimiter p)
                                  (GetEndDelimiter p) with
      | inl _ => panic
      | inr reg =>
          ' (r, tx) <- tx_Exec tx (InsertLink table
                         {| link_compiled := reg; link_template := template;
                            link_policy := GetID p |}) ;;
          match r with
          | Err err =>
              ' (rb, tx) <- tx_Rollback tx ;;
              match rb with
              | Err rb => ret (Err rb, tx)
              | Ok _ => ret (Err err, tx)
              end
          | Ok _ => createLink tx table p rest
          end
      end
  end.

Definition Create (policy : Policy) : M (result unit) :=
  match match GetConditions policy with
        | None => inr "[]"
        | Some cs => json_Marshal cs
        end with
  | inl err => ret (Err err)
  | inr conditions =>
      r <- db_Begin ;;
      match r with
      | Err err => ret (Err err)
      | Ok tx =>
          ' (r, tx) <- tx_Exec tx (InsertPolicy
                         {| row_id := GetID policy;
                            row_description := GetDescription policy;
                            row_effect := GetEffect policy;
                            row_conditions := conditions |}) ;;
          match r with
          | Err err => ret (Err err)
          | Ok _ =>
          ' (r, tx) <- createLink tx ladon_policy_subject policy
                                  (GetSubjects policy) ;;
          match r with
          | Err err => ret (Err err)
          | Ok _ =>
          ' (r, tx) <- createLink tx ladon_policy_permission policy
                                  (GetPermissions policy) ;;
          match r with
          | Err err => ret (Err err)
          | Ok _ =>
          ' (r, tx) <- createLink tx ladon_policy_resource policy
                                  (GetResources policy) ;;
          match r with
          | Err err => ret (Err err)
          | Ok _ =>
          ' (r, tx) <- tx_Commit tx ;;
          match r with
          | Err err =>
              ' (rb, tx) <- tx_Rollback tx ;;
              match rb with
              | Err err' => ret (Err err')
              | Ok _ => ret (Err err)
              end
          | Ok _ => ret (Ok tt)
          end end end end end
      end
  end.

Definition getLinked (table : LinkTable) (policy : string)
  : M (result (list string)) :=
  r <- db_Query (SelectLinked table policy) ;;
  match r with
  | Err sql_ErrNoRows => ret (Err pkg_ErrNotFound)
  | Err err => ret (Err (errors_New err))
  | Ok rows =>
      (* the loop ends when rows.Next() returns false; rows.Err() is not
         read *)
      ret (Ok (rows_scanned rows))
  end.

Definition Get (id : string) : M (result DefaultPolicy) :=
  r <- db_QueryRow id ;;
  match r with
  | Err sql_ErrNoRows => ret (Err pkg_ErrNotFound)
  | Err err => ret (Err (errors_New err))
  | Ok row =>
      match json_Unmarshal (row_conditions row) with
      | inl err => ret (Err (errors_New err))
      | inr conditions =>
          r <- getLinked ladon_policy_subject id ;;
          match r with
          | Err err => ret (Err err)
          | Ok subjects =>
          r <- getLinked ladon_policy_permission id ;;
          match r with
          | Err err => ret (Err err)
          | Ok permissions =>
          r <- getLinked ladon_policy_resource id ;;
          match r with
          | Err err => ret (Err err)
          | Ok resources =>
              ret (Ok {| ID := row_id row;
                         Description := row_description row;
                         Subjects := subjects;
                         Effect := row_effect row;
                         Resources := resources;
                         Permissions := permissions;
                         Conditions := conditions |})
          end end end
      end
  end.

Definition Delete (id : string) : M (result unit) :=
  db_Exec (DeletePolicy id).

(** The closure [find] of [FindPoliciesForSubject]. *)
Definition find (q : Query) : M (result (list string)) :=
  r <- db_Query q ;;
  match r with
  | Err sql_ErrNoRows => ret (Err pkg_ErrNotFound)
  | Err err => ret (Err (errors_New err))
  | Ok rows =>
      (* as in getLinked: rows.Err() is not read *)
      ret (Ok (rows_scanned rows))
  end.

(** The loop [for _, id := range ids] of [FindPoliciesForSubject]. *)
Fixpoint hydrate (ids : list string) (policies : list DefaultPolicy)
  : M (result (list DefaultPolicy)) :=
  match ids with
  | [] => ret (Ok policies)
  | id :: rest =>
      r <- Get id ;;
      match r with
      | Err err => ret (Err err)
      | Ok p => hydrate rest (policies ++ [p])
      end
  end.

Definition FindPoliciesForSubject (subject : string)
  : M (result (list DefaultPolicy)) :=
  r <- find (SelectSubjectMatch subject) ;;
  match r with
  | Err err => ret (Err err)
  | Ok subjects =>
      r <- find SelectGlobals ;;
      match r with
      | Err err => ret (Err err)
      | Ok globals => hydrate (subjects ++ globals) []
      end
  end.

End Store.

(** ** Vocabulary of the statements *)

Section Vocabulary.
Context {C : Collaborators}.

(** The conditions of the row deserialize. *)
Definition decodes (row : PolicyRow) : bool :=
  match json_Unmarshal (row_conditions row) with
  | inr _ => true
  | inl _ => false
  end.

(** What [Get id] returns when the backend answers without failure. *)
Definition record_of (d : Database) (id : string) : result DefaultPolicy :=
  match List.find (fun r => row_id r =? id) (ladon_policy d) with
  | None => Err pkg_ErrNotFound
  | Some row =>
      match json_Unmarshal (row_conditions row) with
      | inl err => Err (errors_New err)
      | inr conditions =>
          Ok {| ID := row_id row;
                Description := row_description row;
                Subjects := eval_query (SelectLinked ladon_policy_subject id) d;
                Effect := row_effect row;
                Resources := eval_query (SelectLinked ladon_policy_resource id) d;
                Permissions := eval_query (SelectLinked ladon_policy_permission id) d;
                Conditions := conditions |}
      end
  end.

(** The error of a query as [getLinked] and [find] return it. *)
Definition surfaced (e : error) : error :=
  match e with
  | sql_ErrNoRows => pkg_ErrNotFound
  | _ => errors_New e
  end.

(** The row of [ladon_policy] with the id. *)
Definition row_of (d : Database) (id : string) : option PolicyRow :=
  List.find (fun r => row_id r =? id) (ladon_policy d).

(** No string twice. *)
Fixpoint distinct (l : list string) : bool :=
  match l with
  | [] => true
  | x :: t => negb (existsb (String.eqb x) t) && distinct t
  end.

(** No [(template, policy)] pair twice. *)
Fixpoint distinct_links (ls : list LinkRow) : bool :=
  match ls with
  | [] => true
  | l :: t => negb (existsb (same_link l) t) && distinct_links t
  end.

(** The constraints of a link table: its primary key and its foreign key. *)
Definition table_ok (d : Database) (t : LinkTable) : bool :=
  distinct_links (links d t)
  && forallb (fun l => has_policy d (link_policy l)) (links d t).

(** The tables as the schema and the store keep them: ids are unique, an
    effect is allow or deny, the conditions deserialize, and the link tables
    satisfy their constraints. *)
Definition store_ok (d : Database) : bool :=
  distinct (map row_id (ladon_policy d))
  && forallb (fun r => effect_ok (row_effect r) && decodes r) (ladon_policy d)
  && table_ok d ladon_policy_subject
  && table_ok d ladon_policy_permission
  && table_ok d ladon_policy_resource.

(** What the loop of [FindPoliciesForSubject] returns when the backend
    answers without failure. *)
Fixpoint records (d : Database) (ids : list string) (acc : list DefaultPolicy)
  : result (list DefaultPolicy) :=
  match ids with
  | [] => Ok acc
  | id :: rest =>
      match record_of d id with
      | Err e => Err e
      | Ok p => records d rest (acc ++ [p])
      end
  end.

(** The ids of the first query of [FindPoliciesForSubject]. *)
Definition subject_ids (d : Database) (s : string) : list string :=
  eval_query (SelectSubjectMatch s) d.

(** The ids of its second query. *)
Definition global_ids (d : Database) : list string :=
  eval_query SelectGlobals d.

(** The policies that the second query returns: those no subject row
    refers to. *)
Definition unrestricted (d : Database) (p : PolicyRow) : bool :=
  forallb (fun l => negb (row_id p =? link_policy l)) (subject_rows d).

(** The templates of a record in the dimension of a link table. *)
Definition templates_of (p : DefaultPolicy) (t : LinkTable) : list string :=
  match t with
  | ladon_policy_subject => Subjects p
  | ladon_policy_permission => Permissions p
  | ladon_policy_resource => Resources p
  end.

(** The subject rows of policy [id] whose anchored pattern matches [s]. *)
Definition matching (d : Database) (s id : string) : list LinkRow :=
  filter (fun l => (link_policy l =? id)
                   && regex_match_ci ("^" ++ link_compiled l ++ "$") s)
         (subject_rows d).

(** Some row of [ladon_policy] has the id and no subject row refers to it. *)
Definition is_global (d : Database) (id : string) : bool :=
  existsb (fun p => (row_id p =? id) && unrestricted d p) (ladon_policy d).

(** A lower-case hexadecimal digit. *)
Definition is_hex (c : ascii) : bool :=
  let n := nat_of_ascii c in
  (((48 <=? n) && (n <=? 57)) || ((97 <=? n) && (n <=? 102)))%nat.

(** From place [i] on, [s] is the rest of 32 lower-case hexadecimal digits
    in groups of 8, 4, 4, 4 and 12, with a hyphen between the groups. *)
Fixpoint uuid_from (i : nat) (s : list ascii) : bool :=
  match s with
  | [] => Nat.eqb i 36
  | c :: t =>
      (if existsb (Nat.eqb i) [8; 13; 18; 23] then (c =? "-")%char
       else is_hex c)
      && uuid_from (S i) t
  end.

(** The text of a uuid as the columns [id] and [policy] of the schema give
    it back.  An id of this form is stored and read as it is written; the
    tables hold ids as text, so it is for such ids that a row stands for what
    the column holds. *)
Definition canonical_uuid (id : string) : bool :=
  uuid_from 0 (list_ascii_of_string id).

(** The same record, the order of the templates in a dimension apart (no
    query of the store asks for an order). *)
Definition same_record (p q : DefaultPolicy) : Prop :=
  ID p = ID q
  /\ Description p = Description q
  /\ Effect p = Effect q
  /\ Conditions p = Conditions q
  /\ forall t, Permutation (templates_of p t) (templates_of q t).

(** The place of a dimension among the fetches of [Get]: subjects,
    permissions, resources. *)
Definition fetch_index (t : LinkTable) : nat :=
  match t with
  | ladon_policy_subject => 0
  | ladon_policy_permission => 1
  | ladon_policy_resource => 2
  end.

(** No call of Rollback among the calls. *)
Definition no_rollback (cs : list (Op * option error)) : Prop :=
  forall x, ~ In (OpRollback, x) cs.

(** The row [createLink] inserts for a template. *)
Definition link_of (p : Policy) (template : string) (l : LinkRow) : Prop :=
  link_template l = template
  /\ link_policy l = GetID p
  /\ compiler_CompileRegex template (GetStartDelimiter p) (GetEndDelimiter p)
     = inr (link_compiled l).

(** The serialized conditions [Create] inserts. *)
Definition conditions_blob (policy : Policy) : error + string :=
  match GetConditions policy with
  | None => inr "[]"
  | Some cs => json_Marshal cs
  end.

(** The row [Create] inserts into [ladon_policy]. *)
Definition policy_row (policy : Policy) (conditions : string) : PolicyRow :=
  {| row_id := GetID policy;
     row_description := GetDescription policy;
     row_effect := GetEffect policy;
     row_conditions := conditions |}.

(** The templates of a policy in the dimension of a link table. *)
Definition dimension (policy : Policy) (t : LinkTable) : list string :=
  match t with
  | ladon_policy_subject => GetSubjects policy
  | ladon_policy_permission => GetPermissions policy
  | ladon_policy_resource => GetResources policy
  end.

(** What the round trip asks of a policy: an effect the schema admits, no
    template twice in a dimension, templates that compile, and conditions
    that the codec writes and reads back. *)
Definition valid (policy : Policy) : Prop :=
  effect_ok (GetEffect policy) = true
  /\ (forall t, NoDup (dimension policy t))
  /\ (forall t template,
        In template (dimension policy t) ->
        exists reg,
          compiler_CompileRegex template (GetStartDelimiter policy)
                                (GetEndDelimiter policy) = inr reg)
  /\ match GetConditions policy with
     | None => json_Unmarshal "[]" = inr []
     | Some cs => exists blob, json_Marshal cs = inr blob
                               /\ json_Unmarshal blob = inr cs
     end.

(** The conditions of a policy, a nil slice being the empty list. *)
Definition conditions_of (policy : Policy) : list Condition :=
  match GetConditions policy with
  | None => []
  | Some cs => cs
  end.

(** The tables once the policy [id] and its link rows are gone. *)
Definition without (d : Database) (id : string) : Database :=
  {| ladon_policy := filter (fun r => negb (row_id r =? id)) (ladon_policy d);
     subject_rows := filter (fun l => negb (link_policy l =? id)) (subject_rows d);
     permission_rows :=
       filter (fun l => negb (link_policy l =? id)) (permission_rows d);
     resource_rows :=
       filter (fun l => negb (link_policy l =? id)) (resource_rows d) |}.

(** No call of Commit among the calls. *)
Definition no_commit (cs : list (Op * option error)) : Prop :=
  forall x, ~ In (OpCommit, x) cs.

(** The tables a sequence of [Create] and [Delete] calls can leave, starting
    from empty tables, whatever the backend answers; the conditions a
    [Create] serializes can be read back. *)
Inductive reachable : Database -> Prop :=
| reachable_empty : reachable empty_db
| reachable_Create (policy : Policy) (w : World) :
    reachable (store w) ->
    (forall blob, conditions_blob policy = inr blob ->
                  exists cs, json_Unmarshal blob = inr cs) ->
    reachable (store (snd (Create policy w)))
| reachable_Delete (id : string) (w : World) :
    reachable (store w) ->
    reachable (store (snd (Delete id w))).

(** The tables of the store. *)
Definition tables : list string :=
  "ladon_policy" :: map table_name
    [ladon_policy_subject; ladon_policy_permission; ladon_policy_resource].

(** The tables of [names] that [c] lacks. *)
Definition missing (c : Catalog) (names : list string) : list string :=
  filter (fun name => negb (exists_table c name)) names.

End Vocabulary.

(** ** Reference collaborators *)

(** A small regular-expression engine: literals, [\c], [.], bracket
    expressions with ranges and negation, groups, [|], [*], [+], [?] and the
    anchors.  It stands for the expressions of the compiler and of the
    database on this common fragment; a text outside the fragment is not an
    expression here. *)
Module Regex.

Inductive re : Type :=
| Eps
| Chr (c : ascii)
| Any
| Cls (neg : bool) (ranges : list (ascii * ascii))
| Bol
| Eol
| Cat (a b : re)
| Alt (a b : re)
| Star (a : re).

Definition is_anchor (r : re) : bool :=
  match r with Bol | Eol => true | _ => false end.

Definition mk_cat (a b : re) : re :=
  match b with Eps => a | _ => Cat a b end.

Definition one_of (c : ascii) (x : string) : bool :=
  existsb (Ascii.eqb c) (list_ascii_of_string x).

(** The postfix operators after an atom. *)
Fixpoint parse_quant (r : re) (s : list ascii) : re * list ascii :=
  match s with
  | c :: t =>
      if one_of c "*" then parse_quant (Star r) t
      else if one_of c "+" then parse_quant (Cat r (Star r)) t
      else if one_of c "?" then parse_quant (Alt r Eps) t
      else (r, s)
  | [] => (r, s)
  end.

Definition item (i : ascii * ascii)
           (rest : option (list (ascii * ascii) * list ascii))
  : option (list (ascii * ascii) * list ascii) :=
  match rest with
  | Some (rs, u) => Some (i :: rs, u)
  | None => None
  end.

(** The items of a bracket expression, up to the closing bracket. *)
Fixpoint parse_items (s : list ascii) : option (list (ascii * ascii) * list ascii) :=
  match s with
  | [] => None
  | c :: t =>
      if one_of c "]" then Some ([], t)
      else if one_of c "\" then
        match t with
        | x :: u => item (x, x) (parse_items u)
        | [] => None
        end
      else
        match t with
        | d :: hi :: u =>
            if one_of d "-" && negb (one_of hi "]")
            then item (c, hi) (parse_items u)
            else item (c, c) (parse_items t)
        | _ => item (c, c) (parse_items t)
        end
  end.

Definition parse_class (s : list ascii) : option (re * list ascii) :=
  match s with
  | c :: t =>
      if one_of c "^"
      then match parse_items t with
           | Some (rs, u) => Some (Cls true rs, u)
           | None => None
           end
      else match parse_items s with
           | Some (rs, u) => Some (Cls false rs, u)
           | None => None
           end
  | [] => None
  end.

Fixpoint parse_alt (fuel : nat) (s : list ascii) : option (re * list ascii) :=
  match fuel with
  | O => None
  | S fuel =>
      match parse_cat fuel s with
      | Some (a, c :: t) =>
          if one_of c "|"
          then match parse_alt fuel t with
               | Some (b, u) => Some (Alt a b, u)
               | None => None
               end
          else Some (a, c :: t)
      | other => other
      end
  end
with parse_cat (fuel : nat) (s : list ascii) : option (re * list ascii) :=
  match fuel with
  | O => None
  | S fuel =>
      match s with
      | [] => Some (Eps, s)
      | c :: _ =>
          if one_of c "|)" then Some (Eps, s)
          else
            match parse_atom fuel s with
            | Some (a, t) =>
                let (a, t) := if is_anchor a then (a, t) else parse_quant a t in
                match parse_cat fuel t with
                | Some (b, u) => Some (mk_cat a b, u)
                | None => None
                end
            | None => None
            end
      end
  end
with parse_atom (fuel : nat) (s : list ascii) : option (re * list ascii) :=
  match fuel with
  | O => None
  | S fuel =>
      match s with
      | c :: t =>
          if one_of c "(" then
            match parse_alt fuel t with
            | Some (r, d :: u) => if one_of d ")" then Some (r, u) else None
            | _ => None
            end
          else if one_of c "[" then parse_class t
          else if one_of c "." then Some (Any, t)
          else if one_of c "^" then Some (Bol, t)
          else if one_of c "$" then Some (Eol, t)
          else if one_of c "\" then
            match t with
            | x :: u => Some (Chr x, u)
            | [] => None
            end
          else if one_of c "*+?{}]" then None
          else Some (Chr c, t)
      | [] => None
      end
  end.

Definition parse (pattern : string) : option re :=
  let s := list_ascii_of_string pattern in
  match parse_alt (3 * List.length s + 3) s with
  | Some (r, []) => Some r
  | _ => None
  end.

(** Matching.  A position is what remains of the subject, and whether
    nothing of the subject lies before it. *)
Definition pos : Type := bool * list ascii.

Definition lower (c : ascii) : ascii :=
  let n := nat_of_ascii c in
  if ((65 <=? n) && (n <=? 90))%nat then ascii_of_nat (n + 32) else c.

Definition upper (c : ascii) : ascii :=
  let n := nat_of_ascii c in
  if ((97 <=? n) && (n <=? 122))%nat then ascii_of_nat (n - 32) else c.

Definition same_char (ci : bool) (c x : ascii) : bool :=
  if ci then (lower c =? lower x)%char else (c =? x)%char.

Definition in_range (x : ascii) (r : ascii * ascii) : bool :=
  ((nat_of_ascii (fst r) <=? nat_of_ascii x)
   && (nat_of_ascii x <=? nat_of_ascii (snd r)))%nat.

Definition in_ranges (ci : bool) (rs : list (ascii * ascii)) (x : ascii) : bool :=
  existsb (in_range x) rs
  || (ci && (existsb (in_range (lower x)) rs || existsb (in_range (upper x)) rs)).

(** Zero or more rounds of [f], each round consuming something. *)
Fixpoint iter (n : nat) (f : pos -> list pos) (p : pos) : list pos :=
  match n with
  | O => [p]
  | S n' =>
      p :: flat_map (fun q => if (List.length (snd q) <? List.length (snd p))%nat
                              then iter n' f q else [])
                    (f p)
  end.

(** The positions at which a match of [r] that starts at [p] can end. *)
Fixpoint step (ci : bool) (r : re) (p : pos) : list pos :=
  match r with
  | Eps => [p]
  | Chr c =>
      match snd p with
      | x :: t => if same_char ci c x then [(false, t)] else []
      | [] => []
      end
  | Any =>
      match snd p with
      | _ :: t => [(false, t)]
      | [] => []
      end
  | Cls neg rs =>
      match snd p with
      | x :: t => if xorb neg (in_ranges ci rs x) then [(false, t)] else []
      | [] => []
      end
  | Bol => if fst p then [p] else []
  | Eol => match snd p with [] => [p] | _ :: _ => [] end
  | Cat a b => flat_map (step ci b) (step ci a p)
  | Alt a b => step ci a p ++ step ci b p
  | Star a => iter (List.length (snd p)) (step ci a) p
  end.

Fixpoint suffixes (s : list ascii) : list (list ascii) :=
  match s with
  | [] => []
  | _ :: t => t :: suffixes t
  end.

Definition nonempty {A : Type} (l : list A) : bool :=
  match l with [] => false | _ :: _ => true end.

(** [r] matches somewhere in [s]. *)
Definition search (ci : bool) (r : re) (s : list ascii) : bool :=
  existsb (fun p => nonempty (step ci r p))
          ((true, s) :: map (pair false) (suffixes s)).

(** subject ~* pattern *)
Definition match_ci (pattern subject : string) : bool :=
  match parse pattern with
  | Some r => search true r (list_ascii_of_string subject)
  | None => false
  end.







End Regex.

(** Modelled from the spec: TemplateMatcher.compile (package [compiler] is
    not among the sources).  The template is scanned left to right; text
    outside a start...end pair is escaped, the text of a pair is inserted as
    it is, as a group; the pattern is anchored at both ends; unbalanced
    delimiters and a fragment that is not an expression are errors. *)
Module Compiler.

Definition QuoteMeta (s : list ascii) : list ascii :=
  flat_map (fun c => if Regex.one_of c "\.+*?()|[]{}^$"
                     then ["\"%char; c] else [c]) s.

(** The runs of the template: [(true, text)] for the text of a delimited
    pair, [(false, text)] for literal text.  [level] counts the open start
    delimiters, [acc] holds the current run, reversed. *)
Fixpoint segments (start stop : ascii) (level : nat) (acc s : list ascii)
  : option (list (bool * list ascii)) :=
  match s with
  | [] => match level with
          | O => Some [(false, rev acc)]
          | S _ => None
          end
  | c :: t =>
      if (c =? start)%char then
        match level with
        | O => option_map (cons (false, rev acc)) (segments start stop 1 [] t)
        | S _ => segments start stop (S level) (c :: acc) t
        end
      else if (c =? stop)%char then
        match level with
        | O => None
        | 1 => option_map (cons (true, rev acc)) (segments start stop 0 [] t)
        | S l => segments start stop l (c :: acc) t
        end
      else segments start stop level (c :: acc) t
  end.

Definition is_regex (s : list ascii) : bool :=
  match Regex.parse (string_of_list_ascii s) with
  | Some _ => true
  | None => false
  end.

Definition render (seg : bool * list ascii) : list ascii :=
  if fst seg then "("%char :: snd seg ++ [")"%char] else QuoteMeta (snd seg).

(** Modelled from the spec: compile(template, start, end), the pattern or
    the CompileError. *)
Definition CompileRegex (tpl : string) (start stop : ascii) : error + string :=
  match segments start stop 0 [] (list_ascii_of_string tpl) with
  | None => inl (ErrOther "unbalanced braces")
  | Some segs =>
      let pattern := "^"%char :: List.concat (map render segs) ++ ["$"%char] in
      if forallb (fun seg => negb (fst seg)
                             || is_regex ("^"%char :: snd seg ++ ["$"%char])) segs
         && is_regex pattern
      then inr (string_of_list_ascii pattern)
      else inl (ErrOther "error parsing regexp")
  end.

End Compiler.

(** A small JSON codec for the conditions: a condition is the name of its
    operator, and a list of conditions is written as a JSON array of strings.
    A name is written between quotes as it is; a name that holds a quote or
    a backslash is refused. *)
Module Json.

Definition quote : ascii := "034"%char.

Definition plain (name : string) : bool :=
  forallb (fun c => negb ((c =? quote)%char || (c =? "\")%char))
          (list_ascii_of_string name).

Fixpoint join (names : list string) : string :=
  match names with
  | [] => ""
  | [n] => String quote (n ++ String quote "")%string
  | n :: rest => String quote (n ++ String quote ("," ++ join rest))%string
  end.

Definition Marshal (cs : list string) : error + string :=
  if forallb plain cs
  then inr ("[" ++ join cs ++ "]")%string
  else inl (ErrOther "json: unsupported value").

(** The text up to the closing quote, and what follows it. *)
Fixpoint read_name (acc s : list ascii) : option (string * list ascii) :=
  match s with
  | [] => None
  | c :: t =>
      if (c =? quote)%char then Some (string_of_list_ascii (rev acc), t)
      else if (c =? "\")%char then None
      else read_name (c :: acc) t
  end.

(** The names of an array, after its opening bracket or a comma. *)
Fixpoint read_names (fuel : nat) (s : list ascii) : option (list string) :=
  match fuel with
  | O => None
  | S fuel =>
      match s with
      | c :: t =>
          if (c =? quote)%char then
            match read_name [] t with
            | Some (n, d :: u) =>
                if (d =? ",")%char then option_map (cons n) (read_names fuel u)
                else if (d =? "]")%char then
                  match u with [] => Some [n] | _ :: _ => None end
                else None
            | _ => None
            end
          else None
      | [] => None
      end
  end.

Definition Unmarshal (blob : string) : error + list string :=
  if (blob =? "null") || (blob =? "[]") then inr []
  else
    match list_ascii_of_string blob with
    | c :: t =>
        if (c =? "[")%char then
          match read_names (List.length t) t with
          | Some names => inr names
          | None => inl (ErrOther "json: invalid array of strings")
          end
        else inl (ErrOther "json: cannot unmarshal into a slice")
    | [] => inl (ErrOther "unexpected end of JSON input")
    end.

End Json.

Definition reference : Collaborators :=
  {| Condition := string;
     json_Marshal := Json.Marshal;
     json_Unmarshal := Json.Unmarshal;
     compiler_CompileRegex := Compiler.CompileRegex;
     regex_match_ci := Regex.match_ci |}.

(** ** Sample policies, tables and backends *)

Section Samples.
Local Existing Instance reference.





Definition id1 : string := "00000000-0000-0000-0000-000000000001".

Definition id2 : string := "00000000-0000-0000-0000-000000000002".

(** The policy of the example scenario, with the id and the subject
    templates given. *)
Definition sample (id : string) (subjects : list string) : Policy :=
  {| GetID := id;
     GetDescription := "readers";
     GetSubjects := subjects;
     GetEffect := "allow";
     GetResources := ["articles:1"];
     GetPermissions := ["view"];
     GetConditions := Some ["owner"];
     GetStartDelimiter := "<";
     GetEndDelimiter := ">" |}.

(** The tables after [Create policy] on the healthy backend. *)
Definition after (policy : Policy) (d : Database) : Database :=
  store (snd (Create policy (healthy d))).


Definition readers : Policy := sample id1 ["users:<.+>"].

(** Two subject templates that match the same subjects. *)
Definition overlapping : Policy := sample id1 ["users:<.+>"; "<.+>"].

(** A global policy: no subject template. *)
Definition everyone : Policy := sample id2 [].

(** A subject template whose delimiter is not closed. *)
Definition unterminated : Policy := sample id1 ["users:<unterminated"].

(** A policy without any template and with nil conditions. *)
Definition bare : Policy :=
  {| GetID := id2;
     GetDescription := "";
     GetSubjects := [];
     GetEffect := "deny";
     GetResources := [];
     GetPermissions := [];
     GetConditions := None;
     GetStartDelimiter := "<";
     GetEndDelimiter := ">" |}.

(** The record of [readers]. *)
Definition readers_record : DefaultPolicy :=
  {| ID := id1;
     Description := "readers";
     Subjects := ["users:<.+>"];
     Effect := "allow";
     Resources := ["articles:1"];
     Permissions := ["view"];
     Conditions := ["owner"] |}.


(** The backend answers: Begin and four statements pass, the insert into
    [ladon_policy_resource] fails. *)
Definition resource_insert_fails : World :=
  {| store := empty_db;
     faults := [None; None; None; None; Some (ErrOther "connection reset")];
     breaks := [];
     calls := [] |}.

(** The insert into [ladon_policy_subject] fails, and so does the rollback. *)
Definition insert_and_rollback_fail : World :=
  {| store := empty_db;
     faults := [None; None; Some (ErrOther "connection reset");
                Some (ErrOther "rollback failed")];
     breaks := [];
     calls := [] |}.

(** The row of [everyone]. *)
Definition everyone_row : PolicyRow :=
  {| row_id := id2; row_description := "readers"; row_effect := "allow";
     row_conditions := "[" ++ Json.join ["owner"] ++ "]" |}.

(** The row of [bare]. *)
Definition bare_row : PolicyRow :=
  {| row_id := id2; row_description := ""; row_effect := "deny";
     row_conditions := "[]" |}.

(** A row whose conditions are not an array. *)
Definition unreadable : Database :=
  {| ladon_policy :=
       [{| row_id := id1; row_description := ""; row_effect := "allow";
           row_conditions := "{}" |}];
     subject_rows := []; permission_rows := []; resource_rows := [] |}.


(** Three subject templates. *)
Definition three_subjects : Policy :=
  sample id1 ["users:<.+>"; "groups:<.+>"; "<[0-9]+>"].

(** Every call passes; the iteration over the subject rows breaks off after
    the first row. *)
Definition subject_rows_break_off : World :=
  {| store := after three_subjects empty_db;
     faults := [];
     breaks := [Some (1, ErrOther "connection reset")];
     calls := [] |}.

(** The row is read, the subjects are fetched, the fetch of the permissions
    fails. *)
Definition permission_fetch_fails : World :=
  {| store := after readers empty_db;
     faults := [None; None; Some (ErrOther "connection reset")];
     breaks := [];
     calls := [] |}.

(** The record of [everyone]. *)
Definition everyone_record : DefaultPolicy :=
  {| ID := id2;
     Description := "readers";
     Subjects := [];
     Effect := "allow";
     Resources := ["articles:1"];
     Permissions := ["view"];
     Conditions := ["owner"] |}.

(** The same subject template twice. *)
Definition repeated : Policy := sample id1 ["users:<.+>"; "users:<.+>"].

(** The policy of [readers] and the global policy. *)
Definition two_policies : Database := after everyone (after readers empty_db).

(** Begin passes, the insert into [ladon_policy] fails. *)
Definition policy_insert_fails : World :=
  {| store := empty_db;
     faults := [None; Some (ErrOther "connection reset")];
     breaks := [];
     calls := [] |}.

(** Begin and the four inserts of [readers] pass, Commit fails. *)
Definition commit_fails : World :=
  {| store := empty_db;
     faults := [None; None; None; None; None; Some (ErrOther "connection reset")];
     breaks := [];
     calls := [] |}.

(** The query of the subject rows passes, the query of the global policies
    fails. *)
Definition second_query_fails : World :=
  {| store := two_policies;
     faults := [None; Some (ErrOther "connection reset")];
     breaks := [];
     calls := [] |}.

(** A database without any table, that answers without failure. *)
Definition no_table : Catalog :=
  {| relations := []; answers := []; received := []; printed := [] |}.

(** Another table exists; the first two statements pass, the third fails. *)
Definition third_statement_fails : Catalog :=
  {| relations := ["users"];
     answers := [None; None; Some (ErrOther "connection reset")];
     received := [];
     printed := [] |}.

End Samples.

(** ** Properties of the store *)

Section Properties.
Context {C : Collaborators}.

Ltac run :=
  unfold bind, ret, panic, next_fault, next_break, log, get_store, put_store
    in *;
  simpl in *.

Lemma Get_healthy (d : Database) (id : string) cs :
  exists cs',
    Get id {| store := d; faults := []; breaks := []; calls := cs |}
    = (Ret (record_of d id),
       {| store := d; faults := []; breaks := []; calls := cs' |}).
Proof.
  unfold Get, record_of, db_QueryRow, getLinked, db_Query. run.
  destruct (List.find _ _) as [row|]; simpl.
  - destruct (json_Unmarshal _); simpl; eexists; reflexivity.
  - eexists; reflexivity.
Qed.

Lemma row_of_Some d id row :
  row_of d id = Some row -> In row (ladon_policy d) /\ row_id row = id.
Proof.
  unfold row_of. intros H. apply find_some in H. destruct H as [H1 H2].
  apply String.eqb_eq in H2. auto.
Qed.

Lemma row_of_None d id :
  row_of d id = None <-> (forall row, In row (ladon_policy d) -> row_id row <> id).
Proof.
  unfold row_of. split.
  - intros H row Hin Heq.
    pose proof (find_none _ _ H row Hin) as Hn. simpl in Hn.
    apply String.eqb_neq in Hn. contradiction.
  - intros H. destruct (List.find _ _) as [row|] eqn:E; [|reflexivity].
    apply find_some in E. destruct E as [Hin Heq].
    apply String.eqb_eq in Heq. exfalso. exact (H row Hin Heq).
Qed.

Lemma Get_absent w id :
  nth 0 (faults w) None = None ->
  row_of (store w) id = None ->
  fst (Get id w) = Ret (Err pkg_ErrNotFound).
Proof.
  destruct w as [d fl bs cs]. simpl. intros H0 Hrow.
  unfold Get, db_QueryRow, row_of in *. run.
  destruct fl as [|f0 fl]; simpl in *; subst; simpl; rewrite Hrow; reflexivity.
Qed.

Lemma Get_unmarshal_failure w id row e :
  nth 0 (faults w) None = None ->
  row_of (store w) id = Some row ->
  json_Unmarshal (row_conditions row) = inl e ->
  fst (Get id w) = Ret (Err (errors_New e)).
Proof.
  destruct w as [d fl bs cs]. simpl. intros H0 Hrow He.
  unfold Get, db_QueryRow, row_of in *. run.
  destruct fl as [|f0 fl]; simpl in *; subst; simpl; rewrite Hrow; simpl;
    rewrite He; reflexivity.
Qed.

Lemma Get_fetch_failure w id row cs e k :
  1 <= k <= 3 ->
  (forall j, j < k -> nth j (faults w) None = None) ->
  nth k (faults w) None = Some e ->
  row_of (store w) id = Some row ->
  json_Unmarshal (row_conditions row) = inr cs ->
  fst (Get id w) = Ret (Err (surfaced e)).
Proof.
  destruct w as [d fl bs cs0]. simpl. intros Hk Hj Hn Hrow Hc.
  assert (H0 : nth 0 fl None = None) by (apply Hj; lia).
  unfold Get, db_QueryRow, getLinked, db_Query, row_of in *. run.
  destruct fl as [|f0 fl]; [destruct k; discriminate|].
  simpl in H0. subst f0. simpl. rewrite Hrow. simpl. rewrite Hc.
  destruct k as [|[|[|[|k]]]]; try lia; simpl in Hn.
  - destruct fl as [|f1 fl]; [discriminate|]. simpl in Hn. subst f1. simpl.
    destruct e; reflexivity.
  - assert (H1 : nth 1 (None :: fl) None = None) by (apply Hj; lia).
    destruct fl as [|f1 fl]; [discriminate|]. simpl in H1. subst f1.
    destruct fl as [|f2 fl]; [discriminate|]. simpl in Hn. subst f2.
    destruct bs as [|b0 bs]; simpl; destruct e; reflexivity.
  - assert (H1 : nth 1 (None :: fl) None = None) by (apply Hj; lia).
    assert (H2 : nth 2 (None :: fl) None = None) by (apply Hj; lia).
    destruct fl as [|f1 fl]; [discriminate|]. simpl in H1. subst f1.
    destruct fl as [|f2 fl]; [discriminate|]. simpl in H2. subst f2.
    destruct fl as [|f3 fl]; [discriminate|]. simpl in Hn. subst f3.
    destruct bs as [|b0 [|b1 bs]]; simpl; destruct e; reflexivity.
Qed.

(** When the four calls of [Get] pass, the record holds, in each dimension,
    what the loop over the rows scanned. *)
Lemma Get_scanned w id row cs :
  (forall j, j < 4 -> nth j (faults w) None = None) ->
  row_of (store w) id = Some row ->
  json_Unmarshal (row_conditions row) = inr cs ->
  fst (Get id w)
  = Ret (Ok {| ID := row_id row;
               Description := row_description row;
               Subjects :=
                 delivered (nth 0 (breaks w) None)
                           (eval_query (SelectLinked ladon_policy_subject id)
                                       (store w));
               Effect := row_effect row;
               Resources :=
                 delivered (nth 2 (breaks w) None)
                           (eval_query (SelectLinked ladon_policy_resource id)
                                       (store w));
               Permissions :=
                 delivered (nth 1 (breaks w) None)
                           (eval_query (SelectLinked ladon_policy_permission id)
                                       (store w));
               Conditions := cs |}).
Proof.
  destruct w as [d fl bs cs0]. cbn [faults store breaks].
  intros Hf Hrow Hc.
  pose proof (Hf 0 ltac:(lia)) as H0. pose proof (Hf 1 ltac:(lia)) as H1.
  pose proof (Hf 2 ltac:(lia)) as H2. pose proof (Hf 3 ltac:(lia)) as H3.
  clear Hf. unfold Get, db_QueryRow, getLinked, db_Query, row_of in *. run.
  destruct fl as [|f0 [|f1 [|f2 [|f3 fl]]]]; simpl in H0, H1, H2, H3; subst;
    simpl; rewrite Hrow; simpl; rewrite Hc;
    destruct bs as [|b0 [|b1 [|b2 bs]]]; reflexivity.
Qed.

Lemma hydrate_healthy d ids : forall acc cs,
  exists cs',
    hydrate ids acc {| store := d; faults := []; breaks := []; calls := cs |}
    = (Ret (records d ids acc),
       {| store := d; faults := []; breaks := []; calls := cs' |}).
Proof.
  induction ids as [|id rest IH]; intros acc cs; simpl.
  - eexists; reflexivity.
  - unfold bind. destruct (Get_healthy d id cs) as [cs1 ->].
    destruct (record_of d id) as [p|e].
    + apply IH.
    + eexists; reflexivity.
Qed.

Lemma records_ok d ids : forall acc,
  (forall id, In id ids -> exists p, record_of d id = Ok p) ->
  exists ps, records d ids acc = Ok (acc ++ ps)
             /\ Forall2 (fun id p => record_of d id = Ok p) ids ps.
Proof.
  induction ids as [|id rest IH]; intros acc H; simpl.
  - exists []. rewrite app_nil_r. split; constructor.
  - destruct (H id (or_introl eq_refl)) as [p Hp]. rewrite Hp.
    destruct (IH (acc ++ [p])) as [ps [E F]].
    + intros i Hi. apply H. right. exact Hi.
    + exists (p :: ps). rewrite E, <- app_assoc. split; [reflexivity|].
      constructor; assumption.
Qed.

Lemma has_policy_row_of d id :
  has_policy d id = true -> exists row, row_of d id = Some row.
Proof.
  unfold has_policy, row_of. intros H. apply existsb_exists in H.
  destruct H as [r [Hin Hr]].
  destruct (List.find _ _) as [row|] eqn:E; [eauto|].
  pose proof (find_none _ _ E r Hin) as Hn. simpl in Hn. congruence.
Qed.

Lemma row_has_policy d row :
  In row (ladon_policy d) -> has_policy d (row_id row) = true.
Proof.
  intros H. unfold has_policy. apply existsb_exists. exists row.
  split; [assumption|apply String.eqb_refl].
Qed.

Lemma store_ok_parts d :
  store_ok d = true ->
  distinct (map row_id (ladon_policy d)) = true
  /\ forallb (fun r => effect_ok (row_effect r) && decodes r) (ladon_policy d) = true
  /\ table_ok d ladon_policy_subject = true
  /\ table_ok d ladon_policy_permission = true
  /\ table_ok d ladon_policy_resource = true.
Proof.
  unfold store_ok. intros H.
  repeat match type of H with
         | _ && _ = true => apply andb_prop in H; destruct H as [H ?]
         end.
  auto.
Qed.

Lemma store_ok_decodes d row :
  store_ok d = true -> In row (ladon_policy d) -> decodes row = true.
Proof.
  intros H Hin. apply store_ok_parts in H. destruct H as (_ & H & _).
  rewrite forallb_forall in H. apply H in Hin.
  apply andb_prop in Hin. tauto.
Qed.

Lemma store_ok_fk d t l :
  store_ok d = true -> In l (links d t) ->
  has_policy d (link_policy l) = true.
Proof.
  intros H Hin. apply store_ok_parts in H.
  destruct H as (_ & _ & Hs & Hp & Hr).
  assert (Ht : table_ok d t = true) by (destruct t; assumption).
  unfold table_ok in Ht. apply andb_prop in Ht. destruct Ht as [_ Ht].
  rewrite forallb_forall in Ht. apply Ht. exact Hin.
Qed.

Lemma store_ok_record d id :
  store_ok d = true -> has_policy d id = true ->
  exists p, record_of d id = Ok p.
Proof.
  intros Hok Hp. destruct (has_policy_row_of _ _ Hp) as [row Hrow].
  unfold record_of. fold (row_of d id). rewrite Hrow.
  apply row_of_Some in Hrow. destruct Hrow as [Hin _].
  pose proof (store_ok_decodes _ _ Hok Hin) as Hd. unfold decodes in Hd.
  destruct (json_Unmarshal _); [discriminate|eauto].
Qed.

Lemma record_of_ID d id p : record_of d id = Ok p -> ID p = id.
Proof.
  unfold record_of. fold (row_of d id).
  destruct (row_of d id) as [row|] eqn:E; [|discriminate].
  apply row_of_Some in E. destruct E as [_ E].
  destruct (json_Unmarshal _); [discriminate|].
  intros H. injection H as <-. exact E.
Qed.

Lemma subject_ids_have_policy d s id :
  store_ok d = true -> In id (subject_ids d s) -> has_policy d id = true.
Proof.
  unfold subject_ids. simpl. intros Hok H.
  apply in_map_iff in H. destruct H as [l [<- Hl]].
  apply filter_In in Hl. destruct Hl as [Hl _].
  apply (store_ok_fk d ladon_policy_subject); assumption.
Qed.

Lemma left_join_fst ps ls j :
  In j (left_join ps ls) -> In (fst j) ps.
Proof.
  unfold left_join. intros H. apply in_flat_map in H.
  destruct H as [p [Hp Hj]].
  destruct (filter _ ls) as [|l0 js].
  - destruct Hj as [<-|[]]. exact Hp.
  - apply in_map_iff in Hj. destruct Hj as [l [<- _]]. exact Hp.
Qed.

Lemma global_ids_have_policy d id :
  In id (global_ids d) -> has_policy d id = true.
Proof.
  unfold global_ids. simpl. intros H.
  apply in_map_iff in H. destruct H as [j [<- Hj]].
  apply filter_In in Hj. destruct Hj as [Hj _].
  apply left_join_fst in Hj. apply row_has_policy. exact Hj.
Qed.

Lemma FindPoliciesForSubject_healthy d s cs :
  store_ok d = true ->
  exists ps,
    fst (FindPoliciesForSubject
           s {| store := d; faults := []; breaks := []; calls := cs |})
    = Ret (Ok ps)
    /\ Forall2 (fun id p => record_of d id = Ok p)
               (subject_ids d s ++ global_ids d) ps.
Proof.
  intros Hok. unfold FindPoliciesForSubject, find, db_Query. run.
  match goal with
  | |- context [hydrate ?ids ?acc ?w] =>
      destruct (hydrate_healthy d ids acc (calls w)) as [cs' E]
  end.
  simpl in E. rewrite E. simpl.
  destruct (records_ok d (subject_ids d s ++ global_ids d) []) as [ps [E1 F]].
  - intros id Hin. apply store_ok_record; [assumption|].
    apply in_app_or in Hin. destruct Hin as [Hin|Hin].
    + eapply subject_ids_have_policy; eauto.
    + apply global_ids_have_policy; assumption.
  - exists ps. split; [|exact F]. unfold subject_ids, global_ids in E1.
    simpl in E1. rewrite E1. reflexivity.
Qed.

Lemma Forall2_In_l {A B : Type} (R : A -> B -> Prop) l l' x :
  Forall2 R l l' -> In x l -> exists y, In y l' /\ R x y.
Proof.
  induction 1 as [|a b l l' Hab _ IH]; intros Hin; [destruct Hin|].
  destruct Hin as [->|Hin].
  - exists b. split; [left; reflexivity|assumption].
  - destruct (IH Hin) as [y [Hy HR]]. exists y. split; [right|]; assumption.
Qed.

Lemma Forall2_In_r {A B : Type} (R : A -> B -> Prop) l l' y :
  Forall2 R l l' -> In y l' -> exists x, In x l /\ R x y.
Proof.
  induction 1 as [|a b l l' Hab _ IH]; intros Hin; [destruct Hin|].
  destruct Hin as [->|Hin].
  - exists a. split; [left; reflexivity|assumption].
  - destruct (IH Hin) as [x [Hx HR]]. exists x. split; [right|]; assumption.
Qed.

Lemma filter_nil_iff {A : Type} (f : A -> bool) l :
  filter f l = [] <-> (forall x, In x l -> f x = false).
Proof.
  induction l as [|a l IH]; simpl.
  - split; [intros _ x []|reflexivity].
  - destruct (f a) eqn:E.
    + split; [discriminate|]. intros H. specialize (H a (or_introl eq_refl)).
      congruence.
    + rewrite IH. split.
      * intros H x [<-|Hx]; auto.
      * intros H x Hx. apply H. right. exact Hx.
Qed.

Lemma left_join_null ps ls :
  map (fun j : PolicyRow * option LinkRow => row_id (fst j))
      (filter (fun j => is_null (snd j)) (left_join ps ls))
  = map row_id
        (filter (fun p => forallb (fun l => negb (row_id p =? link_policy l)) ls)
                ps).
Proof.
  unfold left_join.
  induction ps as [|p ps IH]; [reflexivity|].
  cbn [flat_map filter]. rewrite filter_app, map_app, IH. clear IH.
  destruct (filter (fun l => row_id p =? link_policy l) ls) as [|l0 js] eqn:E.
  - assert (H : forallb (fun l => negb (row_id p =? link_policy l)) ls = true).
    { apply forallb_forall. intros l Hl.
      rewrite (proj1 (filter_nil_iff _ _) E l Hl). reflexivity. }
    rewrite H. reflexivity.
  - assert (H : forallb (fun l => negb (row_id p =? link_policy l)) ls = false).
    { destruct (forallb _ _) eqn:F; [|reflexivity].
      rewrite forallb_forall in F.
      assert (Hl : In l0 (filter (fun l => row_id p =? link_policy l) ls))
        by (rewrite E; left; reflexivity).
      apply filter_In in Hl. destruct Hl as [Hl Hm].
      apply F in Hl. rewrite Hm in Hl. discriminate. }
    rewrite H.
    assert (G : forall js' : list LinkRow,
               filter (fun j : PolicyRow * option LinkRow => is_null (snd j))
                      (map (fun l => (p, Some l)) js') = []).
    { induction js' as [|l js' IHj]; [reflexivity|exact IHj]. }
    rewrite G. reflexivity.
Qed.

Lemma global_ids_filter d :
  global_ids d = map row_id (filter (unrestricted d) (ladon_policy d)).
Proof. apply left_join_null. Qed.

Lemma global_ids_spec d id :
  In id (global_ids d)
  <-> has_policy d id = true
      /\ (forall l, In l (subject_rows d) -> link_policy l <> id).
Proof.
  rewrite global_ids_filter, in_map_iff. unfold unrestricted. split.
  - intros [p [<- Hp]]. apply filter_In in Hp. destruct Hp as [Hp Hu].
    split; [apply row_has_policy; exact Hp|].
    rewrite forallb_forall in Hu. intros l Hl Heq. apply Hu in Hl.
    rewrite Heq, String.eqb_refl in Hl. discriminate.
  - intros [Hp Hu]. apply has_policy_row_of in Hp. destruct Hp as [row Hrow].
    apply row_of_Some in Hrow. destruct Hrow as [Hin <-].
    exists row. split; [reflexivity|]. apply filter_In. split; [exact Hin|].
    apply forallb_forall. intros l Hl. apply negb_true_iff.
    apply String.eqb_neq. intros Heq. apply (Hu l Hl). symmetry. exact Heq.
Qed.

Lemma subject_ids_spec d s id :
  In id (subject_ids d s)
  <-> exists l, In l (subject_rows d) /\ link_policy l = id
                /\ regex_match_ci ("^" ++ link_compiled l ++ "$") s = true.
Proof.
  unfold subject_ids. simpl. rewrite in_map_iff. split.
  - intros [l [<- Hl]]. apply filter_In in Hl. exists l. tauto.
  - intros [l [Hl [<- Hm]]]. exists l. split; [reflexivity|].
    apply filter_In. tauto.
Qed.

Lemma record_of_templates d id p t :
  record_of d id = Ok p ->
  templates_of p t = eval_query (SelectLinked t id) d.
Proof.
  unfold record_of. destruct (List.find _ _); [|discriminate].
  destruct (json_Unmarshal _); [discriminate|].
  intros H. injection H as <-. destruct t; reflexivity.
Qed.

Lemma Get_healthy_fst d id :
  fst (Get id (healthy d)) = Ret (record_of d id).
Proof. unfold healthy. destruct (Get_healthy d id []) as [cs ->]. reflexivity. Qed.

Lemma distinct_find rows row :
  distinct (map row_id rows) = true ->
  In row rows ->
  List.find (fun r => row_id r =? row_id row) rows = Some row.
Proof.
  induction rows as [|r rows IH]; intros Hd Hin; [destruct Hin|].
  cbn [map distinct] in Hd. apply andb_prop in Hd. destruct Hd as [Hn Hd].
  apply negb_true_iff in Hn. cbn [List.find].
  destruct Hin as [->|Hin]; [rewrite String.eqb_refl; reflexivity|].
  destruct (row_id r =? row_id row) eqn:E; [|apply IH; assumption].
  exfalso. apply String.eqb_eq in E.
  assert (X : existsb (String.eqb (row_id r)) (map row_id rows) = true).
  { apply existsb_exists. exists (row_id row).
    split; [apply in_map; exact Hin|apply String.eqb_eq; exact E]. }
  congruence.
Qed.

Lemma store_ok_row_of d row :
  store_ok d = true -> In row (ladon_policy d) ->
  row_of d (row_id row) = Some row.
Proof.
  intros Hok Hin. apply store_ok_parts in Hok. destruct Hok as (Hd & _).
  unfold row_of. apply distinct_find; assumption.
Qed.

(** C3.  On a backend that answers without failure and tables that satisfy
    the schema, a stored policy that no subject row refers to is among the
    policies [FindPoliciesForSubject] returns, whatever the subject: the
    record found has the id, the description and the effect of its row, the
    conditions its row deserializes to, no subject, and in each dimension
    the templates of its link rows; it is the record [Get] reads. *)
Theorem global_policy_found_for_every_subject
        (d : Database) (row : PolicyRow) (s : string) :
  store_ok d = true ->
  In row (ladon_policy d) ->
  (forall l, In l (subject_rows d) -> link_policy l <> row_id row) ->
  exists ps p,
    fst (FindPoliciesForSubject s (healthy d)) = Ret (Ok ps)
    /\ In p ps
    /\ ID p = row_id row
    /\ Description p = row_description row
    /\ Effect p = row_effect row
    /\ json_Unmarshal (row_conditions row) = inr (Conditions p)
    /\ Subjects p = []
    /\ (forall t,
          Permutation
            (templates_of p t)
            (map link_template
                 (filter (fun l => link_policy l =? row_id row) (links d t))))
    /\ fst (Get (row_id row) (healthy d)) = Ret (Ok p).
Proof.
  intros Hok Hin Hnone.
  destruct (FindPoliciesForSubject_healthy d s [] Hok) as [ps [E F]].
  assert (Hg : In (row_id row) (subject_ids d s ++ global_ids d)).
  { apply in_or_app. right. apply global_ids_spec.
    split; [apply row_has_policy; exact Hin|exact Hnone]. }
  destruct (Forall2_In_l _ _ _ _ F Hg) as [p [Hp Hrec]].
  exists ps, p. split; [exact E|]. split; [exact Hp|].
  assert (Hfields : Description p = row_description row
                    /\ Effect p = row_effect row
                    /\ json_Unmarshal (row_conditions row)
                       = inr (Conditions p)).
  { pose proof Hrec as H. unfold record_of in H.
    fold (row_of d (row_id row)) in H.
    rewrite (store_ok_row_of d row Hok Hin) in H.
    destruct (json_Unmarshal (row_conditions row)) as [e|cs];
      [discriminate|].
    injection H as <-. auto. }
  destruct Hfields as (H1 & H2 & H3).
  split; [eapply record_of_ID; eauto|].
  split; [exact H1|]. split; [exact H2|]. split; [exact H3|].
  assert (Ht : forall t,
             templates_of p t
             = map link_template
                   (filter (fun l => link_policy l =? row_id row) (links d t))).
  { intros t. apply (record_of_templates _ _ _ t Hrec). }
  split.
  { pose proof (Ht ladon_policy_subject) as H. cbn [templates_of links] in H.
    rewrite H.
    rewrite (proj2 (filter_nil_iff _ _)); [reflexivity|].
    intros l Hl. apply String.eqb_neq. exact (Hnone l Hl). }
  split; [intros t; rewrite (Ht t); apply Permutation_refl|].
  rewrite Get_healthy_fst. f_equal. exact Hrec.
Qed.

(** C9.  When no subject row matches the subject and every stored policy
    has a subject row, [FindPoliciesForSubject] returns the empty list and no
    error: no match is a success, not [pkg.ErrNotFound]. *)
Theorem no_match_is_an_empty_success (d : Database) (s : string) :
  (forall l, In l (subject_rows d) ->
             regex_match_ci ("^" ++ link_compiled l ++ "$") s = false) ->
  (forall row, In row (ladon_policy d) ->
               exists l, In l (subject_rows d) /\ link_policy l = row_id row) ->
  fst (FindPoliciesForSubject s (healthy d)) = Ret (Ok []).
Proof.
  intros Hno Hglob.
  assert (Hs : subject_ids d s = []).
  { unfold subject_ids, eval_query.
    rewrite (proj2 (filter_nil_iff _ _) Hno). reflexivity. }
  assert (Hg : global_ids d = []).
  { destruct (global_ids d) as [|id ids] eqn:E; [reflexivity|].
    assert (Hin : In id (global_ids d)) by (rewrite E; left; reflexivity).
    apply global_ids_spec in Hin. destruct Hin as [Hp Hl].
    apply has_policy_row_of in Hp. destruct Hp as [row Hrow].
    apply row_of_Some in Hrow. destruct Hrow as [Hin <-].
    destruct (Hglob row Hin) as [l [Hl1 Hl2]].
    exfalso. exact (Hl l Hl1 Hl2). }
  unfold subject_ids, global_ids in *.
  unfold FindPoliciesForSubject, find, db_Query, healthy. run.
  rewrite Hs, Hg. reflexivity.
Qed.

(** C8.  What [Get] does with the row and the three fetches.  Without a
    row of the id it returns [pkg.ErrNotFound]; conditions that do not
    deserialize and a query that the backend refuses are returned as errors.
    But a fetch that fails while its rows are read is not: the loop ends,
    [rows.Err] is not read, and [Get] returns nil and a record that holds,
    in this dimension, the templates scanned so far only. *)
Theorem Get_returns_a_partial_record_when_a_fetch_breaks_off
        (w : World) (id : string) :
  (nth 0 (faults w) None = None ->
   row_of (store w) id = None ->
   fst (Get id w) = Ret (Err pkg_ErrNotFound))
  /\ (forall row e,
        nth 0 (faults w) None = None ->
        row_of (store w) id = Some row ->
        json_Unmarshal (row_conditions row) = inl e ->
        fst (Get id w) = Ret (Err (errors_New e)))
  /\ (forall row cs e k,
        1 <= k <= 3 ->
        (forall j, j < k -> nth j (faults w) None = None) ->
        nth k (faults w) None = Some e ->
        row_of (store w) id = Some row ->
        json_Unmarshal (row_conditions row) = inr cs ->
        fst (Get id w) = Ret (Err (surfaced e)))
  /\ (forall row cs,
        (forall j, j < 4 -> nth j (faults w) None = None) ->
        row_of (store w) id = Some row ->
        json_Unmarshal (row_conditions row) = inr cs ->
        exists p,
          fst (Get id w) = Ret (Ok p)
          /\ ID p = row_id row
          /\ Description p = row_description row
          /\ Effect p = row_effect row
          /\ Conditions p = cs
          /\ (forall t,
                templates_of p t
                = delivered (nth (fetch_index t) (breaks w) None)
                            (eval_query (SelectLinked t id) (store w)))
          /\ (forall t k e,
                nth (fetch_index t) (breaks w) None = Some (k, e) ->
                k < List.length (eval_query (SelectLinked t id) (store w)) ->
                List.length (templates_of p t) = k
                /\ templates_of p t
                   <> eval_query (SelectLinked t id) (store w))).
Proof.
  split; [apply Get_absent|].
  split; [intros row e; apply Get_unmarshal_failure|].
  split; [intros row cs e k; apply Get_fetch_failure|].
  intros row cs Hf Hrow Hc. eexists.
  split; [apply (Get_scanned w id row cs Hf Hrow Hc)|].
  cbn [ID Description Effect Conditions].
  do 4 (split; [reflexivity|]). split.
  - intros t. destruct t; reflexivity.
  - intros t k e Hb Hk.
    assert (Ht : templates_of
                   {| ID := row_id row;
                      Description := row_description row;
                      Subjects :=
                        delivered (nth 0 (breaks w) None)
                                  (eval_query
                                     (SelectLinked ladon_policy_subject id)
                                     (store w));
                      Effect := row_effect row;
                      Resources :=
                        delivered (nth 2 (breaks w) None)
                                  (eval_query
                                     (SelectLinked ladon_policy_resource id)
                                     (store w));
                      Permissions :=
                        delivered (nth 1 (breaks w) None)
                                  (eval_query
                                     (SelectLinked ladon_policy_permission id)
                                     (store w));
                      Conditions := cs |} t
                 = firstn k (eval_query (SelectLinked t id) (store w))).
    { destruct t; cbn [templates_of Subjects Permissions Resources fetch_index]
        in *; rewrite Hb; reflexivity. }
    rewrite Ht. split; [rewrite length_firstn; lia|].
    intros E. apply (f_equal (@List.length string)) in E.
    rewrite length_firstn in E. lia.
Qed.
(** C10.  For every stored policy [Get] succeeds and returns, for each
    dimension, the templates of its link rows; a dimension without a link
    row of the policy comes back as the empty list, not as an error. *)
Theorem Get_succeeds_with_empty_dimensions (d : Database) (row : PolicyRow) :
  store_ok d = true ->
  In row (ladon_policy d) ->
  exists p,
    fst (Get (row_id row) (healthy d)) = Ret (Ok p)
    /\ ID p = row_id row
    /\ (forall t,
          templates_of p t
          = map link_template
                (filter (fun l => link_policy l =? row_id row) (links d t)))
    /\ (forall t,
          (forall l, In l (links d t) -> link_policy l <> row_id row) ->
          templates_of p t = []).
Proof.
  intros Hok Hin.
  destruct (store_ok_record d (row_id row) Hok (row_has_policy _ _ Hin))
    as [p Hp].
  exists p. rewrite Get_healthy_fst, Hp.
  split; [reflexivity|]. split; [eapply record_of_ID; eauto|].
  split.
  - intros t. apply (record_of_templates _ _ _ t Hp).
  - intros t Hnone. rewrite (record_of_templates _ _ _ t Hp). simpl.
    assert (E : filter (fun l => link_policy l =? row_id row) (links d t) = []).
    { apply filter_nil_iff. intros l Hl. apply String.eqb_neq.
      exact (Hnone l Hl). }
    rewrite E. reflexivity.
Qed.

Lemma hydrated_ids d ids ps :
  Forall2 (fun id p => record_of d id = Ok p) ids ps -> map ID ps = ids.
Proof.
  induction 1 as [|id p ids ps H _ IH]; [reflexivity|].
  simpl. rewrite IH, (record_of_ID _ _ _ H). reflexivity.
Qed.

Lemma count_subject_ids d s id :
  count_occ string_dec (subject_ids d s) id = List.length (matching d s id).
Proof.
  unfold subject_ids, matching, eval_query.
  induction (subject_rows d) as [|l ls IH]; [reflexivity|].
  cbn [filter].
  destruct (regex_match_ci _ s) eqn:Em; cbn [map count_occ].
  - destruct (string_dec (link_policy l) id) as [E|E].
    + rewrite (proj2 (String.eqb_eq _ _) E). cbn [andb List.length].
      rewrite IH. reflexivity.
    + rewrite (proj2 (String.eqb_neq _ _) E). cbn [andb]. exact IH.
  - rewrite andb_false_r. exact IH.
Qed.

Lemma absent_id_counts (u : PolicyRow -> bool) ps id :
  ~ In id (map row_id ps) ->
  count_occ string_dec (map row_id (filter u ps)) id = 0
  /\ existsb (fun p => (row_id p =? id) && u p) ps = false.
Proof.
  induction ps as [|p ps IH]; intros Hn; [split; reflexivity|].
  simpl in Hn.
  assert (Hp : row_id p <> id) by tauto.
  assert (Hr : ~ In id (map row_id ps)) by tauto.
  destruct (IH Hr) as [IH1 IH2]. cbn [filter existsb].
  rewrite (proj2 (String.eqb_neq _ _) Hp), IH2. split; [|reflexivity].
  destruct (u p); [|exact IH1].
  cbn [map count_occ]. destruct (string_dec (row_id p) id); [contradiction|].
  exact IH1.
Qed.

Lemma distinct_head x t :
  distinct (x :: t) = true -> ~ In x t /\ distinct t = true.
Proof.
  simpl. intros H. apply andb_prop in H. destruct H as [H1 H2].
  split; [|exact H2]. intros Hin. apply negb_true_iff in H1.
  assert (E : existsb (String.eqb x) t = true).
  { apply existsb_exists. exists x. split; [exact Hin|apply String.eqb_refl]. }
  congruence.
Qed.

Lemma count_filtered_ids (u : PolicyRow -> bool) ps id :
  distinct (map row_id ps) = true ->
  count_occ string_dec (map row_id (filter u ps)) id
  = if existsb (fun p => (row_id p =? id) && u p) ps then 1 else 0.
Proof.
  induction ps as [|p ps IH]; intros Hd; [reflexivity|].
  cbn [map] in Hd. apply distinct_head in Hd. destruct Hd as [Hn Hd].
  cbn [filter existsb].
  destruct (string_dec (row_id p) id) as [E|E].
  - subst id. destruct (absent_id_counts u ps _ Hn) as [A1 A2].
    rewrite String.eqb_refl, A2. cbn [andb orb].
    destruct (u p); cbn [map count_occ].
    + destruct (string_dec (row_id p) (row_id p)); [|contradiction].
      rewrite A1. reflexivity.
    + exact A1.
  - rewrite (proj2 (String.eqb_neq _ _) E). cbn [andb orb].
    destruct (u p); cbn [map count_occ].
    + destruct (string_dec (row_id p) id); [contradiction|]. apply IH, Hd.
    + apply IH, Hd.
Qed.

Lemma is_global_spec d id :
  is_global d id = true
  <-> has_policy d id = true
      /\ (forall l, In l (subject_rows d) -> link_policy l <> id).
Proof.
  rewrite <- global_ids_spec, global_ids_filter, in_map_iff.
  unfold is_global. rewrite existsb_exists. split.
  - intros [p [Hp H]]. apply andb_prop in H. destruct H as [H1 H2].
    apply String.eqb_eq in H1. exists p. split; [exact H1|].
    apply filter_In. tauto.
  - intros [p [<- Hp]]. apply filter_In in Hp. exists p.
    split; [tauto|]. rewrite String.eqb_refl. tauto.
Qed.

Lemma global_has_no_match d s id :
  is_global d id = true -> matching d s id = [].
Proof.
  intros H. apply is_global_spec in H. destruct H as [_ H].
  unfold matching. apply filter_nil_iff. intros l Hl.
  rewrite (proj2 (String.eqb_neq _ _) (H l Hl)). reflexivity.
Qed.

(** C5, as amended.  The list [FindPoliciesForSubject] returns holds a
    policy id once for each subject row of that policy whose anchored
    pattern matches the subject, and once more if the policy is global; a
    global policy has no matching row, so the two queries never contribute
    the same id. *)
Theorem found_ids_counted (d : Database) (s : string) :
  store_ok d = true ->
  exists ps,
    fst (FindPoliciesForSubject s (healthy d)) = Ret (Ok ps)
    /\ (forall id,
          count_occ string_dec (map ID ps) id
          = List.length (matching d s id) + (if is_global d id then 1 else 0))
    /\ (forall id, is_global d id = true -> matching d s id = []).
Proof.
  intros Hok.
  destruct (FindPoliciesForSubject_healthy d s [] Hok) as [ps [E F]].
  exists ps. split; [exact E|]. split.
  - intros id. rewrite (hydrated_ids _ _ _ F), count_occ_app.
    rewrite count_subject_ids, global_ids_filter. f_equal.
    apply count_filtered_ids. apply store_ok_parts in Hok. tauto.
  - intros id. apply global_has_no_match.
Qed.

(** The policies found are those with a matching subject row and the
    global ones. *)
Lemma found_iff_matched_or_global (d : Database) (s id : string) ps :
  store_ok d = true ->
  fst (FindPoliciesForSubject s (healthy d)) = Ret (Ok ps) ->
  (exists p, In p ps /\ ID p = id)
  <-> (exists l, In l (subject_rows d) /\ link_policy l = id
                 /\ regex_match_ci ("^" ++ link_compiled l ++ "$") s = true)
      \/ is_global d id = true.
Proof.
  intros Hok E.
  destruct (FindPoliciesForSubject_healthy d s [] Hok) as [ps' [E' F]].
  unfold healthy in E. rewrite E' in E. injection E as ->.
  rewrite <- subject_ids_spec, is_global_spec, <- global_ids_spec, <- in_app_iff.
  rewrite <- (hydrated_ids _ _ _ F), in_map_iff. split.
  - intros [p [Hp <-]]. exists p. tauto.
  - intros [p [<- Hp]]. exists p. tauto.
Qed.

(** *** Create *)

Lemma set_links_same d t : set_links d t (links d t) = d.
Proof. destruct d, t; reflexivity. Qed.

Lemma set_links_twice d t a b : set_links (set_links d t a) t b = set_links d t b.
Proof. destruct t; reflexivity. Qed.

Lemma links_set_links d t a : links (set_links d t a) t = a.
Proof. destruct t; reflexivity. Qed.

Lemma no_rollback_nil : no_rollback [].
Proof. intros x []. Qed.

Lemma no_rollback_app a b : no_rollback a -> no_rollback b -> no_rollback (a ++ b).
Proof.
  intros Ha Hb x Hin. apply in_app_or in Hin.
  destruct Hin as [Hin|Hin]; [exact (Ha x Hin)|exact (Hb x Hin)].
Qed.

Lemma no_rollback_exec c : no_rollback [(OpExec, c)].
Proof. intros x [H|[]]. discriminate. Qed.

Lemma db_Begin_spec w :
  exists r w',
    db_Begin w = (Ret r, w')
    /\ store w' = store w
    /\ calls w' = calls w ++ [(OpBegin, err_of r)]
    /\ match r with
       | Ok tx => tx_done tx = false /\ tx_data tx = store w
       | Err _ => True
       end.
Proof.
  destruct w as [d fl bs cs]. unfold db_Begin. run.
  destruct fl as [|[e|] fl]; simpl; do 2 eexists;
    (split; [reflexivity|]); simpl; auto.
Qed.

Lemma tx_Exec_spec tx s w :
  exists r tx' w',
    tx_Exec tx s w = (Ret (r, tx'), w')
    /\ store w' = store w
    /\ calls w' = calls w ++ [(OpExec, err_of r)]
    /\ match r with
       | Ok _ => tx_done tx = false /\ tx_done tx' = false
                 /\ exec_stmt s (tx_data tx) = Ok (tx_data tx')
       | Err _ => tx' = tx
       end.
Proof.
  destruct w as [d fl bs cs]. unfold tx_Exec. run.
  destruct (tx_done tx) eqn:Ed; simpl.
  { do 3 eexists. split; [reflexivity|]. simpl. auto. }
  destruct fl as [|[e|] fl]; simpl.
  2: { do 3 eexists. split; [reflexivity|]. simpl. auto. }
  all: destruct (exec_stmt s (tx_data tx)) as [d'|e] eqn:Ex; simpl;
    do 3 eexists; (split; [reflexivity|]); simpl; auto.
Qed.

Lemma tx_Rollback_spec tx w :
  exists r tx' w',
    tx_Rollback tx w = (Ret (r, tx'), w')
    /\ store w' = store w
    /\ calls w' = calls w ++ [(OpRollback, err_of r)]
    /\ (tx_done tx = true -> r = Err sql_ErrTxDone).
Proof.
  destruct w as [d fl bs cs]. unfold tx_Rollback. run.
  destruct (tx_done tx) eqn:Ed; simpl.
  { do 3 eexists. split; [reflexivity|]. simpl. auto. }
  destruct fl as [|[e|] fl]; simpl; do 3 eexists;
    (split; [reflexivity|]); simpl; repeat split; auto; discriminate.
Qed.

Lemma tx_Commit_spec tx w :
  exists r tx' w',
    tx_Commit tx w = (Ret (r, tx'), w')
    /\ calls w' = calls w ++ [(OpCommit, err_of r)]
    /\ tx_done tx' = true
    /\ store w' = match r with Ok _ => tx_data tx | Err _ => store w end.
Proof.
  destruct w as [d fl bs cs]. unfold tx_Commit. run.
  destruct (tx_done tx) eqn:Ed; simpl.
  { do 3 eexists. split; [reflexivity|]. simpl. auto. }
  destruct fl as [|[e|] fl]; simpl; do 3 eexists;
    (split; [reflexivity|]); simpl; auto.
Qed.

Lemma exec_InsertLink t row d d' :
  exec_stmt (InsertLink t row) d = Ok d' ->
  existsb (same_link row) (links d t) = false
  /\ has_policy d (link_policy row) = true
  /\ d' = set_links d t (links d t ++ [row]).
Proof.
  simpl. destruct (existsb _ _); [discriminate|].
  destruct (has_policy _ _); [|discriminate].
  intros H. injection H as <-. auto.
Qed.

Lemma same_link_sym a b : same_link a b = same_link b a.
Proof.
  unfold same_link.
  rewrite (String.eqb_sym (link_template a)), (String.eqb_sym (link_policy a)).
  reflexivity.
Qed.

Lemma distinct_links_snoc old row :
  distinct_links old = true ->
  existsb (same_link row) old = false ->
  distinct_links (old ++ [row]) = true.
Proof.
  induction old as [|l old IH]; intros Hd Hn; [reflexivity|].
  simpl in Hd, Hn |- *. apply andb_prop in Hd. destruct Hd as [H1 H2].
  apply orb_false_iff in Hn. destruct Hn as [H3 H4].
  rewrite existsb_app. simpl. rewrite (same_link_sym l row), H3.
  apply negb_true_iff in H1. rewrite H1. simpl. apply IH; assumption.
Qed.

Lemma createLink_spec t p ts : forall tx w,
  store (snd (createLink tx t p ts w)) = store w
  /\ exists new,
       calls (snd (createLink tx t p ts w)) = calls w ++ new
       /\ match fst (createLink tx t p ts w) with
          | Ret (Ok _, tx') =>
              no_rollback new
              /\ tx_done tx' = tx_done tx
              /\ exists rows,
                   tx_data tx'
                   = set_links (tx_data tx) t (links (tx_data tx) t ++ rows)
                   /\ Forall2 (link_of p) ts rows
                   /\ (distinct_links (links (tx_data tx) t) = true ->
                       distinct_links (links (tx_data tx) t ++ rows) = true)
          | Ret (Err e, _) =>
              forall rb, In (OpRollback, Some rb) new -> e = rb
          | Panic => no_rollback new
          end.
Proof.
  induction ts as [|template rest IH]; intros tx w.
  - simpl. split; [reflexivity|]. exists []. rewrite app_nil_r.
    split; [reflexivity|]. split; [apply no_rollback_nil|].
    split; [reflexivity|]. exists []. rewrite app_nil_r, set_links_same.
    split; [reflexivity|]. split; [constructor|auto].
  - cbn [createLink].
    destruct (compiler_CompileRegex template _ _) as [e|reg] eqn:Ec.
    { simpl. split; [reflexivity|]. exists []. rewrite app_nil_r.
      split; [reflexivity|apply no_rollback_nil]. }
    unfold bind.
    match goal with
    | |- context [tx_Exec tx ?s w] =>
        destruct (tx_Exec_spec tx s w) as (r & tx1 & w1 & E & Hs & Hc & Hr)
    end.
    rewrite E. destruct r as [[]|err].
    + destruct Hr as (Hd & Hd1 & Hx). apply exec_InsertLink in Hx.
      destruct Hx as (Hnew & _ & Hx).
      destruct (IH tx1 w1) as [IHs [new [IHc IHr]]].
      split; [congruence|].
      exists ((OpExec, None) :: new). split.
      { rewrite IHc, Hc. simpl. rewrite <- app_assoc. reflexivity. }
      destruct (fst (createLink tx1 t p rest w1)) as [[[[]|e] tx2]|].
      * destruct IHr as (Hn & Hd2 & rows & Hrows & F & Hdist).
        split.
        { apply (no_rollback_app [(OpExec, None)]);
            [apply no_rollback_exec|exact Hn]. }
        split; [congruence|].
        eexists (_ :: rows). split.
        { rewrite Hrows, Hx, set_links_twice, links_set_links, <- app_assoc.
          reflexivity. }
        split; [constructor; [|exact F]; repeat split; simpl; auto|].
        intros Hold. rewrite Hx, links_set_links in Hdist.
        cbn [app]. rewrite <- app_assoc in Hdist. apply Hdist.
        apply distinct_links_snoc; assumption.
      * intros rb [H|H]; [discriminate|]. apply IHr. exact H.
      * apply (no_rollback_app [(OpExec, None)]);
          [apply no_rollback_exec|exact IHr].
    + subst tx1.
      destruct (tx_Rollback_spec tx w1) as (rb & tx2 & w2 & E2 & Hs2 & Hc2 & _).
      rewrite E2. split; [destruct rb; simpl; congruence|].
      exists [(OpExec, Some err); (OpRollback, err_of rb)]. split.
      { destruct rb; simpl; rewrite Hc2, Hc, <- app_assoc; reflexivity. }
      destruct rb as [[]|rb]; simpl.
      * intros rb [H|[H|[]]]; discriminate.
      * intros rb' [H|[H|[]]]; [discriminate|]. injection H as <-. reflexivity.
Qed.

Lemma exec_InsertPolicy row d d' :
  exec_stmt (InsertPolicy row) d = Ok d' ->
  has_policy d (row_id row) = false
  /\ effect_ok (row_effect row) = true
  /\ d' = {| ladon_policy := ladon_policy d ++ [row];
             subject_rows := subject_rows d;
             permission_rows := permission_rows d;
             resource_rows := resource_rows d |}.
Proof.
  simpl. destruct (has_policy _ _); [discriminate|].
  destruct (effect_ok _); [|discriminate].
  intros H. injection H as <-. auto.
Qed.

Ltac link_step L e tx' w' :=
  match goal with
  | |- context [createLink ?tx ?t ?p ?ts ?w] =>
      pose proof (createLink_spec t p ts tx w) as L;
      destruct (createLink tx t p ts w) as [[[[[]|e] tx']|] w'];
      cbn [fst snd] in L; unfold ret; cbn [fst snd]
  end.

Lemma Create_spec policy w :
  exists new,
    calls (snd (Create policy w)) = calls w ++ new
    /\ match fst (Create policy w) with
       | Ret (Ok _) =>
           no_rollback new
           /\ In (OpCommit, None) new
           /\ exists conditions subjects permissions resources,
             conditions_blob policy = inr conditions
             /\ has_policy (store w) (GetID policy) = false
             /\ effect_ok (GetEffect policy) = true
             /\ store (snd (Create policy w))
                = {| ladon_policy :=
                       ladon_policy (store w) ++ [policy_row policy conditions];
                     subject_rows := subject_rows (store w) ++ subjects;
                     permission_rows := permission_rows (store w) ++ permissions;
                     resource_rows := resource_rows (store w) ++ resources |}
             /\ Forall2 (link_of policy) (GetSubjects policy) subjects
             /\ Forall2 (link_of policy) (GetPermissions policy) permissions
             /\ Forall2 (link_of policy) (GetResources policy) resources
             /\ (forall t,
                   distinct_links (links (store w) t) = true ->
                   distinct_links (links (store (snd (Create policy w))) t)
                   = true)
       | Ret (Err e) =>
           store (snd (Create policy w)) = store w
           /\ forall rb, In (OpRollback, Some rb) new -> e = rb
       | Panic =>
           store (snd (Create policy w)) = store w /\ no_rollback new
       end.
Proof.
  unfold Create. fold (conditions_blob policy).
  destruct (conditions_blob policy) as [e|conditions] eqn:Eb.
  { exists []. simpl. rewrite app_nil_r. repeat split. intros rb []. }
  unfold bind.
  destruct (db_Begin_spec w) as (r0 & w0 & E0 & Hs0 & Hc0 & Hr0). rewrite E0.
  destruct r0 as [tx0|e0].
  2: { exists [(OpBegin, Some e0)]. simpl. repeat split; auto.
       intros rb [H|[]]. discriminate. }
  destruct Hr0 as [Hd0 Hdata0].
  fold (policy_row policy conditions).
  destruct (tx_Exec_spec tx0 (InsertPolicy (policy_row policy conditions)) w0)
    as (r1 & tx1 & w1 & E1 & Hs1 & Hc1 & Hr1).
  rewrite E1. destruct r1 as [[]|e1].
  2: { exists [(OpBegin, None); (OpExec, Some e1)]. simpl.
       split; [rewrite Hc1, Hc0, <- app_assoc; reflexivity|].
       split; [congruence|]. intros rb [H|[H|[]]]; discriminate. }
  destruct Hr1 as (_ & Hd1 & Hx1). apply exec_InsertPolicy in Hx1.
  destruct Hx1 as (Hfresh & Heff & Hdata1). simpl in Hfresh, Heff.
  rewrite Hdata0 in Hfresh, Hdata1.
  assert (P0 : no_rollback [(OpBegin, None); (OpExec, None)]).
  { intros x [H|[H|[]]]; discriminate. }
  assert (C1 : calls w1 = calls w ++ [(OpBegin, None); (OpExec, None)]).
  { rewrite Hc1, Hc0, <- app_assoc. reflexivity. }
  assert (S1 : store w1 = store w) by congruence.
  clear E0 E1 Hc0 Hc1 Hs0 Hs1 w0 Hd0 Hdata0 tx0.
  (* the three dimensions *)
  link_step L2 e2 tx2 w2.
  2, 3: destruct L2 as [Ls [new [Lc Lr]]]; eexists;
    (split; [rewrite Lc, C1, <- app_assoc; reflexivity|]);
    (split; [congruence|]).
  2: { intros rb Hin. apply Lr. apply in_app_or in Hin.
       destruct Hin as [Hin|Hin]; [exfalso; exact (P0 _ Hin)|exact Hin]. }
  2: { apply no_rollback_app; assumption. }
  destruct L2 as [Ls2 [new2 [Lc2 (Ln2 & Ld2 & subjects & Hdata2 & F2 & D2)]]].
  rewrite Hdata1 in D2. cbn [set_links links ladon_policy subject_rows permission_rows resource_rows] in D2.
  assert (S2 : store w2 = store w) by congruence.
  assert (C2 : calls w2 = calls w ++ ([(OpBegin, None); (OpExec, None)] ++ new2)).
  { rewrite Lc2, C1, <- app_assoc. reflexivity. }
  pose proof (no_rollback_app _ _ P0 Ln2) as P2.
  rewrite Hdata1 in Hdata2. cbn [set_links links ladon_policy subject_rows permission_rows resource_rows] in Hdata2.
  clear Ls2 Lc2 C1 S1 Ln2 P0 Hdata1 w1.
  link_step L3 e3 tx3 w3.
  2, 3: destruct L3 as [Ls [new [Lc Lr]]]; eexists;
    (split; [rewrite Lc, C2, <- app_assoc; reflexivity|]);
    (split; [congruence|]).
  2: { intros rb Hin. apply Lr. apply in_app_or in Hin.
       destruct Hin as [Hin|Hin]; [exfalso; exact (P2 _ Hin)|exact Hin]. }
  2: { apply no_rollback_app; assumption. }
  destruct L3 as [Ls3 [new3 [Lc3 (Ln3 & Ld3 & permissions & Hdata3 & F3 & D3)]]].
  assert (S3 : store w3 = store w) by congruence.
  assert (C3 : calls w3
               = calls w ++ (([(OpBegin, None); (OpExec, None)] ++ new2) ++ new3)).
  { rewrite Lc3, C2, <- app_assoc. reflexivity. }
  pose proof (no_rollback_app _ _ P2 Ln3) as P3.
  rewrite Hdata2 in Hdata3, D3. cbn [set_links links ladon_policy subject_rows permission_rows resource_rows] in Hdata3, D3.
  clear Ls3 Lc3 C2 S2 Ln3 P2 Hdata2 w2.
  link_step L4 e4 tx4 w4.
  2, 3: destruct L4 as [Ls [new [Lc Lr]]]; eexists;
    (split; [rewrite Lc, C3, <- app_assoc; reflexivity|]);
    (split; [congruence|]).
  2: { intros rb Hin. apply Lr. apply in_app_or in Hin.
       destruct Hin as [Hin|Hin]; [exfalso; exact (P3 _ Hin)|exact Hin]. }
  2: { apply no_rollback_app; assumption. }
  destruct L4 as [Ls4 [new4 [Lc4 (Ln4 & Ld4 & resources & Hdata4 & F4 & D4)]]].
  assert (S4 : store w4 = store w) by congruence.
  assert (C4 : calls w4
               = calls w ++ ((([(OpBegin, None); (OpExec, None)] ++ new2)
                              ++ new3) ++ new4)).
  { rewrite Lc4, C3, <- app_assoc. reflexivity. }
  pose proof (no_rollback_app _ _ P3 Ln4) as P4.
  rewrite Hdata3 in Hdata4, D4. cbn [set_links links ladon_policy subject_rows permission_rows resource_rows] in Hdata4, D4.
  clear Ls4 Lc4 C3 S3 Ln4 P3 Hdata3 w3.
  (* commit *)
  remember ((([(OpBegin, None); (OpExec, None)] ++ new2) ++ new3) ++ new4)
    as acc eqn:Eacc.
  clear Eacc.
  destruct (tx_Commit_spec tx4 w4) as (r5 & tx5 & w5 & E5 & Hc5 & Hd5 & Hs5).
  rewrite E5. destruct r5 as [[]|e5]; cbn [fst snd].
  - eexists. split; [rewrite Hc5, C4, <- app_assoc; reflexivity|].
    split.
    { apply no_rollback_app; [exact P4|]. intros x [H|[]]. discriminate. }
    split; [apply in_or_app; right; left; reflexivity|].
    exists conditions, subjects, permissions, resources.
    repeat split; try assumption; [rewrite Hs5, Hdata4; reflexivity|].
    intros t Ht. rewrite Hs5, Hdata4. destruct t; cbn in Ht |- *; auto.
  - destruct (tx_Rollback_spec tx5 w5) as (r6 & tx6 & w6 & E6 & Hs6 & Hc6 & Hr6).
    rewrite E6. specialize (Hr6 Hd5). subst r6. cbn [fst snd].
    exists (acc ++ [(OpCommit, Some e5); (OpRollback, Some sql_ErrTxDone)]).
    split.
    { rewrite Hc6, Hc5, C4. simpl. rewrite <- !app_assoc. reflexivity. }
    split; [congruence|].
    intros rb Hin. apply in_app_or in Hin. destruct Hin as [Hin|Hin].
    + exfalso. exact (P4 _ Hin).
    + simpl in Hin. destruct Hin as [H|[H|[]]]; [discriminate|].
      injection H as <-. reflexivity.
Qed.

Lemma Forall2_link_of_In policy ts rows template :
  Forall2 (link_of policy) ts rows -> In template ts ->
  exists l, In l rows /\ link_of policy template l.
Proof. apply Forall2_In_l. Qed.

(** C1, as amended.  When [Create] returns nil, a commit succeeded and the
    committed tables hold the policy row and a link row for every template
    of the three dimensions.  When it returns an error or panics, the
    committed tables are those of before the call; so [Get] on the id
    returns [pkg.ErrNotFound] whenever no policy with that id was stored
    before. *)
Theorem Create_all_or_nothing (policy : Policy) (w : World) :
  match fst (Create policy w) with
  | Ret (Ok _) =>
      In (OpCommit, None) (calls (snd (Create policy w)))
      /\ (exists conditions,
          conditions_blob policy = inr conditions
          /\ In (policy_row policy conditions)
                (ladon_policy (store (snd (Create policy w)))))
      /\ (forall t template,
            In template (dimension policy t) ->
            exists l, In l (links (store (snd (Create policy w))) t)
                      /\ link_of policy template l)
  | _ =>
      store (snd (Create policy w)) = store w
      /\ (has_policy (store w) (GetID policy) = false ->
          fst (Get (GetID policy) (healthy (store (snd (Create policy w)))))
          = Ret (Err pkg_ErrNotFound))
  end.
Proof.
  destruct (Create_spec policy w) as [new [Hn H]].
  assert (Hnf : forall d, d = store w ->
                  has_policy (store w) (GetID policy) = false ->
                  fst (Get (GetID policy) (healthy d)) = Ret (Err pkg_ErrNotFound)).
  { intros d -> Hf. rewrite Get_healthy_fst. unfold record_of.
    destruct (List.find _ _) as [row|] eqn:E; [|reflexivity].
    apply find_some in E. destruct E as [Hin Heq].
    apply String.eqb_eq in Heq. rewrite <- Heq in Hf.
    rewrite (row_has_policy _ _ Hin) in Hf. discriminate. }
  destruct (fst (Create policy w)) as [[[]|e]|].
  - destruct H as (_ & Hcommit & conditions & subjects & permissions
                   & resources & Hb & _ & _ & Hs & F1 & F2 & F3 & _).
    split; [rewrite Hn; apply in_or_app; right; exact Hcommit|].
    rewrite Hs. split.
    + exists conditions. split; [exact Hb|]. simpl.
      apply in_or_app. right. left. reflexivity.
    + intros t template Hin.
      destruct t; simpl in Hin |- *;
        [destruct (Forall2_link_of_In _ _ _ _ F1 Hin) as [l [Hl Hlink]]
        |destruct (Forall2_link_of_In _ _ _ _ F2 Hin) as [l [Hl Hlink]]
        |destruct (Forall2_link_of_In _ _ _ _ F3 Hin) as [l [Hl Hlink]]];
        exists l; (split; [apply in_or_app; right; exact Hl|exact Hlink]).
  - destruct H as [Hs _]. split; [exact Hs|]. apply Hnf. exact Hs.
  - destruct H as [Hs _]. split; [exact Hs|]. apply Hnf. exact Hs.
Qed.

(** C7, as amended.  When a rollback is attempted during [Create] and
    fails, [Create] returns the error of the rollback, and nothing else: the
    error of the stage that failed before it is dropped. *)
Theorem failed_rollback_error_is_returned_alone
        (policy : Policy) (w : World) (rb : error) :
  calls w = [] ->
  In (OpRollback, Some rb) (calls (snd (Create policy w))) ->
  fst (Create policy w) = Ret (Err rb).
Proof.
  intros Hc Hin. destruct (Create_spec policy w) as [new [Hn H]].
  rewrite Hn, Hc in Hin. simpl in Hin.
  destruct (fst (Create policy w)) as [[[]|e]|].
  - destruct H as [Hno _]. exfalso. exact (Hno _ Hin).
  - destruct H as [_ H]. rewrite (H rb Hin). reflexivity.
  - destruct H as [_ Hno]. exfalso. exact (Hno _ Hin).
Qed.

(** X10.  A policy with a template that does not compile, in any of the
    three dimensions, is never created, whatever the backend answers:
    [Create] does not return nil and the committed tables stay as they
    were. *)
Lemma uncompilable_policy_is_not_created policy w t template e :
  In template (dimension policy t) ->
  compiler_CompileRegex template (GetStartDelimiter policy)
                        (GetEndDelimiter policy) = inl e ->
  fst (Create policy w) <> Ret (Ok tt)
  /\ store (snd (Create policy w)) = store w.
Proof.
  intros Hin Hc. destruct (Create_spec policy w) as [new [_ H]].
  destruct (fst (Create policy w)) as [[[]|e']|].
  - exfalso.
    destruct H as (_ & _ & conditions & subjects & permissions & resources
                   & _ & _ & _ & _ & F1 & F2 & F3 & _).
    assert (Hl : exists l, link_of policy template l).
    { destruct t; simpl in Hin;
        [destruct (Forall2_link_of_In _ _ _ _ F1 Hin) as [l [_ Hl]]
        |destruct (Forall2_link_of_In _ _ _ _ F2 Hin) as [l [_ Hl]]
        |destruct (Forall2_link_of_In _ _ _ _ F3 Hin) as [l [_ Hl]]];
        exists l; exact Hl. }
    destruct Hl as [l (_ & _ & Hl)]. congruence.
  - destruct H as [Hs _]. split; [discriminate|exact Hs].
  - destruct H as [Hs _]. split; [discriminate|exact Hs].
Qed.

(** C6.  What the code does when the first subject template does not
    compile, the backend answering without failure: [Create] panics after
    the insert of the policy row; no rollback is called and no error is
    returned.  Nothing is committed. *)
Theorem Create_panics_when_compilation_fails
        (policy : Policy) (d : Database) (conditions template : string)
        (rest : list string) (e : error) :
  conditions_blob policy = inr conditions ->
  has_policy d (GetID policy) = false ->
  effect_ok (GetEffect policy) = true ->
  GetSubjects policy = template :: rest ->
  compiler_CompileRegex template (GetStartDelimiter policy)
                        (GetEndDelimiter policy) = inl e ->
  Create policy (healthy d)
  = (Panic, {| store := d; faults := []; breaks := [];
               calls := [(OpBegin, None); (OpExec, None)] |}).
Proof.
  intros Hb Hf He Hs Hc. unfold Create. fold (conditions_blob policy).
  rewrite Hb. unfold db_Begin, tx_Exec, healthy. run.
  rewrite Hf, He, Hs. simpl. unfold bind. rewrite Hc. reflexivity.
Qed.

Lemma has_policy_set_links d t rows id :
  has_policy (set_links d t rows) id = has_policy d id.
Proof. destruct t; reflexivity. Qed.

Lemma links_set_links_other d t t' rows :
  t <> t' -> links (set_links d t rows) t' = links d t'.
Proof. destruct t, t'; intros H; try reflexivity; contradiction. Qed.

Lemma createLink_healthy_ok t p ts : forall tx d cs,
  tx_done tx = false ->
  has_policy (tx_data tx) (GetID p) = true ->
  NoDup ts ->
  (forall template, In template ts ->
     exists reg, compiler_CompileRegex template (GetStartDelimiter p)
                                        (GetEndDelimiter p) = inr reg) ->
  (forall l, In l (links (tx_data tx) t) -> link_policy l = GetID p ->
             ~ In (link_template l) ts) ->
  exists tx' cs',
    createLink tx t p ts
               {| store := d; faults := []; breaks := []; calls := cs |}
    = (Ret (Ok tt, tx'),
       {| store := d; faults := []; breaks := []; calls := cs' |}).
Proof.
  induction ts as [|template rest IH]; intros tx d cs Hd Hp Hnd Hc Hfresh.
  - do 2 eexists. reflexivity.
  - cbn [createLink].
    destruct (Hc template (or_introl eq_refl)) as [reg ->].
    unfold tx_Exec. rewrite Hd. run. rewrite Hp.
    assert (E : existsb (same_link {| link_compiled := reg;
                                      link_template := template;
                                      link_policy := GetID p |})
                        (links (tx_data tx) t) = false).
    { destruct (existsb _ _) eqn:E; [|reflexivity].
      apply existsb_exists in E. destruct E as [l [Hl Hs]].
      unfold same_link in Hs. simpl in Hs. apply andb_prop in Hs.
      destruct Hs as [H1 H2]. apply String.eqb_eq in H1, H2.
      exfalso. apply (Hfresh l Hl); [congruence|]. left. congruence. }
    rewrite E. simpl. inversion Hnd as [|x xs Hnotin Hnd']. subst.
    apply IH; simpl; auto.
    + rewrite has_policy_set_links. exact Hp.
    + rewrite links_set_links. intros l Hl Hpol Hin.
      apply in_app_or in Hl. destruct Hl as [Hl|[<-|[]]].
      * apply (Hfresh l Hl Hpol). right. exact Hin.
      * simpl in Hin. contradiction.
Qed.

Lemma createLink_healthy t p ts tx d cs :
  tx_done tx = false ->
  has_policy (tx_data tx) (GetID p) = true ->
  NoDup ts ->
  (forall template, In template ts ->
     exists reg, compiler_CompileRegex template (GetStartDelimiter p)
                                        (GetEndDelimiter p) = inr reg) ->
  (forall l, In l (links (tx_data tx) t) -> link_policy l <> GetID p) ->
  exists tx' cs' rows,
    createLink tx t p ts
               {| store := d; faults := []; breaks := []; calls := cs |}
    = (Ret (Ok tt, tx'),
       {| store := d; faults := []; breaks := []; calls := cs' |})
    /\ tx_done tx' = false
    /\ tx_data tx' = set_links (tx_data tx) t (links (tx_data tx) t ++ rows)
    /\ Forall2 (link_of p) ts rows.
Proof.
  intros Hd Hp Hnd Hc Hfresh.
  destruct (createLink_healthy_ok t p ts tx d cs Hd Hp Hnd Hc) as [tx' [cs' E]].
  { intros l Hl Hpol _. exact (Hfresh l Hl Hpol). }
  pose proof (createLink_spec
                t p ts tx
                {| store := d; faults := []; breaks := []; calls := cs |})
    as [_ [new [_ H]]].
  rewrite E in H. cbn [fst] in H.
  destruct H as (_ & Hd' & rows & Hrows & F & _).
  exists tx', cs', rows. repeat split; try assumption. congruence.
Qed.

Lemma no_links_of_fresh d t id :
  store_ok d = true -> has_policy d id = false ->
  forall l, In l (links d t) -> link_policy l <> id.
Proof.
  intros Hok Hf l Hl Heq. pose proof (store_ok_fk d t l Hok Hl) as H.
  rewrite Heq in H. congruence.
Qed.

Lemma valid_blob policy :
  valid policy ->
  exists conditions,
    conditions_blob policy = inr conditions
    /\ json_Unmarshal conditions = inr (conditions_of policy).
Proof.
  intros (_ & _ & _ & H). unfold conditions_blob, conditions_of.
  destruct (GetConditions policy) as [cs|].
  - destruct H as [blob [H1 H2]]. exists blob. auto.
  - exists "[]". auto.
Qed.

Lemma Create_healthy_ok policy d :
  valid policy ->
  store_ok d = true ->
  has_policy d (GetID policy) = false ->
  fst (Create policy (healthy d)) = Ret (Ok tt).
Proof.
  intros Hv Hok Hf.
  destruct (valid_blob policy Hv) as [conditions [Hb _]].
  destruct Hv as (He & Hnd & Hc & _).
  unfold Create. fold (conditions_blob policy). rewrite Hb.
  unfold db_Begin, healthy. run.
  fold (policy_row policy conditions).
  unfold tx_Exec. run. rewrite Hf, He. simpl.
  set (d1 := {| ladon_policy := ladon_policy d ++ [policy_row policy conditions];
                subject_rows := subject_rows d;
                permission_rows := permission_rows d;
                resource_rows := resource_rows d |}).
  assert (Hp1 : has_policy d1 (GetID policy) = true).
  { unfold has_policy, d1. simpl. rewrite existsb_app. simpl.
    rewrite String.eqb_refl. apply orb_true_iff. right. reflexivity. }
  destruct (createLink_healthy ladon_policy_subject policy (GetSubjects policy)
              {| tx_done := false; tx_data := d1 |} d
              [(OpBegin, None); (OpExec, None)])
    as (tx2 & cs2 & rows2 & E2 & Hd2 & Hdata2 & _); auto.
  { apply (Hnd ladon_policy_subject). }
  { apply (Hc ladon_policy_subject). }
  { apply (no_links_of_fresh d ladon_policy_subject); assumption. }
  rewrite E2.
  destruct (createLink_healthy ladon_policy_permission policy
              (GetPermissions policy) tx2 d cs2)
    as (tx3 & cs3 & rows3 & E3 & Hd3 & Hdata3 & _); auto.
  { rewrite Hdata2, has_policy_set_links. exact Hp1. }
  { apply (Hnd ladon_policy_permission). }
  { apply (Hc ladon_policy_permission). }
  { rewrite Hdata2, links_set_links_other by discriminate.
    apply (no_links_of_fresh d ladon_policy_permission); assumption. }
  rewrite E3.
  destruct (createLink_healthy ladon_policy_resource policy
              (GetResources policy) tx3 d cs3)
    as (tx4 & cs4 & rows4 & E4 & Hd4 & Hdata4 & _); auto.
  { rewrite Hdata3, has_policy_set_links, Hdata2, has_policy_set_links.
    exact Hp1. }
  { apply (Hnd ladon_policy_resource). }
  { apply (Hc ladon_policy_resource). }
  { rewrite Hdata3, links_set_links_other by discriminate.
    rewrite Hdata2, links_set_links_other by discriminate.
    apply (no_links_of_fresh d ladon_policy_resource); assumption. }
  rewrite E4. unfold tx_Commit. rewrite Hd4. reflexivity.
Qed.

Lemma find_app_fresh (rows : list PolicyRow) row :
  existsb (fun r => row_id r =? row_id row) rows = false ->
  List.find (fun r => row_id r =? row_id row) (rows ++ [row]) = Some row.
Proof.
  induction rows as [|r rows IH]; simpl.
  - rewrite String.eqb_refl. reflexivity.
  - destruct (row_id r =? row_id row); [discriminate|exact IH].
Qed.

Lemma linked_templates p ts rows :
  Forall2 (link_of p) ts rows ->
  map link_template (filter (fun l => link_policy l =? GetID p) rows) = ts.
Proof.
  induction 1 as [|template l ts rows (Ht & Hp & _) _ IH]; [reflexivity|].
  simpl. rewrite Hp, String.eqb_refl. simpl. rewrite Ht, IH. reflexivity.
Qed.

Lemma linked_after_insert p (old : list LinkRow) ts rows :
  (forall l, In l old -> link_policy l <> GetID p) ->
  Forall2 (link_of p) ts rows ->
  map link_template (filter (fun l => link_policy l =? GetID p) (old ++ rows))
  = ts.
Proof.
  intros Hold F. rewrite filter_app.
  assert (E : filter (fun l => link_policy l =? GetID p) old = []).
  { apply filter_nil_iff. intros l Hl. apply String.eqb_neq. exact (Hold l Hl). }
  rewrite E. simpl. apply linked_templates. exact F.
Qed.

(** C2.  A valid policy with non-empty subjects, resources and
    permissions, whose id is a uuid in the form the column gives back and is
    not stored yet, on tables that satisfy the schema and a backend that
    answers without failure: [Create] succeeds, and [Get] on its id then
    returns a record with the same id, description, effect and conditions,
    and in each dimension the same templates up to order. *)
Theorem Create_then_Get_round_trip (policy : Policy) (d : Database) :
  valid policy ->
  canonical_uuid (GetID policy) = true ->
  (forall t, dimension policy t <> []) ->
  store_ok d = true ->
  has_policy d (GetID policy) = false ->
  fst (Create policy (healthy d)) = Ret (Ok tt)
  /\ exists p,
       fst (Get (GetID policy)
                (healthy (store (snd (Create policy (healthy d))))))
       = Ret (Ok p)
       /\ ID p = GetID policy
       /\ Description p = GetDescription policy
       /\ Effect p = GetEffect policy
       /\ Conditions p = conditions_of policy
       /\ forall t, Permutation (templates_of p t) (dimension policy t).
Proof.
  intros Hv _ _ Hok Hf.
  pose proof (Create_healthy_ok policy d Hv Hok Hf) as Hcreate.
  split; [exact Hcreate|].
  destruct (Create_spec policy (healthy d)) as [new [_ H]].
  rewrite Hcreate in H.
  destruct H as (_ & _ & conditions & subjects & permissions & resources
                 & Hb & _ & _ & Hs & F1 & F2 & F3 & _).
  destruct (valid_blob policy Hv) as [conditions' [Hb' Hu]].
  assert (conditions' = conditions) by congruence. subst conditions'.
  rewrite Hs, Get_healthy_fst. unfold record_of. cbn [ladon_policy store healthy].
  change (GetID policy) with (row_id (policy_row policy conditions)) at 1.
  rewrite find_app_fresh by exact Hf.
  cbn [row_conditions policy_row]. rewrite Hu.
  eexists. split; [reflexivity|]. cbn.
  repeat split.
  intros t. destruct t; cbn.
  - rewrite (linked_after_insert policy (subject_rows d) _ _
               (no_links_of_fresh d ladon_policy_subject _ Hok Hf) F1).
    apply Permutation_refl.
  - rewrite (linked_after_insert policy (permission_rows d) _ _
               (no_links_of_fresh d ladon_policy_permission _ Hok Hf) F2).
    apply Permutation_refl.
  - rewrite (linked_after_insert policy (resource_rows d) _ _
               (no_links_of_fresh d ladon_policy_resource _ Hok Hf) F3).
    apply Permutation_refl.
Qed.

(** *** The schema is kept *)

Lemma distinct_snoc l x :
  distinct l = true -> existsb (String.eqb x) l = false ->
  distinct (l ++ [x]) = true.
Proof.
  induction l as [|y l IH]; intros Hd Hn; [reflexivity|].
  simpl in Hd, Hn |- *. apply andb_prop in Hd. destruct Hd as [H1 H2].
  apply orb_false_iff in Hn. destruct Hn as [H3 H4].
  rewrite existsb_app. simpl. rewrite (String.eqb_sym y x), H3.
  apply negb_true_iff in H1. rewrite H1. simpl. apply IH; assumption.
Qed.

Lemma has_policy_ids d id :
  has_policy d id = existsb (String.eqb id) (map row_id (ladon_policy d)).
Proof.
  unfold has_policy. induction (ladon_policy d) as [|r rows IH]; [reflexivity|].
  simpl. rewrite IH, (String.eqb_sym (row_id r)). reflexivity.
Qed.

Lemma existsb_filter_false {A : Type} (f g : A -> bool) l :
  existsb f l = false -> existsb f (filter g l) = false.
Proof.
  induction l as [|a l IH]; [reflexivity|]. simpl. intros H.
  apply orb_false_iff in H. destruct H as [H1 H2].
  destruct (g a); simpl; [rewrite H1|]; auto.
Qed.

Lemma distinct_map_filter (g : PolicyRow -> bool) rows :
  distinct (map row_id rows) = true ->
  distinct (map row_id (filter g rows)) = true.
Proof.
  induction rows as [|r rows IH]; [reflexivity|]. simpl. intros H.
  apply andb_prop in H. destruct H as [H1 H2].
  destruct (g r); simpl; [|auto]. rewrite IH by assumption.
  apply negb_true_iff in H1. rewrite andb_true_r. apply negb_true_iff.
  clear - H1. induction rows as [|x rows IHr]; [reflexivity|].
  simpl in H1 |- *. apply orb_false_iff in H1. destruct H1 as [H1 H2].
  destruct (g x); simpl; [rewrite H1|]; auto.
Qed.

Lemma distinct_links_filter (g : LinkRow -> bool) ls :
  distinct_links ls = true -> distinct_links (filter g ls) = true.
Proof.
  induction ls as [|l ls IH]; [reflexivity|]. simpl. intros H.
  apply andb_prop in H. destruct H as [H1 H2].
  destruct (g l); simpl; [|auto]. rewrite IH by assumption.
  apply negb_true_iff in H1.
  rewrite (existsb_filter_false _ g _ H1). reflexivity.
Qed.

Lemma forallb_filter {A : Type} (f g : A -> bool) l :
  forallb f l = true -> forallb f (filter g l) = true.
Proof.
  induction l as [|a l IH]; [reflexivity|]. simpl. intros H.
  apply andb_prop in H. destruct H as [H1 H2].
  destruct (g a); simpl; [rewrite H1|]; auto.
Qed.

Lemma store_ok_empty : store_ok empty_db = true.
Proof. reflexivity. Qed.

(** Deleting a policy keeps the schema: the link rows go with the row. *)
Lemma DeletePolicy_store_ok d id d' :
  exec_stmt (DeletePolicy id) d = Ok d' ->
  store_ok d = true -> store_ok d' = true.
Proof.
  simpl. intros H Hok. injection H as <-.
  apply store_ok_parts in Hok. destruct Hok as (H1 & H2 & H3 & H4 & H5).
  assert (T : forall t,
             table_ok d t = true ->
             distinct_links (filter (fun l => negb (link_policy l =? id)) (links d t))
             = true
             /\ forallb
                  (fun l => existsb (fun r => row_id r =? link_policy l)
                                    (filter (fun r => negb (row_id r =? id))
                                            (ladon_policy d)))
                  (filter (fun l => negb (link_policy l =? id)) (links d t))
                = true).
  { intros t Ht. unfold table_ok in Ht. apply andb_prop in Ht.
    destruct Ht as [Ht1 Ht2]. split; [apply distinct_links_filter, Ht1|].
    apply forallb_forall. intros l Hl. apply filter_In in Hl.
    destruct Hl as [Hl Hne]. rewrite forallb_forall in Ht2.
    specialize (Ht2 l Hl). unfold has_policy in Ht2.
    apply existsb_exists in Ht2. destruct Ht2 as [r [Hr Heq]].
    apply existsb_exists. exists r. split; [|exact Heq].
    apply filter_In. split; [exact Hr|].
    apply String.eqb_eq in Heq. rewrite Heq. exact Hne. }
  unfold store_ok, table_ok, has_policy. cbn [ladon_policy links subject_rows
    permission_rows resource_rows].
  rewrite (distinct_map_filter _ _ H1), (forallb_filter _ _ _ H2).
  destruct (T _ H3) as [A1 A2]. destruct (T _ H4) as [B1 B2].
  destruct (T _ H5) as [C1 C2]. cbn [links] in A1, A2, B1, B2, C1, C2.
  rewrite A1, A2, B1, B2, C1, C2. reflexivity.
Qed.

(** [Delete] keeps the schema, whatever the backend answers. *)
Lemma Delete_keeps_store_ok id w :
  store_ok (store w) = true ->
  store_ok (store (snd (Delete id w))) = true.
Proof.
  destruct w as [d fl bs cs]. unfold Delete, db_Exec. run. intros Hok.
  destruct fl as [|[e|] fl]; simpl; try exact Hok;
    eapply DeletePolicy_store_ok; eauto; reflexivity.
Qed.

(** [Create] keeps the schema, whatever the backend answers, when the
    conditions it serializes can be read back. *)
Lemma Create_keeps_store_ok policy w :
  store_ok (store w) = true ->
  (forall blob, conditions_blob policy = inr blob ->
                exists cs, json_Unmarshal blob = inr cs) ->
  store_ok (store (snd (Create policy w))) = true.
Proof.
  intros Hok Hblob. destruct (Create_spec policy w) as [new [_ H]].
  destruct (fst (Create policy w)) as [[[]|e]|].
  2, 3: destruct H as [-> _]; exact Hok.
  destruct H as (_ & _ & conditions & subjects & permissions & resources
                 & Hb & Hfresh & Heff & Hs & F1 & F2 & F3 & Hdist).
  pose proof (store_ok_parts _ Hok) as (H1 & H2 & H3 & H4 & H5).
  assert (Hp : forall id, has_policy (store w) id = true ->
                          has_policy (store (snd (Create policy w))) id = true).
  { intros id Hid. rewrite Hs. unfold has_policy in *. simpl.
    rewrite existsb_app, Hid. reflexivity. }
  assert (Hnew : has_policy (store (snd (Create policy w))) (GetID policy)
                 = true).
  { rewrite Hs. unfold has_policy. simpl. rewrite existsb_app. simpl.
    rewrite String.eqb_refl. apply orb_true_iff. right. reflexivity. }
  assert (T : forall t ts rows,
             table_ok (store w) t = true ->
             links (store (snd (Create policy w))) t = links (store w) t ++ rows ->
             Forall2 (link_of policy) ts rows ->
             table_ok (store (snd (Create policy w))) t = true).
  { intros t ts rows Ht Hl F. unfold table_ok in Ht |- *.
    apply andb_prop in Ht. destruct Ht as [Ht1 Ht2].
    rewrite (Hdist t Ht1). simpl. rewrite Hl, forallb_app.
    apply andb_true_iff. split.
    - apply forallb_forall. intros l Hin. rewrite forallb_forall in Ht2.
      apply Hp, Ht2, Hin.
    - apply forallb_forall. intros l Hin.
      destruct (Forall2_In_r _ _ _ _ F Hin) as [tpl [_ (_ & Hpol & _)]].
      rewrite Hpol. exact Hnew. }
  assert (T1 := T ladon_policy_subject _ subjects H3
                  ltac:(rewrite Hs; reflexivity) F1).
  assert (T2 := T ladon_policy_permission _ permissions H4
                  ltac:(rewrite Hs; reflexivity) F2).
  assert (T3 := T ladon_policy_resource _ resources H5
                  ltac:(rewrite Hs; reflexivity) F3).
  unfold store_ok. rewrite T1, T2, T3, !andb_true_r.
  rewrite Hs. cbn [ladon_policy]. rewrite map_app, forallb_app. cbn [map forallb].
  rewrite distinct_snoc, H2; try assumption.
  - cbn [policy_row row_effect]. rewrite Heff. unfold decodes.
    cbn [row_conditions policy_row]. destruct (Hblob _ Hb) as [cs ->].
    reflexivity.
  - rewrite <- has_policy_ids. exact Hfresh.
Qed.

(** *** Delete *)

Lemma Delete_healthy d id cs :
  Delete id {| store := d; faults := []; breaks := []; calls := cs |}
  = (Ret (Ok tt),
     {| store := without d id; faults := []; breaks := [];
        calls := cs ++ [(OpExec, None)] |}).
Proof. reflexivity. Qed.

Lemma links_without d id t :
  links (without d id) t
  = filter (fun l => negb (link_policy l =? id)) (links d t).
Proof. destruct t; reflexivity. Qed.

Lemma has_policy_without_same d id : has_policy (without d id) id = false.
Proof.
  unfold has_policy, without. cbn [ladon_policy].
  induction (ladon_policy d) as [|r rows IH]; [reflexivity|].
  cbn [filter]. destruct (row_id r =? id) eqn:E; cbn [negb]; [exact IH|].
  cbn [existsb]. rewrite E. exact IH.
Qed.

Lemma has_policy_without_other d id id' :
  id' <> id -> has_policy (without d id) id' = has_policy d id'.
Proof.
  intros Hne. unfold has_policy, without. cbn [ladon_policy].
  induction (ladon_policy d) as [|r rows IH]; [reflexivity|].
  cbn [filter existsb]. destruct (row_id r =? id) eqn:E; cbn [negb].
  - apply String.eqb_eq in E.
    assert (N : (row_id r =? id') = false).
    { apply String.eqb_neq. congruence. }
    rewrite N. exact IH.
  - cbn [existsb]. rewrite IH. reflexivity.
Qed.

Lemma row_of_without_other d id id' :
  id' <> id -> row_of (without d id) id' = row_of d id'.
Proof.
  intros Hne. unfold row_of, without. cbn [ladon_policy].
  induction (ladon_policy d) as [|r rows IH]; [reflexivity|].
  cbn [filter List.find]. destruct (row_id r =? id) eqn:E; cbn [negb].
  - apply String.eqb_eq in E.
    assert (N : (row_id r =? id') = false).
    { apply String.eqb_neq. congruence. }
    rewrite N. exact IH.
  - cbn [List.find]. rewrite IH. reflexivity.
Qed.

Lemma filter_twice {A : Type} (f g : A -> bool) l :
  (forall x, f x = true -> g x = true) ->
  filter f (filter g l) = filter f l.
Proof.
  intros H. induction l as [|a l IH]; [reflexivity|].
  cbn [filter]. destruct (g a) eqn:Eg; cbn [filter].
  - rewrite IH. reflexivity.
  - destruct (f a) eqn:Ef; [|exact IH].
    rewrite (H a Ef) in Eg. discriminate.
Qed.

Lemma filter_all {A : Type} (f : A -> bool) l :
  (forall x, In x l -> f x = true) -> filter f l = l.
Proof.
  induction l as [|a l IH]; intros H; [reflexivity|].
  cbn [filter]. rewrite (H a (or_introl eq_refl)), IH; [reflexivity|].
  intros x Hx. apply H. right. exact Hx.
Qed.

Lemma linked_without_other d id id' t :
  id' <> id ->
  eval_query (SelectLinked t id') (without d id)
  = eval_query (SelectLinked t id') d.
Proof.
  intros Hne. cbn [eval_query]. rewrite links_without, filter_twice;
    [reflexivity|].
  intros l Hl. apply String.eqb_eq in Hl. apply negb_true_iff.
  apply String.eqb_neq. congruence.
Qed.

Lemma record_of_without_other d id id' :
  id' <> id -> record_of (without d id) id' = record_of d id'.
Proof.
  intros Hne. unfold record_of. fold (row_of (without d id) id').
  fold (row_of d id'). rewrite (row_of_without_other _ _ _ Hne).
  rewrite !(linked_without_other _ _ _ _ Hne). reflexivity.
Qed.

Lemma without_twice d id : without (without d id) id = without d id.
Proof.
  unfold without. cbn [ladon_policy subject_rows permission_rows resource_rows].
  rewrite !filter_twice; auto.
Qed.

Lemma without_missing d id :
  store_ok d = true -> has_policy d id = false -> without d id = d.
Proof.
  intros Hok Hf.
  assert (L : forall t,
             filter (fun l => negb (link_policy l =? id)) (links d t)
             = links d t).
  { intros t. apply filter_all. intros l Hl. apply negb_true_iff.
    apply String.eqb_neq. exact (no_links_of_fresh d t id Hok Hf l Hl). }
  assert (R : filter (fun r => negb (row_id r =? id)) (ladon_policy d)
              = ladon_policy d).
  { apply filter_all. intros r Hr. apply negb_true_iff.
    destruct (row_id r =? id) eqn:E; [|reflexivity].
    apply String.eqb_eq in E. subst id.
    rewrite (row_has_policy _ _ Hr) in Hf. discriminate. }
  pose proof (L ladon_policy_subject) as L1.
  pose proof (L ladon_policy_permission) as L2.
  pose proof (L ladon_policy_resource) as L3.
  cbn [links] in L1, L2, L3. unfold without. rewrite R, L1, L2, L3.
  destruct d; reflexivity.
Qed.

(** X1.  On a backend that answers without failure, [Delete] returns nil
    and [Get] on the id then returns [pkg.ErrNotFound], whatever the tables
    held. *)
Theorem Delete_then_Get_is_not_found (d : Database) (id : string) :
  fst (Delete id (healthy d)) = Ret (Ok tt)
  /\ fst (Get id (healthy (store (snd (Delete id (healthy d))))))
     = Ret (Err pkg_ErrNotFound).
Proof.
  unfold healthy at 1 3. rewrite Delete_healthy. cbn [fst snd store].
  split; [reflexivity|]. rewrite Get_healthy_fst. unfold record_of.
  fold (row_of (without d id) id).
  destruct (row_of (without d id) id) as [row|] eqn:E; [|reflexivity].
  apply row_of_Some in E. destruct E as [Hin <-].
  pose proof (row_has_policy _ _ Hin) as H.
  rewrite has_policy_without_same in H. discriminate.
Qed.

(** X2.  [Delete] of an id that is not stored is no error: on tables that
    satisfy the schema and a backend that answers without failure it
    returns nil and leaves the tables as they were. *)
Theorem Delete_of_a_missing_id_changes_nothing (d : Database) (id : string) :
  store_ok d = true ->
  has_policy d id = false ->
  fst (Delete id (healthy d)) = Ret (Ok tt)
  /\ store (snd (Delete id (healthy d))) = d.
Proof.
  intros Hok Hf. unfold healthy. rewrite Delete_healthy. cbn [fst snd store].
  split; [reflexivity|apply without_missing; assumption].
Qed.

(** X3.  A second [Delete] of the same id returns nil and changes nothing
    more. *)
Theorem Delete_twice_is_Delete_once (d : Database) (id : string) :
  fst (Delete id (healthy (store (snd (Delete id (healthy d))))))
  = Ret (Ok tt)
  /\ store (snd (Delete id (healthy (store (snd (Delete id (healthy d)))))))
     = store (snd (Delete id (healthy d))).
Proof.
  unfold healthy. rewrite !Delete_healthy. cbn [fst snd store].
  split; [reflexivity|apply without_twice].
Qed.

(** X4.  [Delete] of one policy leaves what [Get] returns for every other
    id as it was. *)
Theorem Delete_leaves_other_policies (d : Database) (id id' : string) :
  id' <> id ->
  fst (Get id' (healthy (store (snd (Delete id (healthy d))))))
  = fst (Get id' (healthy d)).
Proof.
  intros Hne. unfold healthy at 2. rewrite Delete_healthy. cbn [snd store].
  rewrite !Get_healthy_fst, (record_of_without_other _ _ _ Hne). reflexivity.
Qed.

(** *** FindPoliciesForSubject, one id at a time *)

Lemma Find_healthy_records d s :
  fst (FindPoliciesForSubject s (healthy d))
  = Ret (records d (subject_ids d s ++ global_ids d) []).
Proof.
  unfold FindPoliciesForSubject, find, db_Query, healthy. run.
  match goal with
  | |- context [hydrate ?ids ?acc ?w] =>
      destruct (hydrate_healthy d ids acc (calls w)) as [cs' E]
  end.
  simpl in E. rewrite E. reflexivity.
Qed.

Lemma records_Ok_iff d ids : forall acc l,
  records d ids acc = Ok l
  <-> exists ps, l = acc ++ ps
                 /\ Forall2 (fun id p => record_of d id = Ok p) ids ps.
Proof.
  induction ids as [|id rest IH]; intros acc l; cbn [records].
  - split.
    + intros H. injection H as <-. exists []. rewrite app_nil_r.
      split; [reflexivity|constructor].
    + intros [ps [-> F]]. inversion F. rewrite app_nil_r. reflexivity.
  - destruct (record_of d id) as [p|e] eqn:E.
    + rewrite IH. split.
      * intros [ps [-> F]]. exists (p :: ps). rewrite <- app_assoc.
        split; [reflexivity|]. constructor; assumption.
      * intros [ps [-> F]]. inversion F as [|i q ids' qs Hq Hqs]. subst.
        assert (q = p) by congruence. subst q.
        exists qs. rewrite <- app_assoc. split; [reflexivity|assumption].
    + split; [discriminate|]. intros [ps [_ F]].
      inversion F as [|i q ids' qs Hq Hqs]. congruence.
Qed.

Lemma records_Err d ids : forall acc e,
  records d ids acc = Err e ->
  exists id, In id ids /\ record_of d id = Err e.
Proof.
  induction ids as [|id rest IH]; intros acc e; cbn [records];
    [discriminate|].
  destruct (record_of d id) as [p|e'] eqn:E.
  - intros H. destruct (IH _ _ H) as [i [Hi Hr]]. exists i.
    split; [right; exact Hi|exact Hr].
  - intros H. injection H as <-. exists id. split; [left; reflexivity|exact E].
Qed.

(** X14.  On a backend that answers without failure,
    [FindPoliciesForSubject] returns the records [Get] returns for the ids
    of its two queries, the matching subject rows first and the global
    policies after them, in that order; it fails only with the error of a
    [Get] on one of these ids, and it does not panic. *)
Theorem FindPoliciesForSubject_is_Get_on_each_id (d : Database) (s : string) :
  (forall ps,
      fst (FindPoliciesForSubject s (healthy d)) = Ret (Ok ps)
      <-> Forall2 (fun id p => fst (Get id (healthy d)) = Ret (Ok p))
                  (eval_query (SelectSubjectMatch s) d
                   ++ eval_query SelectGlobals d) ps)
  /\ (forall e,
        fst (FindPoliciesForSubject s (healthy d)) = Ret (Err e) ->
        exists id,
          In id (eval_query (SelectSubjectMatch s) d
                 ++ eval_query SelectGlobals d)
          /\ fst (Get id (healthy d)) = Ret (Err e))
  /\ fst (FindPoliciesForSubject s (healthy d)) <> Panic.
Proof.
  rewrite Find_healthy_records. fold (subject_ids d s). fold (global_ids d).
  split; [|split].
  - intros ps. split.
    + intros H. injection H as H. apply records_Ok_iff in H.
      destruct H as [qs [-> F]]. cbn [app].
      revert F. apply Forall2_impl. intros id p Hr.
      rewrite Get_healthy_fst, Hr. reflexivity.
    + intros F. f_equal. apply records_Ok_iff. exists ps.
      split; [reflexivity|].
      revert F. apply Forall2_impl. intros id p Hg.
      rewrite Get_healthy_fst in Hg. injection Hg as Hg. exact Hg.
  - intros e H. injection H as H. apply records_Err in H.
    destruct H as [id [Hin Hr]]. exists id. split; [exact Hin|].
    rewrite Get_healthy_fst, Hr. reflexivity.
  - discriminate.
Qed.

Lemma filter_map_swap {A B : Type} (f : A -> B) (g : B -> bool) l :
  filter g (map f l) = map f (filter (fun x => g (f x)) l).
Proof.
  induction l as [|a l IH]; [reflexivity|]. cbn [map filter].
  destruct (g (f a)); cbn [map]; rewrite IH; reflexivity.
Qed.

Lemma filter_comm {A : Type} (f g : A -> bool) l :
  filter f (filter g l) = filter g (filter f l).
Proof.
  induction l as [|a l IH]; [reflexivity|]. cbn [filter].
  destruct (f a) eqn:Ef, (g a) eqn:Eg; cbn [filter]; rewrite ?Ef, ?Eg, IH;
    reflexivity.
Qed.

Lemma subject_ids_without d id s :
  subject_ids (without d id) s
  = filter (fun i => negb (i =? id)) (subject_ids d s).
Proof.
  unfold subject_ids, eval_query, without. cbn [subject_rows].
  rewrite filter_map_swap, filter_comm. reflexivity.
Qed.

Lemma unrestricted_without d id p :
  row_id p <> id -> unrestricted (without d id) p = unrestricted d p.
Proof.
  intros Hne. unfold unrestricted, without. cbn [subject_rows].
  induction (subject_rows d) as [|l ls IH]; [reflexivity|].
  cbn [filter forallb]. destruct (link_policy l =? id) eqn:E; cbn [negb].
  - apply String.eqb_eq in E.
    assert (N : (row_id p =? link_policy l) = false).
    { apply String.eqb_neq. congruence. }
    rewrite N. cbn [negb andb]. exact IH.
  - cbn [forallb]. rewrite IH. reflexivity.
Qed.

Lemma global_ids_without d id :
  global_ids (without d id)
  = filter (fun i => negb (i =? id)) (global_ids d).
Proof.
  rewrite !global_ids_filter, filter_map_swap. f_equal.
  change (ladon_policy (without d id))
    with (filter (fun r => negb (row_id r =? id)) (ladon_policy d)).
  rewrite (filter_comm (fun r => negb (row_id r =? id)) (unrestricted d)).
  apply filter_ext_in. intros p Hp. apply filter_In in Hp.
  destruct Hp as [_ Hp]. apply unrestricted_without.
  apply negb_true_iff in Hp. apply String.eqb_neq. exact Hp.
Qed.

Lemma records_without d id ids : forall ps,
  Forall2 (fun i p => record_of d i = Ok p) ids ps ->
  Forall2 (fun i p => record_of (without d id) i = Ok p)
          (filter (fun i => negb (i =? id)) ids)
          (filter (fun p => negb (ID p =? id)) ps).
Proof.
  induction ids as [|i ids IH]; intros ps F; inversion F as [|a p l ps' Hp F'];
    subst; [constructor|].
  cbn [filter]. rewrite (record_of_ID _ _ _ Hp).
  destruct (i =? id) eqn:E; cbn [negb]; [apply IH; exact F'|].
  constructor; [|apply IH; exact F'].
  apply String.eqb_neq in E. rewrite (record_of_without_other _ _ _ E).
  exact Hp.
Qed.

Lemma same_record_refl p : same_record p p.
Proof. repeat split. intros t. apply Permutation_refl. Qed.

Lemma Forall2_same_record_refl ps : Forall2 same_record ps ps.
Proof. induction ps; constructor; [apply same_record_refl|assumption]. Qed.

(** X5.  After [Delete] of an id, [FindPoliciesForSubject] returns what it
    returned before without the records of that id: the records of the
    other policies, the order of the list and the order of the templates
    within a dimension apart. *)
Theorem Delete_removes_the_policy_from_the_results
        (d : Database) (id s : string) (ps : list DefaultPolicy) :
  fst (FindPoliciesForSubject s (healthy d)) = Ret (Ok ps) ->
  exists ps' kept,
    fst (FindPoliciesForSubject
           s (healthy (store (snd (Delete id (healthy d))))))
    = Ret (Ok ps')
    /\ Permutation ps' kept
    /\ Forall2 same_record kept (filter (fun p => negb (ID p =? id)) ps).
Proof.
  intros H. exists (filter (fun p => negb (ID p =? id)) ps),
              (filter (fun p => negb (ID p =? id)) ps).
  split; [|split; [apply Permutation_refl|apply Forall2_same_record_refl]].
  unfold healthy at 2. rewrite Delete_healthy. cbn [snd store].
  rewrite Find_healthy_records in H |- *. injection H as H.
  apply records_Ok_iff in H. destruct H as [qs [-> F]]. cbn [app].
  f_equal. apply records_Ok_iff. eexists. split; [reflexivity|].
  rewrite subject_ids_without, global_ids_without, <- filter_app.
  apply records_without. exact F.
Qed.

(** X15.  When the first or the second query of [FindPoliciesForSubject]
    fails, it returns that error ([pkg.ErrNotFound] for [sql.ErrNoRows],
    else the error wrapped) and sends nothing more to the backend: no [Get]
    is attempted. *)
Theorem FindPoliciesForSubject_stops_at_a_failed_query
        (w : World) (s : string) (k : nat) (e : error) :
  k < 2 ->
  (forall j, j < k -> nth j (faults w) None = None) ->
  nth k (faults w) None = Some e ->
  fst (FindPoliciesForSubject s w) = Ret (Err (surfaced e))
  /\ calls (snd (FindPoliciesForSubject s w))
     = calls w ++ repeat (OpQuery, None) k ++ [(OpQuery, Some e)].
Proof.
  intros Hk Hj Hn. destruct w as [d fl bs cs]. cbn [faults calls] in *.
  unfold FindPoliciesForSubject, find, db_Query. run.
  destruct k as [|[|k]]; [| |lia].
  - destruct fl as [|f0 fl]; [discriminate|].
    simpl in Hn. subst f0. simpl. destruct e; split; reflexivity.
  - pose proof (Hj 0 ltac:(lia)) as H0.
    destruct fl as [|f0 [|f1 fl]]; try discriminate.
    simpl in H0, Hn. subst f0 f1. destruct bs as [|b0 bs]; simpl;
      rewrite <- app_assoc; destruct e; split; reflexivity.
Qed.

(** *** What the reads leave alone *)

Lemma db_Query_store q w : store (snd (db_Query q w)) = store w.
Proof.
  destruct w as [d fl bs cs]. unfold db_Query. run.
  destruct fl as [|[e|] fl]; destruct bs as [|b bs]; reflexivity.
Qed.

Lemma getLinked_store t id w : store (snd (getLinked t id w)) = store w.
Proof.
  destruct w as [d fl bs cs]. unfold getLinked, db_Query. run.
  destruct fl as [|[e|] fl]; destruct bs as [|b bs]; simpl; try reflexivity;
    destruct e; reflexivity.
Qed.

Lemma find_store q w : store (snd (find q w)) = store w.
Proof.
  destruct w as [d fl bs cs]. unfold find, db_Query. run.
  destruct fl as [|[e|] fl]; destruct bs as [|b bs]; simpl; try reflexivity;
    destruct e; reflexivity.
Qed.

Lemma Get_store id w : store (snd (Get id w)) = store w.
Proof.
  unfold Get, bind, ret.
  destruct (db_QueryRow id w) as [[r|] w0] eqn:E0.
  2: { destruct w as [d fl bs cs]. unfold db_QueryRow in E0. run.
       destruct fl as [|[e|] fl]; simpl in E0;
         try destruct (List.find _ _); discriminate. }
  assert (S0 : store w0 = store w).
  { destruct w as [d fl bs cs]. unfold db_QueryRow in E0. run.
    destruct fl as [|[e|] fl]; simpl in E0;
      try destruct (List.find _ _); injection E0 as _ <-; reflexivity. }
  destruct r as [row|e]; [|destruct e; exact S0].
  destruct (json_Unmarshal _); [exact S0|].
  pose proof (getLinked_store ladon_policy_subject id w0) as S1.
  destruct (getLinked ladon_policy_subject id w0) as [[[l1|e1]|] w1];
    cbn [snd] in S1 |- *; try congruence.
  pose proof (getLinked_store ladon_policy_permission id w1) as S2.
  destruct (getLinked ladon_policy_permission id w1) as [[[l2|e2]|] w2];
    cbn [snd] in S2 |- *; try congruence.
  pose proof (getLinked_store ladon_policy_resource id w2) as S3.
  destruct (getLinked ladon_policy_resource id w2) as [[[l3|e3]|] w3];
    cbn [snd] in S3 |- *; congruence.
Qed.

Lemma hydrate_store ids : forall acc w,
  store (snd (hydrate ids acc w)) = store w.
Proof.
  induction ids as [|id rest IH]; intros acc w; [reflexivity|].
  cbn [hydrate]. unfold bind, ret. pose proof (Get_store id w) as S.
  destruct (Get id w) as [[[p|e]|] w1]; cbn [snd] in S |- *; try exact S.
  rewrite IH. exact S.
Qed.

(** X16.  [Get] and [FindPoliciesForSubject] leave the committed tables as
    they are, whatever the backend answers. *)
Theorem reads_leave_the_tables (w : World) (id s : string) :
  store (snd (Get id w)) = store w
  /\ store (snd (FindPoliciesForSubject s w)) = store w.
Proof.
  split; [apply Get_store|].
  unfold FindPoliciesForSubject, bind, ret.
  pose proof (find_store (SelectSubjectMatch s) w) as S1.
  destruct (find (SelectSubjectMatch s) w) as [[[l1|e1]|] w1];
    cbn [snd] in S1 |- *; try exact S1.
  pose proof (find_store SelectGlobals w1) as S2.
  destruct (find SelectGlobals w1) as [[[l2|e2]|] w2];
    cbn [snd] in S2 |- *; try congruence.
  rewrite hydrate_store. congruence.
Qed.

(** *** Create and the other policies *)

Lemma row_of_after_insert (rows : list PolicyRow) row id' :
  row_id row <> id' ->
  List.find (fun r => row_id r =? id') (rows ++ [row])
  = List.find (fun r => row_id r =? id') rows.
Proof.
  intros Hne. induction rows as [|r rows IH]; cbn [app List.find].
  - rewrite (proj2 (String.eqb_neq _ _) Hne). reflexivity.
  - destruct (row_id r =? id'); [reflexivity|exact IH].
Qed.

Lemma linked_of_another policy ts rows (old : list LinkRow) id' :
  GetID policy <> id' ->
  Forall2 (link_of policy) ts rows ->
  filter (fun l => link_policy l =? id') (old ++ rows)
  = filter (fun l => link_policy l =? id') old.
Proof.
  intros Hne F. rewrite filter_app.
  assert (E : filter (fun l => link_policy l =? id') rows = []).
  { apply filter_nil_iff. intros l Hl.
    destruct (Forall2_In_r _ _ _ _ F Hl) as [tpl [_ (_ & Hp & _)]].
    apply String.eqb_neq. congruence. }
  rewrite E, app_nil_r. reflexivity.
Qed.

(** X6.  [Create], whatever its outcome and whatever the backend answers,
    leaves what [Get] returns for every other id as it was. *)
Theorem Create_leaves_other_policies
        (policy : Policy) (w : World) (id' : string) :
  id' <> GetID policy ->
  fst (Get id' (healthy (store (snd (Create policy w)))))
  = fst (Get id' (healthy (store w))).
Proof.
  intros Hne. destruct (Create_spec policy w) as [new [_ H]].
  destruct (fst (Create policy w)) as [[[]|e]|].
  2, 3: destruct H as [-> _]; reflexivity.
  destruct H as (_ & _ & conditions & subjects & permissions & resources
                 & _ & _ & _ & Hs & F1 & F2 & F3 & _).
  rewrite Hs, !Get_healthy_fst. f_equal. unfold record_of.
  cbn [ladon_policy eval_query links subject_rows permission_rows
       resource_rows].
  assert (Hne' : GetID policy <> id') by congruence.
  rewrite (row_of_after_insert _ (policy_row policy conditions) id' Hne').
  rewrite (linked_of_another policy _ _ _ id' Hne' F1),
    (linked_of_another policy _ _ _ id' Hne' F2),
    (linked_of_another policy _ _ _ id' Hne' F3).
  reflexivity.
Qed.

(** *** The failures of Create *)

(** X7.  When the insert of the policy row fails (the backend refuses it,
    the id is stored already, or the effect is neither allow nor deny),
    [Create] returns that error at once: after Begin and the insert it
    calls neither Rollback nor Commit, and nothing is committed. *)
Theorem Create_ends_at_a_failed_policy_insert
        (policy : Policy) (w : World) (conditions : string) (e : error) :
  conditions_blob policy = inr conditions ->
  nth 0 (faults w) None = None ->
  nth 1 (faults w) None = Some e
  \/ (nth 1 (faults w) None = None
      /\ has_policy (store w) (GetID policy) = true
      /\ e = ErrOther "duplicate key value violates unique constraint")
  \/ (nth 1 (faults w) None = None
      /\ has_policy (store w) (GetID policy) = false
      /\ effect_ok (GetEffect policy) = false
      /\ e = ErrOther "new row violates check constraint") ->
  fst (Create policy w) = Ret (Err e)
  /\ store (snd (Create policy w)) = store w
  /\ calls (snd (Create policy w))
     = calls w ++ [(OpBegin, None); (OpExec, Some e)].
Proof.
  intros Hb H0 H1. destruct w as [d fl bs cs]. cbn [faults store calls] in *.
  unfold Create. fold (conditions_blob policy). rewrite Hb.
  unfold db_Begin, tx_Exec. run.
  destruct fl as [|f0 fl]; simpl in H0.
  - simpl in H1. destruct H1 as [H1|[(_ & Hp & ->)|(_ & Hp & He & ->)]];
      [discriminate| |]; simpl; rewrite Hp; rewrite ?He; simpl;
      rewrite <- app_assoc; repeat split; reflexivity.
  - subst f0. simpl. destruct fl as [|f1 fl]; simpl in H1.
    + destruct H1 as [H1|[(_ & Hp & ->)|(_ & Hp & He & ->)]];
        [discriminate| |]; simpl; rewrite Hp; rewrite ?He; simpl;
        rewrite <- app_assoc; repeat split; reflexivity.
    + destruct H1 as [->|[(-> & Hp & ->)|(-> & Hp & He & ->)]]; simpl;
        rewrite ?Hp; rewrite ?He; simpl; rewrite <- app_assoc;
        repeat split; reflexivity.
Qed.

Lemma no_commit_app a b : no_commit a -> no_commit b -> no_commit (a ++ b).
Proof.
  intros Ha Hb x Hin. apply in_app_or in Hin.
  destruct Hin as [Hin|Hin]; [exact (Ha x Hin)|exact (Hb x Hin)].
Qed.

Lemma createLink_no_commit t p ts : forall tx w,
  no_commit (calls w) -> no_commit (calls (snd (createLink tx t p ts w))).
Proof.
  induction ts as [|template rest IH]; intros tx w Hw; [exact Hw|].
  cbn [createLink].
  destruct (compiler_CompileRegex template _ _) as [e|reg]; [exact Hw|].
  unfold bind, ret.
  match goal with
  | |- context [tx_Exec tx ?s w] =>
      destruct (tx_Exec_spec tx s w) as (r & tx1 & w1 & E & _ & Hc & _)
  end.
  rewrite E.
  assert (H1 : no_commit (calls w1)).
  { rewrite Hc. apply no_commit_app; [exact Hw|].
    intros x [H|[]]. discriminate. }
  destruct r as [[]|err]; [apply IH; exact H1|].
  destruct (tx_Rollback_spec tx1 w1) as (rb & tx2 & w2 & E2 & _ & Hc2 & _).
  rewrite E2.
  assert (H2 : no_commit (calls w2)).
  { rewrite Hc2. apply no_commit_app; [exact H1|].
    intros x [H|[]]. discriminate. }
  destruct rb; exact H2.
Qed.

Lemma Create_commit_failure policy w :
  no_commit (calls w) ->
  forall e, In (OpCommit, Some e) (calls (snd (Create policy w))) ->
            fst (Create policy w) = Ret (Err sql_ErrTxDone)
            /\ In (OpRollback, Some sql_ErrTxDone)
                  (calls (snd (Create policy w))).
Proof.
  intros Hw e. unfold Create. fold (conditions_blob policy).
  destruct (conditions_blob policy) as [e0|conditions].
  { intros Hin. exfalso. exact (Hw _ Hin). }
  unfold bind, ret.
  destruct (db_Begin_spec w) as (r0 & w0 & E0 & _ & Hc0 & _). rewrite E0.
  assert (H0 : no_commit (calls w0)).
  { rewrite Hc0. apply no_commit_app; [exact Hw|].
    intros x [H|[]]. discriminate. }
  destruct r0 as [tx0|e0]; [|intros Hin; exfalso; exact (H0 _ Hin)].
  match goal with
  | |- context [tx_Exec tx0 ?s w0] =>
      destruct (tx_Exec_spec tx0 s w0) as (r1 & tx1 & w1 & E1 & _ & Hc1 & _)
  end.
  rewrite E1.
  assert (H1 : no_commit (calls w1)).
  { rewrite Hc1. apply no_commit_app; [exact H0|].
    intros x [H|[]]. discriminate. }
  destruct r1 as [[]|e1]; [|intros Hin; exfalso; exact (H1 _ Hin)].
  pose proof (createLink_no_commit ladon_policy_subject policy
                (GetSubjects policy) tx1 w1 H1) as H2.
  destruct (createLink tx1 ladon_policy_subject policy (GetSubjects policy) w1)
    as [[[[[]|e2] tx2]|] w2]; cbn [snd] in H2;
    try (intros Hin; exfalso; exact (H2 _ Hin)).
  pose proof (createLink_no_commit ladon_policy_permission policy
                (GetPermissions policy) tx2 w2 H2) as H3.
  destruct (createLink tx2 ladon_policy_permission policy
              (GetPermissions policy) w2)
    as [[[[[]|e3] tx3]|] w3]; cbn [snd] in H3;
    try (intros Hin; exfalso; exact (H3 _ Hin)).
  pose proof (createLink_no_commit ladon_policy_resource policy
                (GetResources policy) tx3 w3 H3) as H4.
  destruct (createLink tx3 ladon_policy_resource policy
              (GetResources policy) w3)
    as [[[[[]|e4] tx4]|] w4]; cbn [snd] in H4;
    try (intros Hin; exfalso; exact (H4 _ Hin)).
  destruct (tx_Commit_spec tx4 w4) as (r5 & tx5 & w5 & E5 & Hc5 & Hd5 & _).
  rewrite E5. destruct r5 as [[]|e5]; cbn [fst snd].
  - intros Hin. exfalso. rewrite Hc5 in Hin. apply in_app_or in Hin.
    destruct Hin as [Hin|[Hin|[]]]; [exact (H4 _ Hin)|discriminate].
  - destruct (tx_Rollback_spec tx5 w5) as (r6 & tx6 & w6 & E6 & _ & Hc6 & Hr6).
    rewrite E6. specialize (Hr6 Hd5). subst r6. cbn [fst snd].
    intros _. split; [reflexivity|]. rewrite Hc6. apply in_or_app.
    right. left. reflexivity.
Qed.

(** X9.  When Commit fails, [Create] calls Rollback on the transaction that
    Commit has finished, and returns the error of that Rollback,
    [sql.ErrTxDone]: the error of Commit is not returned.  Nothing is
    committed. *)
Theorem failed_commit_is_reported_as_a_finished_transaction
        (policy : Policy) (w : World) (e : error) :
  calls w = [] ->
  In (OpCommit, Some e) (calls (snd (Create policy w))) ->
  fst (Create policy w) = Ret (Err sql_ErrTxDone)
  /\ In (OpRollback, Some sql_ErrTxDone) (calls (snd (Create policy w)))
  /\ store (snd (Create policy w)) = store w.
Proof.
  intros Hc Hin.
  destruct (Create_commit_failure policy w) with (e := e) as [H1 H2];
    [rewrite Hc; intros x []|exact Hin|].
  split; [exact H1|]. split; [exact H2|].
  destruct (Create_spec policy w) as [new [_ H]]. rewrite H1 in H.
  destruct H as [H _]. exact H.
Qed.

Lemma no_rollback_snoc cs op x :
  no_rollback cs -> op <> OpRollback -> no_rollback (cs ++ [(op, x)]).
Proof.
  intros H Hop. apply no_rollback_app; [exact H|].
  intros y [E|[]]. injection E as E _. exact (Hop E).
Qed.

Lemma createLink_rolled_back t p ts : forall tx w,
  no_rollback (calls w) ->
  match fst (createLink tx t p ts w) with
  | Ret (Err e, _) =>
      In (OpRollback, None) (calls (snd (createLink tx t p ts w))) ->
      In (OpExec, Some e) (calls (snd (createLink tx t p ts w)))
  | _ => no_rollback (calls (snd (createLink tx t p ts w)))
  end.
Proof.
  induction ts as [|template rest IH]; intros tx w Hw; [exact Hw|].
  cbn [createLink].
  destruct (compiler_CompileRegex template _ _) as [e|reg]; [exact Hw|].
  unfold bind, ret.
  match goal with
  | |- context [tx_Exec tx ?s w] =>
      destruct (tx_Exec_spec tx s w) as (r & tx1 & w1 & E & _ & Hc & _)
  end.
  rewrite E.
  assert (H1 : no_rollback (calls w1)).
  { rewrite Hc. apply no_rollback_snoc; [exact Hw|discriminate]. }
  destruct r as [[]|err]; [apply IH; exact H1|].
  destruct (tx_Rollback_spec tx1 w1) as (rb & tx2 & w2 & E2 & _ & Hc2 & _).
  rewrite E2. destruct rb as [[]|rb]; cbn [fst snd err_of] in *.
  - intros _. rewrite Hc2, Hc. apply in_or_app. left. apply in_or_app.
    right. left. reflexivity.
  - rewrite Hc2. intros Hin. apply in_app_or in Hin.
    destruct Hin as [Hin|[Hin|[]]]; [|discriminate].
    exfalso. exact (H1 _ Hin).
Qed.

Lemma Create_rolled_back policy w :
  no_rollback (calls w) ->
  In (OpRollback, None) (calls (snd (Create policy w))) ->
  exists e,
    fst (Create policy w) = Ret (Err e)
    /\ In (OpExec, Some e) (calls (snd (Create policy w))).
Proof.
  intros Hw. unfold Create. fold (conditions_blob policy).
  destruct (conditions_blob policy) as [e0|conditions].
  { intros Hin. exfalso. exact (Hw _ Hin). }
  unfold bind, ret.
  destruct (db_Begin_spec w) as (r0 & w0 & E0 & _ & Hc0 & _). rewrite E0.
  assert (H0 : no_rollback (calls w0)).
  { rewrite Hc0. apply no_rollback_snoc; [exact Hw|discriminate]. }
  destruct r0 as [tx0|e0]; [|intros Hin; exfalso; exact (H0 _ Hin)].
  match goal with
  | |- context [tx_Exec tx0 ?s w0] =>
      destruct (tx_Exec_spec tx0 s w0) as (r1 & tx1 & w1 & E1 & _ & Hc1 & _)
  end.
  rewrite E1.
  assert (H1 : no_rollback (calls w1)).
  { rewrite Hc1. apply no_rollback_snoc; [exact H0|discriminate]. }
  destruct r1 as [[]|e1]; [|intros Hin; exfalso; exact (H1 _ Hin)].
  pose proof (createLink_rolled_back ladon_policy_subject policy
                (GetSubjects policy) tx1 w1 H1) as H2.
  destruct (createLink tx1 ladon_policy_subject policy (GetSubjects policy) w1)
    as [[[[[]|e2] tx2]|] w2]; cbn [fst snd] in H2 |- *.
  2: { intros Hin. exists e2. split; [reflexivity|exact (H2 Hin)]. }
  2: { intros Hin. exfalso. exact (H2 _ Hin). }
  pose proof (createLink_rolled_back ladon_policy_permission policy
                (GetPermissions policy) tx2 w2 H2) as H3.
  destruct (createLink tx2 ladon_policy_permission policy
              (GetPermissions policy) w2)
    as [[[[[]|e3] tx3]|] w3]; cbn [fst snd] in H3 |- *.
  2: { intros Hin. exists e3. split; [reflexivity|exact (H3 Hin)]. }
  2: { intros Hin. exfalso. exact (H3 _ Hin). }
  pose proof (createLink_rolled_back ladon_policy_resource policy
                (GetResources policy) tx3 w3 H3) as H4.
  destruct (createLink tx3 ladon_policy_resource policy
              (GetResources policy) w3)
    as [[[[[]|e4] tx4]|] w4]; cbn [fst snd] in H4 |- *.
  2: { intros Hin. exists e4. split; [reflexivity|exact (H4 Hin)]. }
  2: { intros Hin. exfalso. exact (H4 _ Hin). }
  destruct (tx_Commit_spec tx4 w4) as (r5 & tx5 & w5 & E5 & Hc5 & Hd5 & _).
  rewrite E5.
  assert (H5 : no_rollback (calls w5)).
  { rewrite Hc5. apply no_rollback_snoc; [exact H4|discriminate]. }
  destruct r5 as [[]|e5]; cbn [fst snd].
  - intros Hin. exfalso. exact (H5 _ Hin).
  - destruct (tx_Rollback_spec tx5 w5) as (r6 & tx6 & w6 & E6 & _ & Hc6 & Hr6).
    rewrite E6. specialize (Hr6 Hd5). subst r6. cbn [fst snd].
    rewrite Hc6. intros Hin. exfalso. apply in_app_or in Hin.
    destruct Hin as [Hin|[Hin|[]]]; [exact (H5 _ Hin)|discriminate].
Qed.

(** X20.  A Rollback that succeeds during [Create] follows a failed insert
    of a link row, and [Create] then returns the error of that insert;
    nothing is committed. *)
Theorem rolled_back_Create_returns_the_error_of_the_insert
        (policy : Policy) (w : World) :
  calls w = [] ->
  In (OpRollback, None) (calls (snd (Create policy w))) ->
  exists e,
    fst (Create policy w) = Ret (Err e)
    /\ In (OpExec, Some e) (calls (snd (Create policy w)))
    /\ store (snd (Create policy w)) = store w.
Proof.
  intros Hc Hin.
  destruct (Create_rolled_back policy w) as [e [H1 H2]];
    [rewrite Hc; apply no_rollback_nil|exact Hin|].
  exists e. split; [exact H1|]. split; [exact H2|].
  destruct (Create_spec policy w) as [new [_ H]]. rewrite H1 in H.
  destruct H as [H _]. exact H.
Qed.

Lemma createLink_healthy_clash t p ts : forall tx d cs,
  tx_done tx = false ->
  has_policy (tx_data tx) (GetID p) = true ->
  (forall template, In template ts ->
     exists reg, compiler_CompileRegex template (GetStartDelimiter p)
                                        (GetEndDelimiter p) = inr reg) ->
  (exists l, In l (links (tx_data tx) t) /\ link_policy l = GetID p
             /\ In (link_template l) ts)
  \/ ~ NoDup ts ->
  exists tx' cs',
    createLink tx t p ts
               {| store := d; faults := []; breaks := []; calls := cs |}
    = (Ret (Err (ErrOther "duplicate key value violates unique constraint"),
            tx'),
       {| store := d; faults := []; breaks := []; calls := cs' |})
    /\ In (OpRollback, None) cs'.
Proof.
  induction ts as [|template rest IH]; intros tx d cs Hd Hp Hc Hclash.
  - exfalso. destruct Hclash as [(l & _ & _ & [])|H]. apply H. constructor.
  - cbn [createLink].
    destruct (Hc template (or_introl eq_refl)) as [reg ->].
    unfold tx_Exec. rewrite Hd. unfold bind, next_fault. cbn [faults].
    cbn [exec_stmt link_policy].
    destruct (existsb (same_link {| link_compiled := reg;
                                    link_template := template;
                                    link_policy := GetID p |})
                      (links (tx_data tx) t)) eqn:E.
    + unfold log, ret. cbn [store faults calls tx_Rollback].
      unfold tx_Rollback. rewrite Hd. unfold bind, next_fault, log, ret.
      cbn [store faults calls]. do 2 eexists. split; [reflexivity|].
      apply in_or_app. right. left. reflexivity.
    + rewrite Hp. unfold log, ret. cbn [store faults calls].
      apply IH; cbn [tx_done tx_data].
      * reflexivity.
      * rewrite has_policy_set_links. exact Hp.
      * intros x Hx. apply Hc. right. exact Hx.
      * rewrite links_set_links.
        destruct Hclash as [(l & Hl & Hpol & Hin)|Hdup].
        -- destruct Hin as [Hin|Hin].
           ++ exfalso. assert (X : existsb (same_link
                                   {| link_compiled := reg;
                                      link_template := template;
                                      link_policy := GetID p |})
                                   (links (tx_data tx) t) = true).
              { apply existsb_exists. exists l. split; [exact Hl|].
                unfold same_link. cbn [link_template link_policy].
                rewrite Hin, Hpol, !String.eqb_refl. reflexivity. }
              congruence.
           ++ left. exists l. split; [apply in_or_app; left; exact Hl|].
              split; assumption.
        -- destruct (in_dec string_dec template rest) as [Hin|Hnin].
           ++ left. eexists. split; [apply in_or_app; right; left; reflexivity|].
              cbn [link_policy link_template]. split; [reflexivity|exact Hin].
           ++ right. intros Hnd. apply Hdup. constructor; assumption.
Qed.

Lemma Create_healthy_clash policy d t :
  store_ok d = true ->
  has_policy d (GetID policy) = false ->
  effect_ok (GetEffect policy) = true ->
  (exists conditions, conditions_blob policy = inr conditions) ->
  (forall t' template,
      In template (dimension policy t') ->
      exists reg, compiler_CompileRegex template (GetStartDelimiter policy)
                                         (GetEndDelimiter policy) = inr reg) ->
  ~ NoDup (dimension policy t) ->
  exists cs,
    Create policy (healthy d)
    = (Ret (Err (ErrOther "duplicate key value violates unique constraint")),
       {| store := d; faults := []; breaks := []; calls := cs |})
    /\ In (OpRollback, None) cs.
Proof.
  intros Hok Hf He [conditions Hb] Hc Hdup.
  unfold Create. fold (conditions_blob policy). rewrite Hb.
  unfold db_Begin, healthy. run.
  fold (policy_row policy conditions).
  unfold tx_Exec. run. rewrite Hf, He. simpl.
  set (d1 := {| ladon_policy := ladon_policy d ++ [policy_row policy conditions];
                subject_rows := subject_rows d;
                permission_rows := permission_rows d;
                resource_rows := resource_rows d |}).
  assert (Hp1 : has_policy d1 (GetID policy) = true).
  { unfold has_policy, d1. simpl. rewrite existsb_app. simpl.
    rewrite String.eqb_refl. apply orb_true_iff. right. reflexivity. }
  destruct (ListDec.NoDup_dec string_dec (GetSubjects policy)) as [N1|N1].
  2: { destruct (createLink_healthy_clash ladon_policy_subject policy
                   (GetSubjects policy) {| tx_done := false; tx_data := d1 |} d
                   [(OpBegin, None); (OpExec, None)])
         as (tx2 & cs2 & E2 & Hin); auto.
       { apply (Hc ladon_policy_subject). }
       rewrite E2. exists cs2. split; [reflexivity|exact Hin]. }
  destruct (createLink_healthy ladon_policy_subject policy (GetSubjects policy)
              {| tx_done := false; tx_data := d1 |} d
              [(OpBegin, None); (OpExec, None)])
    as (tx2 & cs2 & rows2 & E2 & Hd2 & Hdata2 & _); auto.
  { apply (Hc ladon_policy_subject). }
  { apply (no_links_of_fresh d ladon_policy_subject); assumption. }
  rewrite E2.
  assert (Hp2 : has_policy (tx_data tx2) (GetID policy) = true).
  { rewrite Hdata2, has_policy_set_links. exact Hp1. }
  destruct (ListDec.NoDup_dec string_dec (GetPermissions policy)) as [N2|N2].
  2: { destruct (createLink_healthy_clash ladon_policy_permission policy
                   (GetPermissions policy) tx2 d cs2)
         as (tx3 & cs3 & E3 & Hin); auto.
       { apply (Hc ladon_policy_permission). }
       rewrite E3. exists cs3. split; [reflexivity|exact Hin]. }
  destruct (createLink_healthy ladon_policy_permission policy
              (GetPermissions policy) tx2 d cs2)
    as (tx3 & cs3 & rows3 & E3 & Hd3 & Hdata3 & _); auto.
  { apply (Hc ladon_policy_permission). }
  { rewrite Hdata2, links_set_links_other by discriminate.
    apply (no_links_of_fresh d ladon_policy_permission); assumption. }
  rewrite E3.
  assert (N3 : ~ NoDup (GetResources policy)).
  { destruct t; cbn [dimension] in Hdup; [contradiction|contradiction|].
    exact Hdup. }
  destruct (createLink_healthy_clash ladon_policy_resource policy
              (GetResources policy) tx3 d cs3)
    as (tx4 & cs4 & E4 & Hin); auto.
  { rewrite Hdata3, has_policy_set_links. exact Hp2. }
  { apply (Hc ladon_policy_resource). }
  rewrite E4. exists cs4. split; [reflexivity|exact Hin].
Qed.

(** X8.  A policy with a template twice in a dimension, whose templates all
    compile, with an effect the schema admits and an id that is not stored:
    on a backend that answers without failure [Create] returns the
    violation of the link table's primary key, rolls the transaction back,
    and leaves the tables as they were. *)
Theorem Create_refuses_a_repeated_template
        (policy : Policy) (d : Database) (t : LinkTable) :
  store_ok d = true ->
  has_policy d (GetID policy) = false ->
  effect_ok (GetEffect policy) = true ->
  (exists conditions, conditions_blob policy = inr conditions) ->
  (forall t' template,
      In template (dimension policy t') ->
      exists reg, compiler_CompileRegex template (GetStartDelimiter policy)
                                         (GetEndDelimiter policy) = inr reg) ->
  ~ NoDup (dimension policy t) ->
  fst (Create policy (healthy d))
  = Ret (Err (ErrOther "duplicate key value violates unique constraint"))
  /\ store (snd (Create policy (healthy d))) = d
  /\ In (OpRollback, None) (calls (snd (Create policy (healthy d)))).
Proof.
  intros Hok Hf He Hb Hc Hdup.
  destruct (Create_healthy_clash policy d t Hok Hf He Hb Hc Hdup)
    as [cs [-> Hin]].
  repeat split. exact Hin.
Qed.

(** *** What is read after a creation *)

Lemma Create_healthy_record policy d :
  valid policy ->
  store_ok d = true ->
  has_policy d (GetID policy) = false ->
  fst (Create policy (healthy d)) = Ret (Ok tt)
  /\ record_of (store (snd (Create policy (healthy d)))) (GetID policy)
     = Ok {| ID := GetID policy;
             Description := GetDescription policy;
             Subjects := GetSubjects policy;
             Effect := GetEffect policy;
             Resources := GetResources policy;
             Permissions := GetPermissions policy;
             Conditions := conditions_of policy |}.
Proof.
  intros Hv Hok Hf.
  pose proof (Create_healthy_ok policy d Hv Hok Hf) as Hcreate.
  split; [exact Hcreate|].
  destruct (Create_spec policy (healthy d)) as [new [_ H]].
  rewrite Hcreate in H.
  destruct H as (_ & _ & conditions & subjects & permissions & resources
                 & Hb & _ & _ & Hs & F1 & F2 & F3 & _).
  destruct (valid_blob policy Hv) as [conditions' [Hb' Hu]].
  assert (conditions' = conditions) by congruence. subst conditions'.
  rewrite Hs. unfold record_of. cbn [ladon_policy store healthy].
  change (GetID policy) with (row_id (policy_row policy conditions)) at 1.
  rewrite find_app_fresh by exact Hf.
  cbn [row_conditions policy_row]. rewrite Hu.
  cbn [eval_query links subject_rows permission_rows resource_rows row_id
       row_description row_effect].
  rewrite (linked_after_insert policy (subject_rows d) _ _
             (no_links_of_fresh d ladon_policy_subject _ Hok Hf) F1).
  rewrite (linked_after_insert policy (permission_rows d) _ _
             (no_links_of_fresh d ladon_policy_permission _ Hok Hf) F2).
  rewrite (linked_after_insert policy (resource_rows d) _ _
             (no_links_of_fresh d ladon_policy_resource _ Hok Hf) F3).
  reflexivity.
Qed.

(** X11.  After [Create] of a valid policy with a new id, on tables that
    satisfy the schema and a backend that answers without failure,
    [FindPoliciesForSubject] succeeds, and it returns the new policy exactly
    when the policy has no subject template or the compiled pattern of one
    of its subject templates, anchored, matches the subject. *)
Theorem created_policy_is_found_iff_a_subject_matches
        (policy : Policy) (d : Database) (s : string) :
  valid policy ->
  store_ok d = true ->
  has_policy d (GetID policy) = false ->
  exists ps,
    fst (FindPoliciesForSubject
           s (healthy (store (snd (Create policy (healthy d))))))
    = Ret (Ok ps)
    /\ ((exists p, In p ps /\ ID p = GetID policy)
        <-> GetSubjects policy = []
            \/ exists template reg,
                 In template (GetSubjects policy)
                 /\ compiler_CompileRegex template (GetStartDelimiter policy)
                                          (GetEndDelimiter policy) = inr reg
                 /\ regex_match_ci ("^" ++ reg ++ "$") s = true).
Proof.
  intros Hv Hok Hf.
  pose proof (Create_healthy_ok policy d Hv Hok Hf) as Hcreate.
  assert (Hok' : store_ok (store (snd (Create policy (healthy d)))) = true).
  { apply Create_keeps_store_ok; [exact Hok|].
    intros blob Hb. destruct (valid_blob policy Hv) as [c [Hc Hu]].
    exists (conditions_of policy). congruence. }
  destruct (Create_spec policy (healthy d)) as [new [_ H]].
  rewrite Hcreate in H.
  destruct H as (_ & _ & conditions & subjects & permissions & resources
                 & Hb & _ & _ & Hs & F1 & _).
  cbn [store healthy] in Hs.
  set (d' := store (snd (Create policy (healthy d)))) in *.
  destruct (FindPoliciesForSubject_healthy d' s [] Hok') as [ps [E _]].
  exists ps. split; [exact E|].
  rewrite (found_iff_matched_or_global d' s (GetID policy) ps Hok' E).
  rewrite is_global_spec.
  assert (Hsub : subject_rows d' = subject_rows d ++ subjects)
    by (rewrite Hs; reflexivity).
  assert (Hold : forall l, In l (subject_rows d) -> link_policy l <> GetID policy)
    by (apply (no_links_of_fresh d ladon_policy_subject _ Hok Hf)).
  rewrite Hsub. split.
  - intros [(l & Hl & Hpol & Hm)|[_ Hnone]].
    + right. apply in_app_or in Hl. destruct Hl as [Hl|Hl].
      * exfalso. exact (Hold l Hl Hpol).
      * destruct (Forall2_In_r _ _ _ _ F1 Hl) as [template [Hin (_ & _ & Hc)]].
        exists template, (link_compiled l). auto.
    + left. destruct F1 as [|template l ts rows (_ & Hpol & _) _]; [reflexivity|].
      exfalso. apply (Hnone l); [|exact Hpol].
      apply in_or_app. right. left. reflexivity.
  - intros [Hnil|(template & reg & Hin & Hc & Hm)].
    + right. split.
      * rewrite Hs. unfold has_policy. cbn [ladon_policy].
        rewrite existsb_app. cbn [existsb policy_row row_id].
        rewrite String.eqb_refl. apply orb_true_iff. right. reflexivity.
      * rewrite Hnil in F1. inversion F1. rewrite app_nil_r. exact Hold.
    + left. destruct (Forall2_In_l _ _ _ _ F1 Hin) as [l [Hl (_ & Hpol & Hc')]].
      exists l. split; [apply in_or_app; right; exact Hl|].
      split; [exact Hpol|]. assert (link_compiled l = reg) by congruence.
      subst reg. exact Hm.
Qed.

(** X12.  [Delete] of the id of a valid policy, a uuid in the form the
    column gives back, followed by [Create] of the policy replaces what was
    stored under the id: [Create] succeeds whether or not the id was stored,
    and [Get] returns a record with the id, description, effect and
    conditions of the policy and, in each dimension, its templates up to
    order. *)
Theorem Delete_then_Create_replaces_the_policy
        (policy : Policy) (d : Database) :
  valid policy ->
  canonical_uuid (GetID policy) = true ->
  store_ok d = true ->
  fst (Create policy
         (healthy (store (snd (Delete (GetID policy) (healthy d))))))
  = Ret (Ok tt)
  /\ exists p,
       fst (Get (GetID policy)
              (healthy
                 (store
                    (snd (Create policy
                            (healthy
                               (store (snd (Delete (GetID policy)
                                                   (healthy d))))))))))
       = Ret (Ok p)
       /\ ID p = GetID policy
       /\ Description p = GetDescription policy
       /\ Effect p = GetEffect policy
       /\ Conditions p = conditions_of policy
       /\ forall t, Permutation (templates_of p t) (dimension policy t).
Proof.
  intros Hv _ Hok.
  pose proof (Delete_keeps_store_ok (GetID policy) (healthy d) Hok) as Hok1.
  assert (Hf : has_policy (store (snd (Delete (GetID policy) (healthy d))))
                          (GetID policy) = false).
  { unfold healthy. rewrite Delete_healthy. cbn [snd store].
    apply has_policy_without_same. }
  destruct (Create_healthy_record policy _ Hv Hok1 Hf) as [H1 H2].
  split; [exact H1|]. eexists. rewrite Get_healthy_fst, H2.
  split; [reflexivity|]. cbn [ID Description Effect Conditions].
  repeat split. intros t. destruct t; apply Permutation_refl.
Qed.

(** *** The tables the store can reach *)

Lemma reachable_store_ok d : reachable d -> store_ok d = true.
Proof.
  induction 1 as [|policy w _ IH Hblob|id w _ IH].
  - apply store_ok_empty.
  - apply Create_keeps_store_ok; assumption.
  - apply Delete_keeps_store_ok; assumption.
Qed.

(** X13.  The tables that [Create] and [Delete] calls leave, starting from
    empty tables and whatever the backend answered, satisfy the schema; on
    them, with a backend that answers without failure,
    [FindPoliciesForSubject] succeeds for every subject, and [Get] returns
    [pkg.ErrNotFound] for an id that is not stored and the record with that
    id for one that is. *)
Theorem reads_succeed_on_reachable_tables (d : Database) :
  reachable d ->
  store_ok d = true
  /\ (forall s, exists ps,
        fst (FindPoliciesForSubject s (healthy d)) = Ret (Ok ps))
  /\ (forall id,
        (has_policy d id = false
         /\ fst (Get id (healthy d)) = Ret (Err pkg_ErrNotFound))
        \/ (has_policy d id = true
            /\ exists p, fst (Get id (healthy d)) = Ret (Ok p) /\ ID p = id)).
Proof.
  intros H. apply reachable_store_ok in H. split; [exact H|]. split.
  - intros s. destruct (FindPoliciesForSubject_healthy d s [] H) as [ps [E _]].
    exists ps. exact E.
  - intros id. rewrite Get_healthy_fst.
    destruct (has_policy d id) eqn:Hp.
    + right. split; [reflexivity|].
      destruct (store_ok_record d id H Hp) as [p Hr].
      exists p. rewrite Hr. split; [reflexivity|].
      apply (record_of_ID d). exact Hr.
    + left. split; [reflexivity|]. unfold record_of. fold (row_of d id).
      destruct (row_of d id) as [row|] eqn:E; [|reflexivity].
      apply row_of_Some in E. destruct E as [Hin <-].
      rewrite (row_has_policy _ _ Hin) in Hp. discriminate.
Qed.

(** *** CreateSchemas *)

Lemma schemas_tables : map table_of schemas = tables.
Proof. vm_compute. reflexivity. Qed.

Lemma schemas_references :
  map references_of schemas
  = [["ladon_policy"]; ["ladon_policy"]; ["ladon_policy"]; ["ladon_policy"]].
Proof. vm_compute. reflexivity. Qed.

Lemma ddl_Exec_passes query c :
  hd None (answers c) = None ->
  (forall r, In r (references_of query) ->
             r = table_of query \/ exists_table c r = true) ->
  ddl_Exec query c
  = (Ok tt,
     {| relations := relations c ++ missing c [table_of query];
        answers := tl (answers c);
        received := received c ++ [query];
        printed := printed c |}).
Proof.
  intros Ha Hr. unfold ddl_Exec, missing. rewrite Ha. cbn [filter].
  destruct (exists_table c (table_of query)) eqn:E; cbn [negb].
  - rewrite app_nil_r. reflexivity.
  - assert (F : forallb (fun r => (r =? table_of query) || exists_table c r)
                        (references_of query) = true).
    { apply forallb_forall. intros r Hin. apply orb_true_iff.
      destruct (Hr r Hin) as [->|H]; [left; apply String.eqb_refl|right; exact H]. }
    rewrite F. reflexivity.
Qed.

Lemma ddl_Exec_fails query c e :
  hd None (answers c) = Some e ->
  ddl_Exec query c
  = (Err e,
     {| relations := relations c; answers := tl (answers c);
        received := received c ++ [query]; printed := printed c |}).
Proof. intros Ha. unfold ddl_Exec. rewrite Ha. reflexivity. Qed.

Lemma missing_cons c name names :
  missing c (name :: names) = missing c [name] ++ missing c names.
Proof.
  unfold missing. cbn [filter].
  destruct (negb (exists_table c name)); reflexivity.
Qed.

Lemma missing_ext c c' names :
  (forall name, In name names -> exists_table c' name = exists_table c name) ->
  missing c' names = missing c names.
Proof.
  intros H. unfold missing. apply filter_ext_in. intros name Hin.
  rewrite (H name Hin). reflexivity.
Qed.

Lemma exists_table_app c l name :
  existsb (String.eqb name) (relations c ++ l)
  = exists_table c name || existsb (String.eqb name) l.
Proof. unfold exists_table. apply existsb_app. Qed.

Lemma exists_table_missing c name :
  existsb (String.eqb name) (relations c ++ missing c [name]) = true.
Proof.
  rewrite exists_table_app. unfold missing. cbn [filter].
  destruct (exists_table c name); [reflexivity|].
  cbn [negb existsb]. rewrite String.eqb_refl. reflexivity.
Qed.

Lemma exists_table_other c name other :
  name <> other ->
  existsb (String.eqb name) (relations c ++ missing c [other])
  = exists_table c name.
Proof.
  intros Hne. rewrite exists_table_app. unfold missing. cbn [filter].
  destruct (negb (exists_table c other)); cbn [existsb];
    [|apply orb_false_r].
  rewrite (proj2 (String.eqb_neq _ _) Hne). apply orb_false_r.
Qed.

Lemma skipn_tl {A : Type} n (l : list A) : skipn n (tl l) = skipn (S n) l.
Proof. destruct l; [destruct n; reflexivity|reflexivity]. Qed.

Lemma nth_tl {A : Type} n (l : list A) x : nth n (tl l) x = nth (S n) l x.
Proof. destruct l; [destruct n; reflexivity|reflexivity]. Qed.

Lemma nth_0_hd {A : Type} (l : list A) x : nth 0 l x = hd x l.
Proof. destruct l; reflexivity. Qed.

(** Statements that all pass create the tables that are missing. *)
Lemma create_each_passes queries : forall c,
  (forall k, k < List.length queries -> nth k (answers c) None = None) ->
  NoDup (map table_of queries) ->
  (forall k r,
      k < List.length queries ->
      In r (references_of (nth k queries "")) ->
      exists_table c r = true
      \/ exists j, j <= k /\ r = table_of (nth j queries "")) ->
  create_each queries c
  = (Ok tt,
     {| relations := relations c ++ missing c (map table_of queries);
        answers := skipn (List.length queries) (answers c);
        received := received c ++ queries;
        printed := printed c |}).
Proof.
  induction queries as [|query rest IH]; intros c Ha Hnd Hr.
  - cbn. rewrite !app_nil_r. destruct c; reflexivity.
  - cbn [create_each]. rewrite ddl_Exec_passes.
    + inversion Hnd as [|x xs Hnotin Hnd']. subst.
      assert (Hsame : forall name,
                 In name (map table_of rest) ->
                 existsb (String.eqb name)
                         (relations c ++ missing c [table_of query])
                 = exists_table c name).
      { intros name Hin. apply exists_table_other. intros ->.
        exact (Hnotin Hin). }
      rewrite IH; cbn [relations answers received printed].
      * f_equal. f_equal.
        -- cbn [map].
           rewrite (missing_cons c (table_of query) (map table_of rest)).
           rewrite <- app_assoc. do 2 f_equal.
           apply missing_ext. intros name Hin.
           unfold exists_table at 1. cbn [relations]. apply Hsame, Hin.
        -- apply skipn_tl.
        -- rewrite <- app_assoc. reflexivity.
      * intros k Hk. rewrite nth_tl. apply Ha. simpl. lia.
      * exact Hnd'.
      * intros k r Hk Hin.
        destruct (Hr (S k) r ltac:(simpl; lia) Hin) as [H|[j [Hj ->]]].
        -- left. unfold exists_table. cbn [relations].
           rewrite exists_table_app, H. reflexivity.
        -- destruct j as [|j].
           ++ left. unfold exists_table. cbn [relations nth].
              apply exists_table_missing.
           ++ right. exists j. split; [lia|reflexivity].
    + rewrite <- nth_0_hd. apply Ha. simpl. lia.
    + intros r Hin.
      destruct (Hr 0 r ltac:(simpl; lia) Hin) as [H|[j [Hj ->]]].
      * right. exact H.
      * left. assert (j = 0) by lia. subst j. reflexivity.
Qed.

Lemma create_each_app a b c :
  create_each (a ++ b) c
  = match create_each a c with
    | (Ok _, c') => create_each b c'
    | failed => failed
    end.
Proof.
  revert c. induction a as [|q a IH]; intros c; [reflexivity|].
  cbn [app create_each]. destruct (ddl_Exec q c) as [[[]|e] c'].
  - apply IH.
  - reflexivity.
Qed.

Lemma schemas_well_ordered k r :
  k < 4 ->
  In r (references_of (nth k schemas "")) ->
  exists j, j <= k /\ r = table_of (nth j schemas "").
Proof.
  intros Hk Hin. exists 0. split; [lia|].
  destruct k as [|[|[|[|k]]]]; try lia;
    vm_compute in Hin; destruct Hin as [<-|[]]; vm_compute; reflexivity.
Qed.

Lemma tables_NoDup : NoDup tables.
Proof.
  apply (NoDup_count_occ' string_dec). intros x Hin.
  repeat (destruct Hin as [<-|Hin]; [vm_compute; reflexivity|]).
  destruct Hin.
Qed.

Lemma CreateSchemas_passes c :
  (forall k, k < 4 -> nth k (answers c) None = None) ->
  CreateSchemas c
  = (Ok tt,
     {| relations := relations c ++ missing c tables;
        answers := skipn 4 (answers c);
        received := received c ++ schemas;
        printed := printed c |}).
Proof.
  intros Ha. unfold CreateSchemas. rewrite create_each_passes.
  - rewrite schemas_tables. reflexivity.
  - exact Ha.
  - rewrite schemas_tables. exact tables_NoDup.
  - intros k r Hk Hin. right. apply schemas_well_ordered; assumption.
Qed.

(** X17.  When the backend refuses none of the four statements,
    [CreateSchemas] returns nil, whatever tables exist already: it sends
    the four statements in order, the tables of the store that were missing
    are created and the others are left alone, so that all four exist
    afterwards, and nothing is logged. *)
Theorem CreateSchemas_creates_the_missing_tables (c : Catalog) :
  (forall k, k < 4 -> nth k (answers c) None = None) ->
  fst (CreateSchemas c) = Ok tt
  /\ relations (snd (CreateSchemas c)) = relations c ++ missing c tables
  /\ (forall name, In name tables ->
                   exists_table (snd (CreateSchemas c)) name = true)
  /\ received (snd (CreateSchemas c)) = received c ++ schemas
  /\ printed (snd (CreateSchemas c)) = printed c.
Proof.
  intros Ha. rewrite (CreateSchemas_passes c Ha).
  cbn [fst snd relations received printed]. repeat split.
  intros name Hin. unfold exists_table. cbn [relations].
  rewrite exists_table_app.
  destruct (exists_table c name) eqn:E; [reflexivity|].
  cbn [orb]. apply existsb_exists. exists name.
  split; [|apply String.eqb_refl].
  unfold missing. apply filter_In. split; [exact Hin|]. rewrite E. reflexivity.
Qed.

(** X18.  When the four tables exist, [CreateSchemas] returns nil and
    changes no table: it can be called again. *)
Theorem CreateSchemas_again_changes_no_table (c : Catalog) :
  (forall name, In name tables -> exists_table c name = true) ->
  (forall k, k < 4 -> nth k (answers c) None = None) ->
  fst (CreateSchemas c) = Ok tt
  /\ relations (snd (CreateSchemas c)) = relations c.
Proof.
  intros Hall Ha. rewrite (CreateSchemas_passes c Ha).
  cbn [fst snd relations]. split; [reflexivity|].
  assert (E : missing c tables = []).
  { unfold missing. induction tables as [|name names IH]; [reflexivity|].
    cbn [filter]. rewrite (Hall name (or_introl eq_refl)). cbn [negb].
    apply IH. intros n Hn. apply Hall. right. exact Hn. }
  rewrite E. apply app_nil_r.
Qed.

(** X19.  When the backend refuses one of the statements, [CreateSchemas]
    returns that error and stops: the statements after it are not sent, the
    tables of the statements before it are created, and one message that
    holds the text of the refused statement is logged. *)
Theorem CreateSchemas_stops_at_the_first_failure
        (c : Catalog) (k : nat) (e : error) :
  k < 4 ->
  (forall j, j < k -> nth j (answers c) None = None) ->
  nth k (answers c) None = Some e ->
  fst (CreateSchemas c) = Err e
  /\ received (snd (CreateSchemas c)) = received c ++ firstn (S k) schemas
  /\ printed (snd (CreateSchemas c))
     = printed c ++ [("Error creating schema " ++ nth k schemas "")%string]
  /\ relations (snd (CreateSchemas c))
     = relations c ++ missing c (firstn k tables).
Proof.
  intros Hk Hj Hn. unfold CreateSchemas.
  assert (Hlen : List.length (firstn k schemas) = k).
  { rewrite length_firstn. apply Nat.min_l. simpl. lia. }
  assert (Hs : skipn k schemas = nth k schemas "" :: skipn (S k) schemas).
  { destruct k as [|[|[|[|k]]]]; try lia; reflexivity. }
  assert (E : create_each schemas c
              = (Err e,
                 {| relations :=
                      relations c ++ missing c (map table_of (firstn k schemas));
                    answers := tl (skipn k (answers c));
                    received := (received c ++ firstn k schemas)
                                ++ [nth k schemas ""];
                    printed :=
                      printed c
                      ++ [("Error creating schema " ++ nth k schemas "")%string]
                 |})).
  { rewrite <- (firstn_skipn k schemas) at 1.
    rewrite create_each_app, create_each_passes.
    - rewrite Hs, Hlen. cbn [create_each]. rewrite (ddl_Exec_fails _ _ e).
      + reflexivity.
      + cbn [answers]. rewrite <- nth_0_hd, nth_skipn, Nat.add_0_r. exact Hn.
    - intros j Hjk. apply Hj. lia.
    - rewrite <- firstn_map, schemas_tables.
      destruct k as [|[|[|[|k]]]]; try lia; cbn [firstn tables map];
        apply (NoDup_count_occ' string_dec); intros x Hin;
        repeat (destruct Hin as [<-|Hin]; [vm_compute; reflexivity|]);
        destruct Hin.
    - intros j r Hjk Hin. right. rewrite Hlen in Hjk.
      assert (F : forall i, i < k -> nth i (firstn k schemas) ""
                                     = nth i schemas "").
      { intros i Hi. rewrite nth_firstn.
        destruct (i <? k)%nat eqn:X; [reflexivity|].
        apply Nat.ltb_ge in X. lia. }
      rewrite F in Hin by exact Hjk.
      destruct (schemas_well_ordered j r ltac:(lia) Hin) as [i [Hi ->]].
      exists i. split; [exact Hi|]. rewrite F by lia. reflexivity. }
  rewrite E. cbn [fst snd relations received printed].
  split; [reflexivity|]. split; [|split; [reflexivity|]].
  - rewrite <- app_assoc. f_equal.
    destruct k as [|[|[|[|k]]]]; try lia; reflexivity.
  - rewrite <- firstn_map, schemas_tables. reflexivity.
Qed.

End Properties.

(** ** The reference expressions: anchors and letter case *)

Module RegexFacts.
Import Regex.







(** *** Letter case *)











Lemma Forall2_length_eq {A B : Type} (R : A -> B -> Prop) l l' :
  Forall2 R l l' -> List.length l = List.length l'.
Proof. induction 1; simpl; congruence. Qed.






End RegexFacts.

(** ** The reference collaborators at work *)

Section Runs.
Local Existing Instance reference.










(** C1, counterexample.  A policy is stored; [Create] of another policy
    with the same id fails at the insert of the policy row, and [Get] on the
    id returns the stored policy, not [pkg.ErrNotFound]. *)
Lemma Create_fails_on_a_stored_id_and_Get_still_finds_it :
  fst (Create (sample id1 ["groups:<.+>"]) (healthy (after readers empty_db)))
  = Ret (Err (ErrOther "duplicate key value violates unique constraint"))
  /\ fst (Get id1 (healthy (store (snd (Create (sample id1 ["groups:<.+>"])
                                            (healthy (after readers empty_db)))))))
     = Ret (Ok readers_record).
Proof. split; vm_compute; reflexivity. Qed.

(** C1, witness.  The insert into [ladon_policy_resource] fails in the
    middle of [Create]: the tables stay empty and [Get] on the id returns
    [pkg.ErrNotFound]. *)
Lemma resource_insert_failure_leaves_nothing :
  fst (Create readers resource_insert_fails)
  = Ret (Err (ErrOther "connection reset"))
  /\ store (snd (Create readers resource_insert_fails)) = empty_db
  /\ fst (Get id1 (healthy (store (snd (Create readers resource_insert_fails)))))
     = Ret (Err pkg_ErrNotFound).
Proof.
  pose proof (Create_all_or_nothing readers resource_insert_fails) as H.
  assert (E : fst (Create readers resource_insert_fails)
              = Ret (Err (ErrOther "connection reset")))
    by (vm_compute; reflexivity).
  rewrite E in H. destruct H as [H1 H2].
  split; [exact E|]. split; [exact H1|]. apply H2. reflexivity.
Defined.

Lemma readers_valid : valid readers.
Proof.
  split; [reflexivity|]. split.
  { intros t. destruct t; simpl; repeat constructor; simpl; tauto. }
  split.
  { intros t template Hin.
    destruct t; simpl in Hin; destruct Hin as [<-|[]]; eexists;
      vm_compute; reflexivity. }
  simpl. eexists. split; vm_compute; reflexivity.
Defined.

(** C2, witness.  The round trip of the sample policy on empty tables. *)
Lemma readers_round_trip :
  fst (Create readers (healthy empty_db)) = Ret (Ok tt)
  /\ exists p,
       fst (Get id1 (healthy (store (snd (Create readers (healthy empty_db))))))
       = Ret (Ok p)
       /\ ID p = id1
       /\ Description p = "readers"
       /\ Effect p = "allow"
       /\ Conditions p = ["owner"]
       /\ forall t, Permutation (templates_of p t) (dimension readers t).
Proof.
  apply (Create_then_Get_round_trip readers empty_db).
  - exact readers_valid.
  - reflexivity.
  - intros t. destruct t; discriminate.
  - reflexivity.
  - reflexivity.
Defined.

(** C3, witness.  A policy created without subjects is found for a subject
    that no template matches. *)
Lemma everyone_is_found_for_a_stranger :
  exists ps p,
    fst (FindPoliciesForSubject "groups:alice"
           (healthy (after everyone (after readers empty_db))))
    = Ret (Ok ps)
    /\ In p ps
    /\ ID p = id2
    /\ Description p = "readers"
    /\ Effect p = "allow"
    /\ json_Unmarshal (row_conditions everyone_row) = inr (Conditions p)
    /\ Subjects p = []
    /\ (forall t,
          Permutation
            (templates_of p t)
            (map link_template
                 (filter (fun l => link_policy l =? id2)
                         (links (after everyone (after readers empty_db)) t))))
    /\ fst (Get id2 (healthy (after everyone (after readers empty_db))))
       = Ret (Ok p).
Proof.
  apply (global_policy_found_for_every_subject
           (after everyone (after readers empty_db)) everyone_row
           "groups:alice").
  - vm_compute. reflexivity.
  - vm_compute. right. left. reflexivity.
  - intros l Hl. vm_compute in Hl. destruct Hl as [<-|[]]. discriminate.
Defined.


(** C5, counterexample.  Two subject templates of one policy match the
    subject, and the policy is returned twice. *)
Lemma policy_found_twice :
  exists ps,
    fst (FindPoliciesForSubject "users:alice"
           (healthy (after overlapping empty_db)))
    = Ret (Ok ps)
    /\ map ID ps = [id1; id1]
    /\ ~ NoDup (map ID ps).
Proof.
  eexists. split; [vm_compute; reflexivity|]. split; [reflexivity|].
  intros H. inversion H as [|x xs Hn _]. apply Hn. left. reflexivity.
Qed.

(** C5, witness.  The count of each id on the same tables. *)
Lemma overlapping_ids_counted :
  exists ps,
    fst (FindPoliciesForSubject "users:alice"
           (healthy (after overlapping empty_db)))
    = Ret (Ok ps)
    /\ (forall id,
          count_occ string_dec (map ID ps) id
          = List.length (matching (after overlapping empty_db) "users:alice" id)
            + (if is_global (after overlapping empty_db) id then 1 else 0))
    /\ (forall id, is_global (after overlapping empty_db) id = true ->
                   matching (after overlapping empty_db) "users:alice" id = []).
Proof.
  apply (found_ids_counted (after overlapping empty_db) "users:alice").
  vm_compute. reflexivity.
Defined.

(** C6, witness.  The failing input: a subject template whose delimiter is
    not closed. *)
Lemma unterminated_template_panics :
  Create unterminated (healthy empty_db)
  = (Panic, {| store := empty_db; faults := []; breaks := [];
               calls := [(OpBegin, None); (OpExec, None)] |}).
Proof.
  apply (Create_panics_when_compilation_fails
           unterminated empty_db ("[" ++ Json.join ["owner"] ++ "]")
           "users:<unterminated" [] (ErrOther "unbalanced braces"));
    vm_compute; reflexivity.
Defined.

(** C7, counterexample.  The insert of the subject row fails, the rollback
    fails too, and the error [Create] returns is that of the rollback: it
    does not carry the error of the insert. *)
Lemma insert_error_is_dropped :
  calls (snd (Create readers insert_and_rollback_fail))
  = [(OpBegin, None); (OpExec, None);
     (OpExec, Some (ErrOther "connection reset"));
     (OpRollback, Some (ErrOther "rollback failed"))]
  /\ fst (Create readers insert_and_rollback_fail)
     = Ret (Err (ErrOther "rollback failed"))
  /\ carries (ErrOther "rollback failed") (ErrOther "connection reset") = false.
Proof. repeat split; vm_compute; reflexivity. Qed.

(** C7, witness.  The same run. *)
Lemma rollback_error_of_the_run :
  fst (Create readers insert_and_rollback_fail)
  = Ret (Err (ErrOther "rollback failed")).
Proof.
  apply (failed_rollback_error_is_returned_alone
           readers insert_and_rollback_fail (ErrOther "rollback failed")).
  - reflexivity.
  - vm_compute. right. right. right. left. reflexivity.
Defined.

(** C9, witness.  The tables of the example scenario and a subject that its
    template does not match. *)
Lemma stranger_finds_nothing :
  fst (FindPoliciesForSubject "groups:alice" (healthy (after readers empty_db)))
  = Ret (Ok []).
Proof.
  apply (no_match_is_an_empty_success (after readers empty_db) "groups:alice").
  - intros l Hl. vm_compute in Hl. destruct Hl as [<-|[]].
    vm_compute. reflexivity.
  - intros row Hrow. vm_compute in Hrow. destruct Hrow as [<-|[]].
    eexists. split; [vm_compute; left; reflexivity|reflexivity].
Defined.

(** C10, witness.  A policy stored without any template. *)
Lemma bare_policy_is_read_back :
  exists p,
    fst (Get id2 (healthy (after bare empty_db))) = Ret (Ok p)
    /\ ID p = id2
    /\ (forall t,
          templates_of p t
          = map link_template
                (filter (fun l => link_policy l =? id2)
                        (links (after bare empty_db) t)))
    /\ (forall t,
          (forall l, In l (links (after bare empty_db) t) ->
                     link_policy l <> id2) ->
          templates_of p t = []).
Proof.
  apply (Get_succeeds_with_empty_dimensions (after bare empty_db) bare_row).
  - vm_compute. reflexivity.
  - vm_compute. left. reflexivity.
Defined.




(** C8, witness.  The failing input: the policy has three subject
    templates, and the iteration over its subject rows breaks off after the
    first one; [Get] returns no error, and a record with one subject.  And
    the other cases on sample tables: no row of the id, conditions that are
    not an array, a query the backend refuses. *)
Lemma Get_reads_one_subject_of_three :
  (List.length (eval_query (SelectLinked ladon_policy_subject id1)
                           (store subject_rows_break_off)) = 3
   /\ exists p,
        fst (Get id1 subject_rows_break_off) = Ret (Ok p)
        /\ ID p = id1
        /\ Subjects p = ["users:<.+>"]
        /\ Permissions p = ["view"]
        /\ Resources p = ["articles:1"])
  /\ fst (Get id2 (healthy (after readers empty_db)))
     = Ret (Err pkg_ErrNotFound)
  /\ fst (Get id1 (healthy unreadable))
     = Ret (Err (errors_New (ErrOther "json: cannot unmarshal into a slice")))
  /\ fst (Get id1 permission_fetch_fails)
     = Ret (Err (errors_New (ErrOther "connection reset"))).
Proof.
  split.
  { split; [vm_compute; reflexivity|].
    destruct (proj2 (proj2 (proj2
                (@Get_returns_a_partial_record_when_a_fetch_breaks_off
                   reference subject_rows_break_off id1)))
                {| row_id := id1; row_description := "readers";
                   row_effect := "allow";
                   row_conditions := "[" ++ Json.join ["owner"] ++ "]" |}
                ["owner"])
      as (p & E & Hid & _ & _ & _ & Ht & _).
    - intros j Hj. destruct j as [|[|[|[|j]]]]; reflexivity.
    - vm_compute. reflexivity.
    - vm_compute. reflexivity.
    - exists p. split; [exact E|]. split; [exact Hid|].
      split; [exact (Ht ladon_policy_subject)|].
      split; [exact (Ht ladon_policy_permission)
             |exact (Ht ladon_policy_resource)]. }
  split.
  { apply (proj1 (Get_returns_a_partial_record_when_a_fetch_breaks_off
                    (healthy (after readers empty_db)) id2));
      vm_compute; reflexivity. }
  split.
  { eapply (proj1 (proj2 (Get_returns_a_partial_record_when_a_fetch_breaks_off
                            (healthy unreadable) id1)));
      vm_compute; reflexivity. }
  eapply (proj1 (proj2 (proj2
            (Get_returns_a_partial_record_when_a_fetch_breaks_off
               permission_fetch_fails id1)))
            _ _ (ErrOther "connection reset") 2).
  - lia.
  - intros j Hj. destruct j as [|[|j]]; [reflexivity|reflexivity|lia].
  - reflexivity.
  - vm_compute. reflexivity.
  - vm_compute. reflexivity.
Defined.

(** X2, witness. *)
Lemma Delete_of_a_stranger_leaves_readers :
  fst (Delete id2 (healthy (after readers empty_db))) = Ret (Ok tt)
  /\ store (snd (Delete id2 (healthy (after readers empty_db))))
     = after readers empty_db.
Proof.
  apply (Delete_of_a_missing_id_changes_nothing (after readers empty_db) id2);
    vm_compute; reflexivity.
Defined.

(** X4, witness. *)
Lemma everyone_is_read_after_readers_is_deleted :
  fst (Get id2 (healthy (store (snd (Delete id1 (healthy two_policies))))))
  = fst (Get id2 (healthy two_policies)).
Proof.
  apply (Delete_leaves_other_policies two_policies id1 id2). discriminate.
Defined.

(** X5, witness. *)
Lemma alice_finds_everyone_after_readers_is_deleted :
  exists ps' kept,
    fst (FindPoliciesForSubject
           "users:alice"
           (healthy (store (snd (Delete id1 (healthy two_policies))))))
    = Ret (Ok ps')
    /\ Permutation ps' kept
    /\ Forall2 same_record kept
               (filter (fun p => negb (ID p =? id1))
                       [readers_record; everyone_record]).
Proof.
  apply (Delete_removes_the_policy_from_the_results
           two_policies id1 "users:alice" [readers_record; everyone_record]).
  vm_compute. reflexivity.
Defined.

(** X6, witness. *)
Lemma everyone_is_read_after_readers_is_created :
  fst (Get id2 (healthy (store (snd (Create readers
                                       (healthy (after everyone empty_db)))))))
  = fst (Get id2 (healthy (store (healthy (after everyone empty_db))))).
Proof.
  apply (Create_leaves_other_policies
           readers (healthy (after everyone empty_db)) id2).
  discriminate.
Defined.

(** X7, witness. *)
Lemma failed_policy_insert_of_the_run :
  fst (Create readers policy_insert_fails)
  = Ret (Err (ErrOther "connection reset"))
  /\ store (snd (Create readers policy_insert_fails))
     = store policy_insert_fails
  /\ calls (snd (Create readers policy_insert_fails))
     = calls policy_insert_fails
       ++ [(OpBegin, None); (OpExec, Some (ErrOther "connection reset"))].
Proof.
  eapply (Create_ends_at_a_failed_policy_insert readers policy_insert_fails).
  - vm_compute. reflexivity.
  - reflexivity.
  - left. reflexivity.
Defined.

(** X8, witness. *)
Lemma repeated_subject_is_refused :
  fst (Create repeated (healthy empty_db))
  = Ret (Err (ErrOther "duplicate key value violates unique constraint"))
  /\ store (snd (Create repeated (healthy empty_db))) = empty_db
  /\ In (OpRollback, None) (calls (snd (Create repeated (healthy empty_db)))).
Proof.
  apply (Create_refuses_a_repeated_template repeated empty_db
                                            ladon_policy_subject).
  - reflexivity.
  - reflexivity.
  - reflexivity.
  - eexists. vm_compute. reflexivity.
  - intros t template Hin.
    destruct t; simpl in Hin;
      repeat (destruct Hin as [<-|Hin]; [eexists; vm_compute; reflexivity|]);
      destruct Hin.
  - intros H. inversion H as [|x l Hnotin _]. apply Hnotin. left. reflexivity.
Defined.

(** X9, witness. *)
Lemma commit_error_of_the_run_is_lost :
  fst (Create readers commit_fails) = Ret (Err sql_ErrTxDone)
  /\ In (OpRollback, Some sql_ErrTxDone) (calls (snd (Create readers commit_fails)))
  /\ store (snd (Create readers commit_fails)) = store commit_fails.
Proof.
  apply (failed_commit_is_reported_as_a_finished_transaction
           readers commit_fails (ErrOther "connection reset")).
  - reflexivity.
  - vm_compute. do 5 right. left. reflexivity.
Defined.

(** X10, witness. *)
Lemma unterminated_is_never_created :
  fst (Create unterminated resource_insert_fails) <> Ret (Ok tt)
  /\ store (snd (Create unterminated resource_insert_fails))
     = store resource_insert_fails.
Proof.
  eapply (uncompilable_policy_is_not_created
            unterminated resource_insert_fails ladon_policy_subject
            "users:<unterminated").
  - left. reflexivity.
  - vm_compute. reflexivity.
Defined.

(** X11, witness. *)
Lemma readers_is_found_iff_its_subject_matches :
  exists ps,
    fst (FindPoliciesForSubject
           "users:alice"
           (healthy (store (snd (Create readers (healthy empty_db))))))
    = Ret (Ok ps)
    /\ ((exists p, In p ps /\ ID p = GetID readers)
        <-> GetSubjects readers = []
            \/ exists template reg,
                 In template (GetSubjects readers)
                 /\ compiler_CompileRegex template (GetStartDelimiter readers)
                                          (GetEndDelimiter readers) = inr reg
                 /\ regex_match_ci ("^" ++ reg ++ "$") "users:alice" = true).
Proof.
  apply (created_policy_is_found_iff_a_subject_matches
           readers empty_db "users:alice").
  - exact readers_valid.
  - reflexivity.
  - reflexivity.
Defined.

(** X12, witness. *)
Lemma readers_replaces_the_policy_of_its_id :
  fst (Create readers
         (healthy (store (snd (Delete (GetID readers)
                                 (healthy (after (sample id1 ["groups:<.+>"])
                                                 empty_db)))))))
  = Ret (Ok tt)
  /\ exists p,
       fst (Get (GetID readers)
              (healthy
                 (store
                    (snd (Create readers
                            (healthy
                               (store
                                  (snd (Delete (GetID readers)
                                          (healthy
                                             (after (sample id1 ["groups:<.+>"])
                                                    empty_db)))))))))))
       = Ret (Ok p)
       /\ ID p = GetID readers
       /\ Description p = GetDescription readers
       /\ Effect p = GetEffect readers
       /\ Conditions p = conditions_of readers
       /\ forall t, Permutation (templates_of p t) (dimension readers t).
Proof.
  apply (Delete_then_Create_replaces_the_policy
           readers (after (sample id1 ["groups:<.+>"]) empty_db)).
  - exact readers_valid.
  - reflexivity.
  - vm_compute. reflexivity.
Defined.

Lemma readers_reachable : reachable (after readers empty_db).
Proof.
  apply (reachable_Create readers (healthy empty_db)).
  - apply reachable_empty.
  - intros blob Hb. vm_compute in Hb. injection Hb as <-.
    eexists. vm_compute. reflexivity.
Defined.

(** X13, witness. *)
Lemma reads_succeed_after_readers_is_created :
  store_ok (after readers empty_db) = true
  /\ (forall s, exists ps,
        fst (FindPoliciesForSubject s (healthy (after readers empty_db)))
        = Ret (Ok ps))
  /\ (forall id,
        (has_policy (after readers empty_db) id = false
         /\ fst (Get id (healthy (after readers empty_db)))
            = Ret (Err pkg_ErrNotFound))
        \/ (has_policy (after readers empty_db) id = true
            /\ exists p, fst (Get id (healthy (after readers empty_db)))
                         = Ret (Ok p) /\ ID p = id)).
Proof.
  apply (reads_succeed_on_reachable_tables (after readers empty_db)).
  exact readers_reachable.
Defined.

(** X14, witness. *)
Lemma alice_finds_what_Get_reads :
  Forall2 (fun id p => fst (Get id (healthy two_policies)) = Ret (Ok p))
          (eval_query (SelectSubjectMatch "users:alice") two_policies
           ++ eval_query SelectGlobals two_policies)
          [readers_record; everyone_record].
Proof.
  apply (proj1 (proj1 (FindPoliciesForSubject_is_Get_on_each_id
                         two_policies "users:alice")
                      [readers_record; everyone_record])).
  vm_compute. reflexivity.
Defined.

(** X15, witness. *)
Lemma second_query_failure_of_the_run :
  fst (FindPoliciesForSubject "users:alice" second_query_fails)
  = Ret (Err (surfaced (ErrOther "connection reset")))
  /\ calls (snd (FindPoliciesForSubject "users:alice" second_query_fails))
     = calls second_query_fails
       ++ repeat (OpQuery, None) 1
       ++ [(OpQuery, Some (ErrOther "connection reset"))].
Proof.
  apply (FindPoliciesForSubject_stops_at_a_failed_query
           second_query_fails "users:alice" 1 (ErrOther "connection reset")).
  - lia.
  - intros j Hj. destruct j as [|j]; [reflexivity|lia].
  - reflexivity.
Defined.

(** X17, witness. *)
Lemma schema_is_created_from_nothing :
  fst (CreateSchemas no_table) = Ok tt
  /\ relations (snd (CreateSchemas no_table))
     = relations no_table ++ missing no_table tables
  /\ (forall name, In name tables ->
                   exists_table (snd (CreateSchemas no_table)) name = true)
  /\ received (snd (CreateSchemas no_table)) = received no_table ++ schemas
  /\ printed (snd (CreateSchemas no_table)) = printed no_table.
Proof.
  apply (CreateSchemas_creates_the_missing_tables no_table).
  intros k Hk. destruct k; reflexivity.
Defined.

(** X18, witness. *)
Lemma schema_is_created_once :
  fst (CreateSchemas (snd (CreateSchemas no_table))) = Ok tt
  /\ relations (snd (CreateSchemas (snd (CreateSchemas no_table))))
     = relations (snd (CreateSchemas no_table)).
Proof.
  apply (CreateSchemas_again_changes_no_table (snd (CreateSchemas no_table))).
  - intros name Hin.
    repeat (destruct Hin as [<-|Hin]; [vm_compute; reflexivity|]).
    destruct Hin.
  - intros k Hk. destruct k; reflexivity.
Defined.

(** X19, witness. *)
Lemma third_statement_failure_of_the_run :
  fst (CreateSchemas third_statement_fails) = Err (ErrOther "connection reset")
  /\ received (snd (CreateSchemas third_statement_fails))
     = received third_statement_fails ++ firstn 3 schemas
  /\ printed (snd (CreateSchemas third_statement_fails))
     = printed third_statement_fails
       ++ [("Error creating schema " ++ nth 2 schemas "")%string]
  /\ relations (snd (CreateSchemas third_statement_fails))
     = relations third_statement_fails
       ++ missing third_statement_fails (firstn 2 tables).
Proof.
  apply (CreateSchemas_stops_at_the_first_failure
           third_statement_fails 2 (ErrOther "connection reset")).
  - lia.
  - intros j Hj. destruct j as [|[|j]]; [reflexivity|reflexivity|lia].
  - reflexivity.
Defined.

(** X20, witness. *)
Lemma resource_insert_error_is_returned :
  exists e,
    fst (Create readers resource_insert_fails) = Ret (Err e)
    /\ In (OpExec, Some e) (calls (snd (Create readers resource_insert_fails)))
    /\ store (snd (Create readers resource_insert_fails))
       = store resource_insert_fails.
Proof.
  apply (rolled_back_Create_returns_the_error_of_the_insert
           readers resource_insert_fails).
  - reflexivity.
  - vm_compute. do 5 right. left. reflexivity.
Defined.

End Runs.
